(** * otp-auth: a shallow embedding of the authentication session engine

    The development follows the Go sources of the service:
    - [validator/validator.go]            phone-number validator and struct validation,
    - [entity]                            OTP rows, users, requests,
    - [repository]                        the relational OTP/user repositories and the
                                          Redis rate-limit repository,
    - [service]                           OTP service, token service, JWT service,
    - [controller]                        the verify endpoint.

    Go strings are modelled as [string] (sequences of bytes), Go [int] and
    [time.Duration] as [Z], [time.Time] as [Z] nanoseconds since the Unix epoch,
    a Go [error] as the text returned by its [Error()] method. *)

From Stdlib Require Import ZArith Lia Bool List Ascii String.
From stdpp Require Import base option list gmap strings.

Open Scope string_scope.
Open Scope Z_scope.

(** ** Results of fallible Go functions: [(value, nil)] or [(nil, err)]. *)

Inductive result (A : Type) : Type :=
| Ok (a : A)
| Err (msg : string).
Arguments Ok {A} a.
Arguments Err {A} msg.

Definition is_ok {A} (r : result A) : bool :=
  match r with Ok _ => true | Err _ => false end.

(** [fmt.Errorf("<prefix>: %w", err)] wraps an error; its text is the prefix,
    a colon, a space and the text of the wrapped error. *)
Definition wrap (prefix msg : string) : string := prefix ++ ": " ++ msg.

(** ** Regular expressions: the fragment of RE2 syntax used by the validator *)

Module Regexp.

Inductive re : Type :=
| Void                         (* matches nothing *)
| Eps                          (* the empty string *)
| Class (p : ascii -> bool)    (* one byte of a class: a literal, [1-9], \d *)
| Cat (r1 r2 : re)
| Alt (r1 r2 : re).

(** The language of an expression. *)
Inductive lang : re -> string -> Prop :=
| lang_eps : lang Eps EmptyString
| lang_class p c : p c = true -> lang (Class p) (String c EmptyString)
| lang_cat r1 r2 s1 s2 : lang r1 s1 -> lang r2 s2 -> lang (Cat r1 r2) (s1 ++ s2)
| lang_alt_l r1 r2 s : lang r1 s -> lang (Alt r1 r2) s
| lang_alt_r r1 r2 s : lang r2 s -> lang (Alt r1 r2) s.

Fixpoint nullable (r : re) : bool :=
  match r with
  | Void => false
  | Eps => true
  | Class _ => false
  | Cat r1 r2 => nullable r1 && nullable r2
  | Alt r1 r2 => nullable r1 || nullable r2
  end.

(** Brzozowski derivative with respect to one byte. *)
Fixpoint deriv (c : ascii) (r : re) : re :=
  match r with
  | Void => Void
  | Eps => Void
  | Class p => if p c then Eps else Void
  | Cat r1 r2 =>
      if nullable r1
      then Alt (Cat (deriv c r1) r2) (deriv c r2)
      else Cat (deriv c r1) r2
  | Alt r1 r2 => Alt (deriv c r1) (deriv c r2)
  end.

(** Whole-text match: what [MatchString] decides for a pattern anchored by
    [^] and [$] (without the multi-line flag these are begin and end of
    text in Go's regexp package). *)
Fixpoint fullmatch (r : re) (s : string) : bool :=
  match s with
  | EmptyString => nullable r
  | String c s' => fullmatch (deriv c r) s'
  end.

(** [x{min,max}] is compiled by Go's regexp/syntax as [min] copies of [x]
    followed by [max - min] nested optional copies: [x{2,4}] is [xx(x(x)?)?]. *)
Fixpoint upto (r : re) (k : nat) : re :=
  match k with
  | O => Eps
  | S k' => Alt Eps (Cat r (upto r k'))
  end.

Fixpoint power (r : re) (n : nat) (rest : re) : re :=
  match n with
  | O => rest
  | S n' => Cat r (power r n' rest)
  end.

Definition Repeat (r : re) (min max : nat) : re :=
  power r min (upto r (max - min)).

Definition in_range (lo hi : string) (c : ascii) : bool :=
  match lo, hi with
  | String l EmptyString, String h EmptyString =>
      ((N_of_ascii l <=? N_of_ascii c) && (N_of_ascii c <=? N_of_ascii h))%N
  | _, _ => false
  end.

Global Arguments in_range : simpl never.

Definition Lit (a : ascii) : re := Class (Ascii.eqb a).
Definition Digit : re := Class (in_range "0" "9").

End Regexp.

(** ** validator/validator.go *)

Module Validator.
Import Regexp.

(** [regexp.MustCompile(`^\+[1-9]\d{6,14}$`)] *)
Definition phoneRegex : re :=
  Cat (Lit "+") (Cat (Class (in_range "1" "9")) (Repeat Digit 6 14)).

(** [validatePhoneNumber]: [phoneRegex.MatchString(phoneNumber)]. *)
Definition validatePhoneNumber (phoneNumber : string) : bool :=
  fullmatch phoneRegex phoneNumber.

(** The format in the words of the specification: a leading [+], a first
    digit 1-9, then 6 to 14 more digits, and nothing else. *)
Fixpoint all_digits (s : string) : bool :=
  match s with
  | EmptyString => true
  | String c s' => in_range "0" "9" c && all_digits s'
  end.

Definition phone_format (s : string) : bool :=
  match s with
  | String plus (String d rest) =>
      Ascii.eqb plus "+" && in_range "1" "9" d && all_digits rest
      && (6 <=? String.length rest)%nat && (String.length rest <=? 14)%nat
  | _ => false
  end.

End Validator.

(** ** entity: rows of the [otps] and [users] tables *)

Module OTP.
Record t : Type := mk {
  ID : Z;
  PhoneNumber : string;
  Code : string;
  SessionToken : string;
  ExpiresAt : Z;
  IsUsed : bool;
  CreatedAt : Z;
  UsedAt : option Z
}.

(** [SET is_used = TRUE, used_at = CURRENT_TIMESTAMP] on one row. *)
Definition set_used (now : Z) (o : t) : t :=
  mk (ID o) (PhoneNumber o) (Code o) (SessionToken o) (ExpiresAt o)
     true (CreatedAt o) (Some now).
End OTP.

Module User.
Record t : Type := mk {
  ID : Z;
  PhoneNumber : string;
  RegisteredAt : Z;
  LastLoginAt : option Z;
  IsActive : bool
}.

Definition set_last_login (now : Z) (u : t) : t :=
  mk (ID u) (PhoneNumber u) (RegisteredAt u) (Some now) (IsActive u).
End User.

(** ** The relational store

    [otp_seq] and [user_seq] are the [SERIAL] counters of the two tables.
    [session_token] carries a [UNIQUE] constraint (migration 005) and so does
    [users.phone_number] (migration 001). *)

Record DB : Type := mkDB {
  otps : list OTP.t;
  otp_seq : Z;
  users : list User.t;
  user_seq : Z
}.

(** A statement may fail in the driver (connection lost, timeout, ...).
    [SqlFaults] says, for one service call, which statements fail and with
    which driver error; [None] means the statement is executed. *)
Record SqlFaults : Type := mkSqlFaults {
  otp_insert_err : option string;
  otp_select_err : option string;
  otp_update_err : option string;
  otp_delete_err : option string;
  user_select_err : option string;
  user_insert_err : option string;
  user_update_err : option string
}.

Definition no_sql_faults : SqlFaults :=
  mkSqlFaults None None None None None None None.

(** The text of the driver error for a violated [UNIQUE] constraint. *)
Definition unique_violation : string :=
  "pq: duplicate key value violates unique constraint".

(** State and error passing: a repository or service method is a function
    from the store to the new store and the returned [(value, error)]. *)
Definition M (S A : Type) : Type := S -> S * result A.

Definition ret {S A} (a : A) : M S A := fun s => (s, Ok a).
Definition fail {S A} (msg : string) : M S A := fun s => (s, Err msg).
Definition bind {S A B} (m : M S A) (k : A -> M S B) : M S B :=
  fun s => match m s with
           | (s', Ok a) => k a s'
           | (s', Err e) => (s', Err e)
           end.

(** [if err != nil { return nil, fmt.Errorf("<prefix>: %w", err) }] *)
Definition or_wrap {S A} (prefix : string) (m : M S A) : M S A :=
  fun s => match m s with
           | (s', Ok a) => (s', Ok a)
           | (s', Err e) => (s', Err (wrap prefix e))
           end.

Notation "x <- m ;; k" := (bind m (fun x => k))
  (at level 100, m at next level, right associativity).

(** ** repository: OTP rows *)

Module OTPRepository.

(** The [WHERE] clause of [GetActiveBySessionTokenAndCode]:
    [session_token = $1 AND code = $2 AND is_used = FALSE
     AND expires_at > CURRENT_TIMESTAMP]. *)
Definition active_match (now : Z) (sessionToken code : string) (o : OTP.t) : bool :=
  String.eqb (OTP.SessionToken o) sessionToken
  && String.eqb (OTP.Code o) code
  && negb (OTP.IsUsed o)
  && (now <? OTP.ExpiresAt o).

(** [ORDER BY created_at DESC LIMIT 1]: a row with the greatest
    [created_at]; among equal ones the first in table order. *)
Fixpoint latest (rows : list OTP.t) : option OTP.t :=
  match rows with
  | [] => None
  | o :: rest =>
      match latest rest with
      | None => Some o
      | Some o' => if OTP.CreatedAt o <? OTP.CreatedAt o' then Some o' else Some o
      end
  end.

(** [Create]: the insert sets [created_at], [is_used = false], draws the id
    from the sequence and enforces the unique session token. *)
Definition Create (io : SqlFaults) (now : Z) (otp : OTP.t) : M DB OTP.t :=
  fun db =>
    match otp_insert_err io with
    | Some e => (db, Err (wrap "failed to create OTP" e))
    | None =>
        if existsb (fun o => String.eqb (OTP.SessionToken o) (OTP.SessionToken otp))
                   (otps db)
        then (db, Err (wrap "failed to create OTP" unique_violation))
        else
          let created :=
            OTP.mk (otp_seq db) (OTP.PhoneNumber otp) (OTP.Code otp)
                   (OTP.SessionToken otp) (OTP.ExpiresAt otp) false now None in
          (mkDB (otps db ++ [created]) (otp_seq db + 1) (users db) (user_seq db),
           Ok created)
    end.

Definition GetActiveBySessionTokenAndCode
    (io : SqlFaults) (now : Z) (sessionToken code : string) : M DB (option OTP.t) :=
  fun db =>
    match otp_select_err io with
    | Some e => (db, Err (wrap "failed to get OTP by session token" e))
    | None =>
        (db, Ok (latest (List.filter (active_match now sessionToken code) (otps db))))
    end.

(** The [WHERE] clause of [MarkAsUsed]: [id = $1 AND is_used = FALSE]. *)
Definition unused_with_id (id : Z) (o : OTP.t) : bool :=
  (OTP.ID o =? id) && negb (OTP.IsUsed o).

Definition rows_affected (id : Z) (rows : list OTP.t) : nat :=
  List.length (List.filter (unused_with_id id) rows).

Definition mark_rows (now id : Z) (rows : list OTP.t) : list OTP.t :=
  map (fun o => if unused_with_id id o then OTP.set_used now o else o) rows.

Definition MarkAsUsed (io : SqlFaults) (now : Z) (id : Z) : M DB unit :=
  fun db =>
    match otp_update_err io with
    | Some e => (db, Err (wrap "failed to mark OTP as used" e))
    | None =>
        let db' := mkDB (mark_rows now id (otps db)) (otp_seq db)
                        (users db) (user_seq db) in
        if (rows_affected id (otps db) =? 0)%nat
        then (db', Err "OTP not found or already used")
        else (db', Ok tt)
    end.

(** [DeleteExpired]: [DELETE FROM otps WHERE expires_at < CURRENT_TIMESTAMP]. *)
Definition DeleteExpired (io : SqlFaults) (now : Z) : M DB unit :=
  fun db =>
    match otp_delete_err io with
    | Some e => (db, Err (wrap "failed to delete expired OTPs" e))
    | None =>
        (mkDB (List.filter (fun o => negb (OTP.ExpiresAt o <? now)) (otps db))
              (otp_seq db) (users db) (user_seq db), Ok tt)
    end.

End OTPRepository.

(** ** repository: users *)

Module UserRepository.

(** [WHERE phone_number = $1 AND is_active = TRUE] *)
Definition active_with_phone (phoneNumber : string) (u : User.t) : bool :=
  String.eqb (User.PhoneNumber u) phoneNumber && User.IsActive u.

Definition GetByPhoneNumber (io : SqlFaults) (phoneNumber : string)
  : M DB (option User.t) :=
  fun db =>
    match user_select_err io with
    | Some e => (db, Err (wrap "failed to get user by phone number" e))
    | None => (db, Ok (List.find (active_with_phone phoneNumber) (users db)))
    end.

(** [Create]: [registered_at] and [last_login_at] are both set to the
    current time, [is_active] to true. *)
Definition Create (io : SqlFaults) (now : Z) (phoneNumber : string) : M DB User.t :=
  fun db =>
    match user_insert_err io with
    | Some e => (db, Err (wrap "failed to create user" e))
    | None =>
        if existsb (fun u => String.eqb (User.PhoneNumber u) phoneNumber) (users db)
        then (db, Err (wrap "failed to create user" unique_violation))
        else
          let created := User.mk (user_seq db) phoneNumber now (Some now) true in
          (mkDB (otps db) (otp_seq db) (users db ++ [created]) (user_seq db + 1),
           Ok created)
    end.

Definition UpdateLastLogin (io : SqlFaults) (now : Z) (phoneNumber : string)
  : M DB unit :=
  fun db =>
    match user_update_err io with
    | Some e => (db, Err (wrap "failed to update last login" e))
    | None =>
        let hit := active_with_phone phoneNumber in
        let db' := mkDB (otps db) (otp_seq db)
                        (map (fun u => if hit u then User.set_last_login now u else u)
                             (users db))
                        (user_seq db) in
        if (List.length (List.filter hit (users db)) =? 0)%nat
        then (db', Err "user not found or inactive")
        else (db', Ok tt)
    end.

End UserRepository.

(** ** time: instants and durations in nanoseconds *)

Module Time.
Definition Second : Z := 1000000000.
Definition Minute : Z := 60 * Second.

Definition minDuration : Z := - 2 ^ 63.
Definition maxDuration : Z := 2 ^ 63 - 1.

(** [time.Time{}]: January 1, year 1, 00:00 UTC. *)
Definition zero : Z := -62135596800 * Second.
Definition IsZero (t : Z) : bool := t =? zero.

(** [t.Sub(u)]: the difference, saturated to the range of [Duration]. *)
Definition Sub (t u : Z) : Z := Z.max minDuration (Z.min maxDuration (t - u)).
Definition Add (t d : Z) : Z := t + d.
End Time.

(** ** config *)

Record Config : Type := mkConfig {
  JWT_Secret : string;
  JWT_ExpirationTime : Z;
  OTP_Length : Z;
  OTP_ExpirationTime : Z;
  RateLimit_MaxRequests : Z;
  RateLimit_WindowDuration : Z
}.

(** The values [config.Load] takes when the environment sets nothing. *)
Definition default_config : Config :=
  mkConfig "your-super-secret-key-change-in-production"
           (24 * 60 * Time.Minute) 6 (2 * Time.Minute) 3 (10 * Time.Minute).

(** ** repository: the Redis rate-limit store *)

Module RateLimitInfo.
(** The fields the service and the Redis repository read and write. *)
Record t : Type := mk {
  PhoneNumber : string;
  RequestCount : Z;
  LastRequestAt : Z;
  WindowStartAt : Z
}.
End RateLimitInfo.

(** Which Redis commands of one repository call fail, and with which error. *)
Record RedisFaults : Type := mkRedisFaults {
  get_err : option string;
  set_err : option string;
  del_err : option string;
  ttl_err : option string;
  sadd_err : option string;
  srem_err : option string;
  expire_err : option string;
  smembers_err : option string;
  pipeline_err : option string
}.

Definition no_redis_faults : RedisFaults :=
  mkRedisFaults None None None None None None None None None.

(** ** The Redis commands the repositories issue

    A keyspace maps a key to its value and to the instant at which the key
    expires, if it has an expiration.  A command issued at instant [now] sees
    a key only before that instant. *)

Module Redis.
Section Keyspace.
Context {V : Type}.

Definition live (now : Z) (key : string) (st : gmap string (V * option Z))
  : option (V * option Z) :=
  match st !! key with
  | Some (v, Some e) => if now <? e then Some (v, Some e) else None
  | Some (v, None) => Some (v, None)
  | None => None
  end.

(** [GET key]; [None] is the [redis.Nil] reply. *)
Definition get (now : Z) (key : string) (st : gmap string (V * option Z))
  : option V :=
  option_map fst (live now key st).

(** go-redis [KeepTTL]. *)
Definition KeepTTL : Z := -1.

(** [Set(ctx, key, v, ttl)]: a positive [ttl] sets the expiration,
    [KeepTTL] keeps the one the key has, any other value stores the key
    without expiration. *)
Definition set (now : Z) (key : string) (v : V) (ttl : Z)
    (st : gmap string (V * option Z)) : gmap string (V * option Z) :=
  let expiration :=
    if 0 <? ttl then Some (now + ttl)
    else if ttl =? KeepTTL
         then match live now key st with
              | Some (_, e) => e
              | None => None
              end
         else None in
  <[key := (v, expiration)]> st.

(** [DEL key] *)
Definition del (key : string) (st : gmap string (V * option Z))
  : gmap string (V * option Z) :=
  delete key st.

(** [TTL key]: the remaining time, -1 without expiration, -2 without key. *)
Definition ttl (now : Z) (key : string) (st : gmap string (V * option Z)) : Z :=
  match live now key st with
  | Some (_, Some e) => e - now
  | Some (_, None) => -1
  | None => -2
  end.
End Keyspace.

(** Keys that hold sets. *)
Abbreviation sets := (gmap string (gset string * option Z)).

(** [SADD key member]: a missing key starts as the empty set without
    expiration. *)
Definition sadd (now : Z) (key member : string) (st : sets) : sets :=
  match live now key st with
  | Some (members, e) => <[key := (members ∪ {[member]}, e)]> st
  | None => <[key := ({[member]}, None)]> st
  end.

(** [SREM key member]: a set left empty is removed. *)
Definition srem (now : Z) (key member : string) (st : sets) : sets :=
  match live now key st with
  | Some (members, e) =>
      if decide (members ∖ {[member]} = ∅) then delete key st
      else <[key := (members ∖ {[member]}, e)]> st
  | None => st
  end.

(** [EXPIRE key ttl]: a time to live that is not positive deletes the key. *)
Definition expire (now : Z) (key : string) (ttl : Z) (st : sets) : sets :=
  match live now key st with
  | Some (members, _) =>
      if 0 <? ttl then <[key := (members, Some (now + ttl))]> st
      else delete key st
  | None => st
  end.

(** [SMEMBERS key] *)
Definition smembers (now : Z) (key : string) (st : sets) : list string :=
  match live now key st with
  | Some (members, _) => elements members
  | None => []
  end.
End Redis.

(** The keys [rate_limit:<phone>]; the stored JSON document is read back as
    the record that was written. *)
Abbreviation RateStore := (gmap string (RateLimitInfo.t * option Z)).

Module RedisRateLimitRepository.

(** [fmt.Sprintf("rate_limit:%s", phoneNumber)] *)
Definition key (phoneNumber : string) : string :=
  ("rate_limit:" ++ phoneNumber)%string.

Definition redis_get (now : Z) (phoneNumber : string) (st : RateStore)
  : option RateLimitInfo.t :=
  Redis.get now (key phoneNumber) st.

(** [GetRateLimit] returns a pointer to a record and an error; the pointer
    is an [option] here.  This repository answers a missing key with a
    zero record, never with nil. *)
Definition GetRateLimit (io : RedisFaults) (now : Z) (phoneNumber : string)
  : M RateStore (option RateLimitInfo.t) :=
  fun st =>
    match get_err io with
    | Some e => (st, Err (wrap "failed to get rate limit info" e))
    | None =>
        match redis_get now phoneNumber st with
        | None => (st, Ok (Some (RateLimitInfo.mk phoneNumber 0 Time.zero Time.zero)))
        | Some info => (st, Ok (Some info))
        end
    end.

(** [UpdateRateLimit]: the time to live is the rest of the window; an
    elapsed window is restarted, and a rest below one minute is raised to
    one minute. *)
Definition UpdateRateLimit (cfg : Config) (io : RedisFaults) (now : Z)
    (rateLimitInfo : RateLimitInfo.t) : M RateStore unit :=
  fun st =>
    let windowDuration := RateLimit_WindowDuration cfg in
    let info1 :=
      if Time.IsZero (RateLimitInfo.WindowStartAt rateLimitInfo)
      then RateLimitInfo.mk (RateLimitInfo.PhoneNumber rateLimitInfo)
                            (RateLimitInfo.RequestCount rateLimitInfo)
                            (RateLimitInfo.LastRequestAt rateLimitInfo) now
      else rateLimitInfo in
    let windowEnd := Time.Add (RateLimitInfo.WindowStartAt info1) windowDuration in
    let ttl := Time.Sub windowEnd now in
    let '(info2, ttl2) :=
      if ttl <=? 0
      then (RateLimitInfo.mk (RateLimitInfo.PhoneNumber info1) 1
                             (RateLimitInfo.LastRequestAt info1) now,
            windowDuration)
      else if ttl <? Time.Minute
           then (info1, Time.Minute)
           else (info1, ttl) in
    match set_err io with
    | Some e => (st, Err (wrap "failed to update rate limit info" e))
    | None =>
        (Redis.set now (key (RateLimitInfo.PhoneNumber info2)) info2 ttl2 st, Ok tt)
    end.

End RedisRateLimitRepository.

(** ** fmt: the formatting the OTP service relies on *)

Module Fmt.

Definition digit (d : Z) : ascii := ascii_of_N (48 + Z.to_N d).

Fixpoint decimal_aux (fuel : nat) (n : Z) (acc : string) : string :=
  match fuel with
  | O => acc
  | S fuel' =>
      let acc' := String (digit (n mod 10)) acc in
      if n / 10 =? 0 then acc' else decimal_aux fuel' (n / 10) acc'
  end.

(** The decimal digits of a non-negative integer. *)
Definition decimal (n : Z) : string :=
  decimal_aux (S (Z.to_nat (Z.log2 n))) n EmptyString.

(** The verb [%d] on an [int]. *)
Definition int_text (z : Z) : string :=
  if z <? 0 then String "-" (decimal (- z)) else decimal z.

Fixpoint replicate (k : nat) (c : ascii) : string :=
  match k with
  | O => EmptyString
  | S k' => String c (replicate k' c)
  end.

Definition pad_left (c : ascii) (width : nat) (s : string) : string :=
  (replicate (width - String.length s) c ++ s)%string.

Definition pad_right (c : ascii) (width : nat) (s : string) : string :=
  (s ++ replicate (width - String.length s) c)%string.

(** [fmt.Sprintf(fmt.Sprintf("%%0%dd", width), n)] for a non-negative
    [*big.Int] [n].  The inner call writes the verb [%0<width>d]:
    - a positive [width] pads the digits with zeros on the left;
    - for [width = 0] the verb is [%00d], two flags and no width;
    - a negative [width] puts a [-] flag before the digits of the width:
      the number is left-justified and padded with spaces on the right;
    - the width parser gives up once the digits read so far exceed 10^6;
      the verb is then reported as missing and the operand as extra. *)
Definition Sprintf_0Nd (width : Z) (n : Z) : string :=
  if 1000000 <? Z.abs width / 10
  then ("%!(NOVERB)%!(EXTRA *big.Int=" ++ decimal n ++ ")")%string
  else if width =? 0 then decimal n
  else if 0 <? width then pad_left "0" (Z.to_nat width) (decimal n)
  else pad_right " " (Z.to_nat (- width)) (decimal n).

(** [fmt.Sprintf("%x", bytes)]: two lower-case hexadecimal digits a byte. *)
Definition hex_digit (d : N) : ascii :=
  if (d <? 10)%N then ascii_of_N (48 + d) else ascii_of_N (87 + d).

Fixpoint hex (bytes : list ascii) : string :=
  match bytes with
  | [] => EmptyString
  | b :: rest =>
      String (hex_digit (N_of_ascii b / 16))
             (String (hex_digit (N_of_ascii b mod 16)) (hex rest))
  end.

End Fmt.

(** ** unicode/utf8 *)

Module Utf8.

(** The entry of the table [first] for a leading byte at or above 0x80:
    the length of the sequence and the range accepted for its second
    byte; [None] stands for an invalid leading byte. *)
Definition first (c : N) : option (nat * N * N) :=
  (if (194 <=? c) && (c <=? 223) then Some (2%nat, 128, 191)
   else if c =? 224 then Some (3%nat, 160, 191)
   else if (225 <=? c) && (c <=? 236) then Some (3%nat, 128, 191)
   else if c =? 237 then Some (3%nat, 128, 159)
   else if (238 <=? c) && (c <=? 239) then Some (3%nat, 128, 191)
   else if c =? 240 then Some (4%nat, 144, 191)
   else if (241 <=? c) && (c <=? 243) then Some (4%nat, 128, 191)
   else if c =? 244 then Some (4%nat, 128, 143)
   else None)%N.

Definition between (lo hi : N) (c : ascii) : bool :=
  ((lo <=? N_of_ascii c) && (N_of_ascii c <=? hi))%N.

(** The number of bytes [RuneCountInString] advances by at a position
    whose byte is [c] and whose following bytes are [rest]. *)
Definition rune_size (c : ascii) (rest : string) : nat :=
  if (N_of_ascii c <? 128)%N then 1%nat
  else
    match first (N_of_ascii c) with
    | None => 1%nat
    | Some (size, lo, hi) =>
        if (String.length rest <? size - 1)%nat then 1%nat
        else
          match rest with
          | String c1 rest1 =>
              if negb (between lo hi c1) then 1%nat
              else if (size =? 2)%nat then 2%nat
              else
                match rest1 with
                | String c2 rest2 =>
                    if negb (between 128 191 c2) then 1%nat
                    else if (size =? 3)%nat then 3%nat
                    else
                      match rest2 with
                      | String c3 _ =>
                          if negb (between 128 191 c3) then 1%nat else 4%nat
                      | EmptyString => 1%nat
                      end
                | EmptyString => 1%nat
                end
          | EmptyString => 1%nat
          end
    end.

(** [count s skip]: the runes of [s] once its first [skip] bytes, the
    rest of a sequence already counted, are passed over. *)
Fixpoint count (s : string) (skip : nat) : nat :=
  match s with
  | EmptyString => O
  | String c rest =>
      match skip with
      | S k => count rest k
      | O => S (count rest (rune_size c rest - 1))
      end
  end.

Definition RuneCountInString (s : string) : nat := count s 0.

(** Every byte is below [RuneSelf]. *)
Fixpoint ascii_only (s : string) : bool :=
  match s with
  | EmptyString => true
  | String c rest => (N_of_ascii c <? 128)%N && ascii_only rest
  end.

End Utf8.

(** ** validator: struct validation of the requests *)

Module StructValidator.
Import Validator.

(** [entity.SendOTPRequest] *)
Record SendOTPRequest : Type := mkSendOTPRequest {
  send_PhoneNumber : string        (* validate:"required,phone_number" *)
}.

(** [entity.VerifyOTPRequest] *)
Record VerifyOTPRequest : Type := mkVerifyOTPRequest {
  Token : string;                  (* validate:"required" *)
  Code : string                    (* validate:"required,len=6" *)
}.

(** The tags of one field are tried in order; the first that fails is
    reported by [formatFieldError] under the field's JSON name. *)
Definition required (field value : string) : option string :=
  if String.eqb value "" then Some (field ++ " is required")%string else None.

Definition len (param : nat) (paramText field value : string) : option string :=
  if (Utf8.RuneCountInString value =? param)%nat then None
  else Some (field ++ " must be exactly " ++ paramText ++ " characters long")%string.

Definition phone_number (field value : string) : option string :=
  if validatePhoneNumber value then None
  else Some (field ++ " must be a valid phone number (format: +1234567890)")%string.

Definition first_failure (checks : list (option string)) : option string :=
  List.find (fun c => match c with Some _ => true | None => false end) checks
  ≫= id.

Fixpoint join (sep : string) (parts : list string) : string :=
  match parts with
  | [] => EmptyString
  | [p] => p
  | p :: rest => (p ++ sep ++ join sep rest)%string
  end.

(** [ValidateStruct]: [None] is a nil error. *)
Definition report (field_errors : list (option string)) : option string :=
  match omap id field_errors with
  | [] => None
  | errors => Some ("validation failed: " ++ join "; " errors)%string
  end.

Definition ValidateStruct_SendOTPRequest (req : SendOTPRequest) : option string :=
  report [first_failure [required "phone_number" (send_PhoneNumber req);
                         phone_number "phone_number" (send_PhoneNumber req)]].

Definition ValidateStruct_VerifyOTPRequest (req : VerifyOTPRequest) : option string :=
  report [first_failure [required "token" (Token req)];
          first_failure [required "code" (Code req);
                         len 6 "6" "code" (Code req)]].

End StructValidator.

(** ** service: the OTP service *)

(** Go's [int] is 64 bits wide; [int_wrap] is the value an arithmetic result
    takes in that type. *)
Definition int_wrap (z : Z) : Z := (z + 2 ^ 63) mod 2 ^ 64 - 2 ^ 63.

(** ** The session store of the token service *)

Module TokenInfo.
Record t : Type := mk {
  UserID : Z;
  TokenHash : string;
  IssuedAt : Z;
  ExpiresAt : Z;
  LastUsed : Z
}.

Definition set_last_used (now : Z) (i : t) : t :=
  mk (UserID i) (TokenHash i) (IssuedAt i) (ExpiresAt i) now.
End TokenInfo.

(** A goroutine started by [updateTokenLastUsed] that has not finished: it
    reads the time to live of the key and then, if that is positive, writes
    the record back with it.  [Spawned] has done neither; [Armed] has read a
    positive time to live and has the write still to do. *)
Inductive Refresh : Type :=
| Spawned (tokenHash : string) (tokenInfo : TokenInfo.t)
| Armed (tokenHash : string) (tokenInfo : TokenInfo.t) (ttl : Z).

(** The keys [token:<hash>], the sets [user_tokens:<id>], and the goroutines
    in flight. *)
Record TokenStore : Type := mkTokenStore {
  tokens : gmap string (TokenInfo.t * option Z);
  user_tokens : Redis.sets;
  pending : list Refresh
}.

(** The stores of the application: the relational database and the two
    Redis key families. *)
Record World : Type := mkWorld {
  db : DB;
  rate : RateStore;
  sessions : TokenStore
}.

Definition on_db {A} (m : M DB A) : M World A :=
  fun w => let '(d, r) := m (db w) in (mkWorld d (rate w) (sessions w), r).

Definition on_rate {A} (m : M RateStore A) : M World A :=
  fun w => let '(s, r) := m (rate w) in (mkWorld (db w) s (sessions w), r).

Definition on_sessions {A} (m : M TokenStore A) : M World A :=
  fun w => let '(s, r) := m (sessions w) in (mkWorld (db w) (rate w) s, r).

(** What one [SendOTP] call takes from its environment: the clock readings
    of its [time.Now()] calls in program order, the outcome of the two reads
    of [crypto/rand], and the failures of the store commands it issues. *)
Record SendEnv : Type := mkSendEnv {
  t_check : Z;                      (* IsRateLimited *)
  check_io : RedisFaults;
  rand_int : result Z;              (* rand.Int(rand.Reader, maxValue) *)
  rand_bytes : result (list ascii); (* rand.Read of 32 bytes *)
  t_issue : Z;                      (* ExpiresAt and created_at of the new row *)
  sql_io : SqlFaults;
  t_update : Z;                     (* updateRateLimit *)
  t_store : Z;                      (* UpdateRateLimit of the repository *)
  update_io : RedisFaults
}.

Module OTPResponse.
Record t : Type := mk {
  Message : string;
  Token : string;
  PhoneNumber : string;
  ExpiresAt : Z
}.
End OTPResponse.

Module OTPService.
Section Service.
Variable cfg : Config.

(** The [String] method of [time.Duration], which renders the window in
    the rate-limit error. *)
Variable Duration_String : Z -> string.

Definition IsRateLimited (io : RedisFaults) (now : Z) (phoneNumber : string)
  : M RateStore bool :=
  rateLimitInfo <- or_wrap "failed to get rate limit info"
                     (RedisRateLimitRepository.GetRateLimit io now phoneNumber) ;;
  match rateLimitInfo with
  | None => ret false
  | Some info =>
      if RateLimit_WindowDuration cfg
         <=? Time.Sub now (RateLimitInfo.WindowStartAt info)
      then ret false
      else ret (RateLimit_MaxRequests cfg <=? RateLimitInfo.RequestCount info)
  end.

(** [now] is the reading of the service, [now_store] the later one of
    the repository's [UpdateRateLimit]. *)
Definition updateRateLimit (io : RedisFaults) (now now_store : Z)
    (phoneNumber : string) : M RateStore unit :=
  rateLimitInfo <- or_wrap "failed to get rate limit info"
                     (RedisRateLimitRepository.GetRateLimit io now phoneNumber) ;;
  let updated :=
    match rateLimitInfo with
    | None => RateLimitInfo.mk phoneNumber 1 now now
    | Some info =>
        if RateLimit_WindowDuration cfg
           <=? Time.Sub now (RateLimitInfo.WindowStartAt info)
        then RateLimitInfo.mk (RateLimitInfo.PhoneNumber info) 1 now now
        else RateLimitInfo.mk (RateLimitInfo.PhoneNumber info)
                              (int_wrap (RateLimitInfo.RequestCount info + 1))
                              now (RateLimitInfo.WindowStartAt info)
    end in
  RedisRateLimitRepository.UpdateRateLimit cfg io now_store updated.

(** The loop multiplies [maxValue] by ten [OTP.Length] times, and not at
    all for a length below one. *)
Definition maxValue : Z := 10 ^ Z.max 0 (OTP_Length cfg).

Definition generateOTPCode (random : result Z) : result string :=
  match random with
  | Err e => Err (wrap "failed to generate random number" e)
  | Ok randomNumber => Ok (Fmt.Sprintf_0Nd (OTP_Length cfg) randomNumber)
  end.

Definition generateSessionToken (random : result (list ascii)) : result string :=
  match random with
  | Err e => Err (wrap "failed to generate session token" e)
  | Ok bytes => Ok (Fmt.hex bytes)
  end.

Definition lift {S A} (r : result A) : M S A := fun s => (s, r).

(** [fmt.Errorf("rate limit exceeded. Maximum %d requests per %v", ...)] *)
Definition rate_limit_exceeded : string :=
  ("rate limit exceeded. Maximum " ++ Fmt.int_text (RateLimit_MaxRequests cfg)
   ++ " requests per " ++ Duration_String (RateLimit_WindowDuration cfg))%string.

(** [SendOTP].  The code is printed to the console and not returned. *)
Definition SendOTP (env : SendEnv) (phoneNumber : string) : M World OTPResponse.t :=
  isLimited <- or_wrap "failed to check rate limit"
                 (on_rate (IsRateLimited (check_io env) (t_check env) phoneNumber)) ;;
  if isLimited : bool
  then fail rate_limit_exceeded
  else
    code <- or_wrap "failed to generate OTP code"
              (lift (generateOTPCode (rand_int env))) ;;
    sessionToken <- or_wrap "failed to generate session token"
                      (lift (generateSessionToken (rand_bytes env))) ;;
    let otp := OTP.mk 0 phoneNumber code sessionToken
                      (Time.Add (t_issue env) (OTP_ExpirationTime cfg))
                      false 0 None in
    createdOTP <- or_wrap "failed to create OTP"
                    (on_db (OTPRepository.Create (sql_io env) (t_issue env) otp)) ;;
    (* a failed update is logged and the error dropped *)
    fun w =>
      let '(w', _) :=
        on_rate (updateRateLimit (update_io env) (t_update env) (t_store env)
                                 phoneNumber) w in
      (w', Ok (OTPResponse.mk "OTP sent successfully" sessionToken phoneNumber
                              (OTP.ExpiresAt createdOTP))).

(** The last part of [VerifyOTP]: the user is fetched or created and
    the last login recorded. *)
Definition VerifyOTP_resolve (io : SqlFaults) (now : Z) (phoneNumber : string)
  : M DB User.t :=
  user <- or_wrap "failed to get user"
            (UserRepository.GetByPhoneNumber io phoneNumber) ;;
  match user with
  | None =>
      or_wrap "failed to create user" (UserRepository.Create io now phoneNumber)
  | Some user =>
      _ <- or_wrap "failed to update last login"
             (UserRepository.UpdateLastLogin io now phoneNumber) ;;
      ret user
  end.

(** [VerifyOTP] from the point where the lookup has returned: the
    conditional update, then the part above. *)
Definition VerifyOTP_consume (io : SqlFaults) (now : Z) (found : option OTP.t)
  : M DB User.t :=
  match found with
  | None => fail "invalid or expired OTP"
  | Some otp =>
      _ <- or_wrap "failed to mark OTP as used"
             (OTPRepository.MarkAsUsed io now (OTP.ID otp)) ;;
      VerifyOTP_resolve io now (OTP.PhoneNumber otp)
  end.

Definition VerifyOTP (io : SqlFaults) (now : Z) (sessionToken code : string)
  : M DB User.t :=
  found <- or_wrap "failed to verify OTP"
             (OTPRepository.GetActiveBySessionTokenAndCode io now sessionToken code) ;;
  VerifyOTP_consume io now found.

End Service.
End OTPService.

(** ** service: the token service (session records in Redis) *)

Module TokenService.

(** [fmt.Sprintf("token:%s", tokenHash)] *)
Definition key (tokenHash : string) : string := ("token:" ++ tokenHash)%string.

(** [fmt.Sprintf("user_tokens:%d", userID)] *)
Definition userKey (userID : Z) : string :=
  ("user_tokens:" ++ Fmt.int_text userID)%string.

Definition with_tokens (f : gmap string (TokenInfo.t * option Z)
                            -> gmap string (TokenInfo.t * option Z))
    (st : TokenStore) : TokenStore :=
  mkTokenStore (f (tokens st)) (user_tokens st) (pending st).

Definition with_user_tokens (f : Redis.sets -> Redis.sets) (st : TokenStore)
  : TokenStore :=
  mkTokenStore (tokens st) (f (user_tokens st)) (pending st).

Definition spawn (task : Refresh) (st : TokenStore) : TokenStore :=
  mkTokenStore (tokens st) (user_tokens st) (pending st ++ [task]).

(** A command whose result the caller drops takes effect unless it fails. *)
Definition unless (err : option string) (f : TokenStore -> TokenStore)
    (st : TokenStore) : TokenStore :=
  match err with Some _ => st | None => f st end.

(** [StoreToken].  The hash is the hexadecimal text of a SHA-256 digest,
    64 characters, so the slice [tokenHash[:8]] of the log line is in range. *)
Definition StoreToken (io : RedisFaults) (now : Z) (tokenHash : string)
    (tokenInfo : TokenInfo.t) (expiration : Z) : M TokenStore unit :=
  fun st =>
    match set_err io with
    | Some e => (st, Err (wrap "failed to store token in Redis" e))
    | None =>
        let st1 := with_tokens (Redis.set now (key tokenHash) tokenInfo expiration) st in
        let uk := userKey (TokenInfo.UserID tokenInfo) in
        let st2 := unless (sadd_err io)
                          (with_user_tokens (Redis.sadd now uk tokenHash)) st1 in
        let st3 := unless (expire_err io)
                          (with_user_tokens
                             (Redis.expire now uk (expiration + 60 * Time.Minute)))
                          st2 in
        (st3, Ok tt)
    end.

(** [ValidateToken]: the record is read, its [LastUsed] set to the current
    time and [updateTokenLastUsed] starts the goroutine that writes it back. *)
Definition ValidateToken (io : RedisFaults) (now : Z) (tokenHash : string)
  : M TokenStore TokenInfo.t :=
  fun st =>
    match get_err io with
    | Some e => (st, Err (wrap "failed to get token from Redis" e))
    | None =>
        match Redis.get now (key tokenHash) (tokens st) with
        | None => (st, Err "token not found or expired")
        | Some stored =>
            let tokenInfo := TokenInfo.set_last_used now stored in
            (spawn (Spawned tokenHash tokenInfo) st, Ok tokenInfo)
        end
    end.

(** One command of the [i]-th goroutine in flight.  A [Spawned] one issues
    [TTL] (a failed command reads as 0) and goes on only with a positive
    answer; an [Armed] one issues its [SET] and ends. *)
Definition refresh_step (io : RedisFaults) (now : Z) (i : nat) (st : TokenStore)
  : TokenStore :=
  match pending st !! i with
  | None => st
  | Some (Spawned tokenHash tokenInfo) =>
      let ttl := match ttl_err io with
                 | Some _ => 0
                 | None => Redis.ttl now (key tokenHash) (tokens st)
                 end in
      mkTokenStore (tokens st) (user_tokens st)
                   (if 0 <? ttl
                    then <[i := Armed tokenHash tokenInfo ttl]> (pending st)
                    else delete i (pending st))
  | Some (Armed tokenHash tokenInfo ttl) =>
      mkTokenStore
        (match set_err io with
         | Some _ => tokens st
         | None => Redis.set now (key tokenHash) tokenInfo ttl (tokens st)
         end)
        (user_tokens st) (delete i (pending st))
  end.

(** [RevokeToken]: the record is looked up to find the user, the hash is
    taken out of the user's set, and the key is deleted. *)
Definition RevokeToken (io : RedisFaults) (now : Z) (tokenHash : string)
  : M TokenStore unit :=
  fun st =>
    let st1 :=
      match ValidateToken io now tokenHash st with
      | (st', Ok tokenInfo) =>
          unless (srem_err io)
                 (with_user_tokens
                    (Redis.srem now (userKey (TokenInfo.UserID tokenInfo)) tokenHash))
                 st'
      | (st', Err _) => st'
      end in
    match del_err io with
    | Some e => (st1, Err (wrap "failed to revoke token" e))
    | None => (with_tokens (Redis.del (key tokenHash)) st1, Ok tt)
    end.

(** [RevokeAllUserTokens]: the deletions are queued in a pipeline; a
    pipeline that fails is taken to have deleted nothing. *)
Definition RevokeAllUserTokens (io : RedisFaults) (now : Z) (userID : Z)
  : M TokenStore unit :=
  fun st =>
    match smembers_err io with
    | Some e => (st, Err (wrap "failed to get user tokens" e))
    | None =>
        let tokenHashes := Redis.smembers now (userKey userID) (user_tokens st) in
        match pipeline_err io with
        | Some e => (st, Err (wrap "failed to revoke all user tokens" e))
        | None =>
            let st1 :=
              with_tokens
                (fun m => foldr (fun h => Redis.del (key h)) m tokenHashes) st in
            (with_user_tokens (delete (userKey userID)) st1, Ok tt)
        end
    end.

End TokenService.

(** ** service: the JWT service *)

Module JWTClaims.
Record t : Type := mk {
  UserID : Z;
  PhoneNumber : string;
  ExpiresAt : Z;
  IssuedAt : Z;
  NotBefore : Z;
  Issuer : string;
  Subject : string
}.
End JWTClaims.

Module UserResponse.
Record t : Type := mk {
  ID : Z;
  PhoneNumber : string;
  RegisteredAt : Z;
  LastLoginAt : option Z;
  IsActive : bool
}.
End UserResponse.

Module AuthResponse.
Record t : Type := mk {
  Token : string;
  User : UserResponse.t;
  ExpiresAt : Z;
  Message : string
}.
End AuthResponse.

(** What one [GenerateToken] call takes from its environment: the readings
    of its five [time.Now()] calls, in program order, and the failures of
    the Redis commands of [StoreToken], which run at the last reading. *)
Record GenEnv : Type := mkGenEnv {
  now_expires : Z;
  now_issued : Z;
  now_not_before : Z;
  now_info_issued : Z;
  now_last_used : Z;
  store_io : RedisFaults
}.

Module JWTService.
Section Service.
Variable cfg : Config.

(** Whether the [tokenService] pointer is set; [NewJWTService] stores the
    pointer it is given. *)
Variable tokenService : bool.

(** The JWT library and SHA-256, which the service calls and does not
    define: HS256 signing of the claims with the secret; parsing a token
    at an instant, which checks the signing method, the signature and
    the expiry and not-before claims; the hexadecimal SHA-256 digest. *)
Variable SignedString : JWTClaims.t -> string -> result string.
Variable ParseWithClaims : string -> string -> Z -> result JWTClaims.t.
Variable sha256_hex : string -> string.

(** [jwt.NewNumericDate] truncates to the second. *)
Definition NewNumericDate (t : Z) : Z := t / Time.Second * Time.Second.

Definition hashToken (token : string) : string := sha256_hex token.

(** The claims [GenerateToken] signs. *)
Definition claims_of (env : GenEnv) (user : User.t) : JWTClaims.t :=
  JWTClaims.mk (User.ID user) (User.PhoneNumber user)
               (NewNumericDate (Time.Add (now_expires env) (JWT_ExpirationTime cfg)))
               (NewNumericDate (now_issued env))
               (NewNumericDate (now_not_before env))
               "otp-auth-service"
               ("user:" ++ Fmt.int_text (User.ID user))%string.

Definition GenerateToken (env : GenEnv) (user : User.t) : M TokenStore AuthResponse.t :=
  fun st =>
    let expiresAt := Time.Add (now_expires env) (JWT_ExpirationTime cfg) in
    let claims := claims_of env user in
    match SignedString claims (JWT_Secret cfg) with
    | Err e => (st, Err (wrap "failed to generate token" e))
    | Ok tokenString =>
        let st' :=
          if tokenService
          then
            let tokenHash := hashToken tokenString in
            let tokenInfo :=
              TokenInfo.mk (User.ID user) tokenHash (now_info_issued env)
                           expiresAt (now_last_used env) in
            (* a failed write is logged and the error dropped *)
            fst (TokenService.StoreToken (store_io env) (now_last_used env)
                                         tokenHash tokenInfo
                                         (JWT_ExpirationTime cfg) st)
          else st in
        (st', Ok (AuthResponse.mk
                    tokenString
                    (UserResponse.mk (User.ID user) (User.PhoneNumber user)
                                     (User.RegisteredAt user)
                                     (User.LastLoginAt user) (User.IsActive user))
                    expiresAt "Authentication successful"))
    end.

(** [ValidateToken].  A token the library parses without error has its
    [Valid] flag set, so the test of that flag never fails. *)
Definition ValidateToken (io : RedisFaults) (now : Z) (tokenString : string)
  : M TokenStore JWTClaims.t :=
  fun st =>
    match ParseWithClaims tokenString (JWT_Secret cfg) now with
    | Err e => (st, Err (wrap "invalid token" e))
    | Ok claims =>
        if tokenService
        then
          match TokenService.ValidateToken io now (hashToken tokenString) st with
          | (st', Err _) => (st', Err "token session expired")
          | (st', Ok _) => (st', Ok claims)
          end
        else (st, Ok claims)
    end.

Definition RevokeToken (io : RedisFaults) (now : Z) (tokenString : string)
  : M TokenStore unit :=
  if tokenService
  then TokenService.RevokeToken io now (hashToken tokenString)
  else fail "token service not available".

Definition RevokeAllUserTokens (io : RedisFaults) (now : Z) (userID : Z)
  : M TokenStore unit :=
  if tokenService
  then TokenService.RevokeAllUserTokens io now userID
  else fail "token service not available".

End Service.
End JWTService.

(** ** controller: the verify endpoint *)

(** What the handler writes with [ctx.JSON]: a status with an error object,
    or 200 with the authentication response. *)
Inductive Response : Type :=
| JSONError (status : Z) (error details : string)
| JSONAuth (status : Z) (body : AuthResponse.t).

Definition status_of (r : Response) : Z :=
  match r with
  | JSONError status _ _ => status
  | JSONAuth status _ => status
  end.

Definition StatusOK : Z := 200.
Definition StatusBadRequest : Z := 400.
Definition StatusUnauthorized : Z := 401.
Definition StatusInternalServerError : Z := 500.

(** What one request to the verify endpoint takes from its environment. *)
Record VerifyEnv : Type := mkVerifyEnv {
  verify_now : Z;
  verify_io : SqlFaults;
  verify_gen : GenEnv
}.

Module OTPController.
Import StructValidator.

Section Controller.
Variable cfg : Config.
Variable tokenService : bool.
Variable SignedString : JWTClaims.t -> string -> result string.
Variable sha256_hex : string -> string.

(** The answer of [VerifyOTP] to an error of the service: 401 for the
    text [invalid or expired OTP], 500 for any other. *)
Definition verify_failure (e : string) : Response :=
  if String.eqb e "invalid or expired OTP"
  then JSONError StatusUnauthorized "Invalid or expired OTP"
                 "Please request a new OTP"
  else JSONError StatusInternalServerError "Failed to verify OTP"
                 "Internal server error".

(** [VerifyOTP], for a request whose body has been bound to [req]. *)
Definition VerifyOTP (env : VerifyEnv) (req : VerifyOTPRequest)
  : World -> World * Response :=
  fun w =>
    match ValidateStruct_VerifyOTPRequest req with
    | Some details => (w, JSONError StatusBadRequest "Validation failed" details)
    | None =>
        match on_db (OTPService.VerifyOTP (verify_io env) (verify_now env)
                                          (Token req) (Code req)) w with
        | (w1, Err e) => (w1, verify_failure e)
        | (w1, Ok user) =>
            match on_sessions
                    (JWTService.GenerateToken cfg tokenService SignedString
                                              sha256_hex (verify_gen env) user) w1 with
            | (w2, Err _) =>
                (w2, JSONError StatusInternalServerError
                               "Failed to generate authentication token"
                               "Internal server error")
            | (w2, Ok authResponse) => (w2, JSONAuth StatusOK authResponse)
            end
        end
    end.

End Controller.
End OTPController.

(** ** Vocabulary of the statements about challenges *)

Module Challenge.

(** The [UNIQUE] constraint on [session_token]. *)
Definition unique_tokens (d : DB) : Prop :=
  List.NoDup (map OTP.SessionToken (otps d)).

(** No row under the handle is left to verify. *)
Definition consumed (sessionToken : string) (d : DB) : Prop :=
  forall o, In o (otps d) -> OTP.SessionToken o = sessionToken -> OTP.IsUsed o = true.

(** No deactivated account holds the phone number. *)
Definition no_inactive_user (phoneNumber : string) (d : DB) : Prop :=
  forall u, In u (users d) -> User.PhoneNumber u = phoneNumber -> User.IsActive u = true.

(** The calls that reach the relational store after a verification. *)
Inductive Call : Type :=
| CallCreate (io : SqlFaults) (now : Z) (otp : OTP.t)
| CallVerifyOTP (io : SqlFaults) (now : Z) (sessionToken code : string)
| CallMarkAsUsed (io : SqlFaults) (now : Z) (id : Z)
| CallDeleteExpired (io : SqlFaults) (now : Z).

Definition run (c : Call) (d : DB) : DB :=
  match c with
  | CallCreate io now otp => fst (OTPRepository.Create io now otp d)
  | CallVerifyOTP io now sessionToken code =>
      fst (OTPService.VerifyOTP io now sessionToken code d)
  | CallMarkAsUsed io now id => fst (OTPRepository.MarkAsUsed io now id d)
  | CallDeleteExpired io now => fst (OTPRepository.DeleteExpired io now d)
  end.

Definition run_all (calls : list Call) (d : DB) : DB :=
  fold_left (fun d c => run c d) calls d.

(** A later issuance that draws the very same random handle again. *)
Definition reissues (sessionToken : string) (c : Call) : bool :=
  match c with
  | CallCreate _ _ otp => String.eqb (OTP.SessionToken otp) sessionToken
  | _ => false
  end.

End Challenge.

(** ** Vocabulary of the statements about the rate limiter *)

Module Limiter.

(** The Redis commands of the send are executed. *)
Definition healthy (env : SendEnv) : Prop :=
  get_err (check_io env) = None /\ get_err (update_io env) = None
  /\ set_err (update_io env) = None.

(** The reads of [crypto/rand] succeed and the insert is executed. *)
Definition issues (env : SendEnv) : Prop :=
  is_ok (rand_int env) = true /\ is_ok (rand_bytes env) = true
  /\ otp_insert_err (sql_io env) = None.

(** The session handle the send draws. *)
Definition handle (env : SendEnv) : string :=
  match rand_bytes env with
  | Ok bytes => Fmt.hex bytes
  | Err _ => EmptyString
  end.

(** The clock of one send does not run backwards. *)
Definition monotone (env : SendEnv) : Prop :=
  t_check env <= t_update env <= t_store env.

(** Every clock reading of the send lies before [limit]. *)
Definition before (limit : Z) (env : SendEnv) : Prop :=
  t_check env < limit /\ t_update env < limit /\ t_store env < limit.

(** The record stored for a phone number, if the key is there. *)
Definition stored (phoneNumber : string) (w : World) : option RateLimitInfo.t :=
  option_map fst (rate w !! RedisRateLimitRepository.key phoneNumber).

(** The session handles in the [otps] table. *)
Definition tokens_of (w : World) : list string :=
  map OTP.SessionToken (otps (db w)).

(** The record [GetRateLimit] answers with when the command is executed. *)
Definition seen (now : Z) (phoneNumber : string) (st : RateStore) : RateLimitInfo.t :=
  match RedisRateLimitRepository.redis_get now phoneNumber st with
  | None => RateLimitInfo.mk phoneNumber 0 Time.zero Time.zero
  | Some info => info
  end.

Section Runs.
Variable cfg : Config.
Variable Duration_String : Z -> string.

(** The key of the phone number holds a window that started at [start] with
    [count] requests so far, and Redis keeps it until the window ends. *)
Definition open_window (phoneNumber : string) (count start : Z) (st : RateStore)
  : Prop :=
  exists last expiration,
    st !! RedisRateLimitRepository.key phoneNumber
    = Some (RateLimitInfo.mk phoneNumber count last start, expiration)
    /\ forall e, expiration = Some e -> start + RateLimit_WindowDuration cfg <= e.

(** Sends for one phone number, one after the other. *)
Fixpoint send_all (envs : list SendEnv) (phoneNumber : string) (w : World)
  : World * list (result OTPResponse.t) :=
  match envs with
  | [] => (w, [])
  | env :: rest =>
      let '(w1, r) := OTPService.SendOTP cfg Duration_String env phoneNumber w in
      let '(w2, rs) := send_all rest phoneNumber w1 in
      (w2, r :: rs)
  end.

End Runs.
End Limiter.

(** ** Vocabulary of the statements about sessions *)

Module Session.



(** What reaches the session store after a revocation: calls of the token
    service and commands of the goroutines in flight. *)
Inductive Step : Type :=
| StepStoreToken (io : RedisFaults) (now : Z) (tokenHash : string)
                 (tokenInfo : TokenInfo.t) (expiration : Z)
| StepValidateToken (io : RedisFaults) (now : Z) (tokenHash : string)
| StepRevokeToken (io : RedisFaults) (now : Z) (tokenHash : string)
| StepRevokeAllUserTokens (io : RedisFaults) (now : Z) (userID : Z)
| StepRefresh (io : RedisFaults) (now : Z) (i : nat).

Definition run (s : Step) (st : TokenStore) : TokenStore :=
  match s with
  | StepStoreToken io now tokenHash tokenInfo expiration =>
      fst (TokenService.StoreToken io now tokenHash tokenInfo expiration st)
  | StepValidateToken io now tokenHash =>
      fst (TokenService.ValidateToken io now tokenHash st)
  | StepRevokeToken io now tokenHash =>
      fst (TokenService.RevokeToken io now tokenHash st)
  | StepRevokeAllUserTokens io now userID =>
      fst (TokenService.RevokeAllUserTokens io now userID st)
  | StepRefresh io now i => TokenService.refresh_step io now i st
  end.

Definition run_all (steps : list Step) (st : TokenStore) : TokenStore :=
  fold_left (fun st s => run s st) steps st.


End Session.

(** ** Sample stores and requests, used to exercise the statements *)

Module Sample.

Definition phone : string := "+1234567890".

(** A challenge issued at instant 0 that expires at instant 1000. *)
Definition challenge : OTP.t :=
  OTP.mk 1 phone "123456" "5e55104a" 1000 false 0 None.

Definition fresh_db : DB := mkDB [challenge] 2 [] 1.

Definition new_user (now : Z) : User.t := User.mk 1 phone now (Some now) true.

(** The store after a successful verification at instant [now]. *)
Definition verified_db (now : Z) : DB :=
  mkDB [OTP.set_used now challenge] 2 [new_user now] 2.

(** The phone number is held by a deactivated account. *)
Definition deactivated : User.t := User.mk 1 phone 0 (Some 0) false.
Definition db_with_deactivated : DB := mkDB [challenge] 2 [deactivated] 2.

(** Empty stores. *)
Definition empty_world : World :=
  mkWorld (mkDB [] 1 [] 1) ∅ (mkTokenStore ∅ ∅ []).

(** A send whose first clock reading is [t], with later readings one, two
    and three seconds after it, that draws the random byte [b] and finds
    every store at work. *)
Definition send_at (t : Z) (b : ascii) : SendEnv :=
  mkSendEnv t no_redis_faults (Ok 123456) (Ok [b])
            (t + Time.Second) no_sql_faults
            (t + 2 * Time.Second) (t + 3 * Time.Second) no_redis_faults.

(** The same send when the [SET] of the rate-limit update fails. *)
Definition send_unmetered (t : Z) (b : ascii) : SendEnv :=
  mkSendEnv t no_redis_faults (Ok 123456) (Ok [b])
            (t + Time.Second) no_sql_faults
            (t + 2 * Time.Second) (t + 3 * Time.Second)
            (mkRedisFaults None (Some "connection refused") None None None None
                           None None None).

(** The same send when the [GET] of the rate-limit check fails. *)
Definition send_unchecked (t : Z) (b : ascii) : SendEnv :=
  mkSendEnv t
            (mkRedisFaults (Some "connection refused") None None None None None
                           None None None)
            (Ok 123456) (Ok [b])
            (t + Time.Second) no_sql_faults
            (t + 2 * Time.Second) (t + 3 * Time.Second) no_redis_faults.

Definition Duration_String (d : Z) : string :=
  if d =? 10 * Time.Minute then "10m0s" else "?".

(** Stand-ins for the JWT library and SHA-256: a token is the text [jwt-]
    followed by the user id, it parses while its expiry lies ahead, and it
    is its own digest. *)
Definition sign (claims : JWTClaims.t) (secret : string) : result string :=
  Ok ("jwt-" ++ Fmt.int_text (JWTClaims.UserID claims))%string.

Definition token_claims : JWTClaims.t :=
  JWTClaims.mk 1 phone (1000 * Time.Second) 0 0 "otp-auth-service" "user:1".

Definition parse (token secret : string) (now : Z) : result JWTClaims.t :=
  if String.eqb token "jwt-1" && (now <? JWTClaims.ExpiresAt token_claims)
  then Ok token_claims
  else Err "token is malformed or expired".

Definition digest (token : string) : string := token.

Definition session (last_used : Z) : TokenInfo.t :=
  TokenInfo.mk 1 "jwt-1" 0 (1000 * Time.Second) last_used.

(** A session store holding the record of the token [jwt-1]. *)
Definition logged_in : TokenStore :=
  mkTokenStore {[ TokenService.key "jwt-1" := (session 0, Some (1000 * Time.Second)) ]}
               {[ TokenService.userKey 1 := ({[ "jwt-1" ]}, None) ]} [].

(** The default configuration with another code length. *)
Definition config_with_length (length : Z) : Config :=
  mkConfig (JWT_Secret default_config) (JWT_ExpirationTime default_config)
           length (OTP_ExpirationTime default_config)
           (RateLimit_MaxRequests default_config)
           (RateLimit_WindowDuration default_config).

(** A request to the verify endpoint at instant 10 with every store at work. *)
Definition verify_env : VerifyEnv :=
  mkVerifyEnv 10 no_sql_faults (mkGenEnv 10 10 10 10 10 no_redis_faults).

(** The stores after a send under a configured length of -6, which drew
    the only number below [maxValue = 1]. *)
Definition padded_code : string := "0     ".

Definition padded_world : World :=
  mkWorld (mkDB [OTP.mk 1 phone padded_code "5e55104a" 1000 false 0 None] 2 [] 1)
          ∅ (mkTokenStore ∅ ∅ []).

(** A token issuance during which Redis refuses the write. *)
Definition login_without_redis : GenEnv :=
  mkGenEnv 0 0 0 0 0
           (mkRedisFaults None (Some "connection refused") None None None None
                          None None None).

End Sample.

(** * The rest of the service: endpoints, cleanup, configuration, migrations *)

(** ** strconv and strings: the library functions the handlers call *)

Module Strconv.

Definition is_digit (c : ascii) : bool :=
  ((48 <=? N_of_ascii c) && (N_of_ascii c <=? 57))%N.

(** The loop [n = n*10 + int(ch - '0')] over a run of decimal digits;
    [None] at the first byte that is not a digit. *)
Fixpoint digits_value (s : string) (n : Z) : option Z :=
  match s with
  | EmptyString => Some n
  | String ch rest =>
      if is_digit ch
      then digits_value rest (n * 10 + (Z.of_N (N_of_ascii ch) - 48))
      else None
  end.

(** [strconv.Atoi] where [int] has 64 bits: an optional sign, then one or
    more decimal digits, and a value within the range of [int]; [None]
    stands for a returned error (syntax or range). *)
Definition Atoi (s : string) : option Z :=
  match s with
  | EmptyString => None
  | String c rest =>
      let '(negative, digits) :=
        if Ascii.eqb c "-" then (true, rest)
        else if Ascii.eqb c "+" then (false, rest)
        else (false, s) in
      match digits with
      | EmptyString => None
      | String _ _ =>
          match digits_value digits 0 with
          | None => None
          | Some n =>
              let v := if negative : bool then - n else n in
              if (- 2 ^ 63 <=? v) && (v <=? 2 ^ 63 - 1) then Some v else None
          end
      end
  end.

End Strconv.

Module Strings.

(** [strings.HasPrefix(s, prefix)] *)
Definition HasPrefix (s prefix : string) : bool := String.prefix prefix s.

(** [strings.Contains(s, substr)] *)
Fixpoint Contains (s substr : string) : bool :=
  String.prefix substr s
  || match s with
     | EmptyString => false
     | String _ rest => Contains rest substr
     end.

(** The slice [s[n:]]; the handlers take it only where [n <= len(s)]. *)
Fixpoint from (n : nat) (s : string) : string :=
  match n, s with
  | O, _ => s
  | S n', String _ rest => from n' rest
  | S _, EmptyString => EmptyString
  end.

(** [strings.HasSuffix(s, suffix)] *)
Definition HasSuffix (s suffix : string) : bool :=
  (String.length suffix <=? String.length s)%nat
  && String.eqb (String.substring (String.length s - String.length suffix)
                                  (String.length suffix) s) suffix.

(** [strings.TrimSuffix(s, suffix)] *)
Definition TrimSuffix (s suffix : string) : string :=
  if HasSuffix s suffix
  then String.substring 0 (String.length s - String.length suffix) s
  else s.

(** [sort.Strings]: increasing byte-wise order. *)
Fixpoint insert_sorted (s : string) (l : list string) : list string :=
  match l with
  | [] => [s]
  | x :: rest => if String.leb s x then s :: l else x :: insert_sorted s rest
  end.

Definition sort_Strings (l : list string) : list string :=
  foldr insert_sorted [] l.

(** The bytes [0-9a-f]. *)
Definition is_lower_hex (c : ascii) : bool :=
  Strconv.is_digit c || ((97 <=? N_of_ascii c) && (N_of_ascii c <=? 102))%N.

Fixpoint all_lower_hex (s : string) : bool :=
  match s with
  | EmptyString => true
  | String c rest => is_lower_hex c && all_lower_hex rest
  end.

End Strings.

(** ** controller: the send endpoint *)

Definition StatusNoContent : Z := 204.
Definition StatusNotFound : Z := 404.
Definition StatusTooManyRequests : Z := 429.

(** What the send handler writes with [ctx.JSON]. *)
Inductive SendResponse : Type :=
| SendError (status : Z) (error details : string)
| SendOK (status : Z) (body : OTPResponse.t).

Definition send_status (r : SendResponse) : Z :=
  match r with
  | SendError status _ _ => status
  | SendOK status _ => status
  end.

Module OTPSendController.
Import StructValidator.

Section Controller.
Variable cfg : Config.
Variable Duration_String : Z -> string.

(** The answer of [SendOTP] to an error of the service: 429 when its text
    contains [rate limit exceeded], 500 otherwise. *)
Definition send_failure (e : string) : SendResponse :=
  if Strings.Contains e "rate limit exceeded"
  then SendError StatusTooManyRequests "Rate limit exceeded"
         "Maximum 3 OTP requests per phone number within 10 minutes. Please try again later."
  else SendError StatusInternalServerError "Failed to send OTP"
         "Internal server error".

(** [SendOTP], for a request whose body has been bound to [req]. *)
Definition SendOTP (env : SendEnv) (req : SendOTPRequest)
  : World -> World * SendResponse :=
  fun w =>
    match ValidateStruct_SendOTPRequest req with
    | Some details => (w, SendError StatusBadRequest "Validation failed" details)
    | None =>
        match OTPService.SendOTP cfg Duration_String env (send_PhoneNumber req) w with
        | (w1, Err e) => (w1, send_failure e)
        | (w1, Ok response) => (w1, SendOK StatusOK response)
        end
    end.

End Controller.
End OTPSendController.

(** ** repository, service and controller of the user endpoints *)

Module UserReads.

(** [WHERE id = $1 AND is_active = TRUE] *)
Definition active_with_id (id : Z) (u : User.t) : bool :=
  (User.ID u =? id) && User.IsActive u.

(** [userRepository.GetByID]; no row is [(nil, nil)]. *)
Definition GetByID (io : SqlFaults) (id : Z) : M DB (option User.t) :=
  fun db =>
    match user_select_err io with
    | Some e => (db, Err (wrap "failed to get user by id" e))
    | None => (db, Ok (List.find (active_with_id id) (users db)))
    end.

End UserReads.

Module UserService.

Definition toUserResponse (user : User.t) : UserResponse.t :=
  UserResponse.mk (User.ID user) (User.PhoneNumber user) (User.RegisteredAt user)
                  (User.LastLoginAt user) (User.IsActive user).

Definition GetByID (io : SqlFaults) (id : Z) : M DB UserResponse.t :=
  user <- or_wrap "failed to get user" (UserReads.GetByID io id) ;;
  match user with
  | None => fail "user not found"
  | Some user => ret (toUserResponse user)
  end.

End UserService.

Inductive UserReply : Type :=
| UserError (status : Z) (error details : string)
| UserFound (status : Z) (body : UserResponse.t).

Module UserController.

(** [GetUser]; [idParam] is the path parameter [id]. *)
Definition GetUser (io : SqlFaults) (idParam : string) : DB -> DB * UserReply :=
  fun db =>
    match Strconv.Atoi idParam with
    | None => (db, UserError StatusBadRequest "Invalid user ID"
                             "User ID must be a valid integer")
    | Some userID =>
        match UserService.GetByID io userID db with
        | (db1, Err e) =>
            if String.eqb e "user not found"
            then (db1, UserError StatusNotFound "User not found"
                                 "The requested user does not exist")
            else (db1, UserError StatusInternalServerError "Failed to retrieve user"
                                 "Internal server error")
        | (db1, Ok user) => (db1, UserFound StatusOK user)
        end
    end.

End UserController.

(** ** handler: the authentication middleware *)

(** What the middleware and the logout handler read of a request. *)
Record Request : Type := mkRequest {
  Path : string;            (* c.Request().URL.Path *)
  Authorization : string    (* the header, empty when it is missing *)
}.

(** The middleware hands the request on, with the user it stored in the
    context if it authenticated one, or answers it. *)
Inductive Passage : Type :=
| Next (user : option User.t)
| Rejected (status : Z) (error details : string).

Module Middleware.

Section Handler.
Variable cfg : Config.
Variable tokenService : bool.
Variable ParseWithClaims : string -> string -> Z -> result JWTClaims.t.
Variable sha256_hex : string -> string.

(** [jwtService.GetUserFromToken].  The token is one [ValidateToken]
    returned, whose claims were parsed into [&JWTClaims{}], so the type
    assertion on them holds. *)
Definition GetUserFromToken (claims : JWTClaims.t) : result User.t :=
  Ok (User.mk (JWTClaims.UserID claims) (JWTClaims.PhoneNumber claims)
              Time.zero None true).

(** The paths the middleware lets through without authentication. *)
Definition public_path (path : string) : bool :=
  Strings.HasPrefix path "/api/v1/otp/"
  || Strings.HasPrefix path "/swagger"
  || Strings.HasPrefix path "/docs"
  || String.eqb path "/"
  || String.eqb path "/health".

Definition JWTMiddleware (io : RedisFaults) (now : Z) (req : Request)
  : TokenStore -> TokenStore * Passage :=
  fun st =>
    if public_path (Path req) then (st, Next None)
    else if String.eqb (Authorization req) ""
    then (st, Rejected StatusUnauthorized "Unauthorized" "Missing Authorization header")
    else if negb (Strings.HasPrefix (Authorization req) "Bearer ")
    then (st, Rejected StatusUnauthorized "Unauthorized"
                       "Invalid Authorization header format")
    else
      let tokenString := Strings.from 7 (Authorization req) in
      match JWTService.ValidateToken cfg tokenService ParseWithClaims sha256_hex
                                     io now tokenString st with
      | (st1, Err _) =>
          (st1, Rejected StatusUnauthorized "Unauthorized" "Invalid or expired token")
      | (st1, Ok token) =>
          match GetUserFromToken token with
          | Err _ =>
              (st1, Rejected StatusUnauthorized "Unauthorized" "Invalid token claims")
          | Ok user => (st1, Next (Some user))
          end
      end.

End Handler.
End Middleware.

(** ** controller: logout *)



Module AuthController.

Section Controller.
Variable cfg : Config.
Variable tokenService : bool.
Variable ParseWithClaims : string -> string -> Z -> result JWTClaims.t.
Variable sha256_hex : string -> string.


End Controller.
End AuthController.

(** ** Vocabulary of the statements about rate-limit records *)

Module RateRecords.

(** Every record sits under the key of the phone number it names, as every
    record written by [UpdateRateLimit] does. *)
Definition well_keyed (st : RateStore) : Prop :=
  forall k info expiration,
    st !! k = Some (info, expiration) ->
    k = RedisRateLimitRepository.key (RateLimitInfo.PhoneNumber info).

(** Every record has an expiration. *)
Definition all_expiring (st : RateStore) : Prop :=
  forall k info, st !! k <> Some (info, None).

End RateRecords.

(** ** repository and service: the periodic cleanup *)

Module RateLimitCleanup.

(** [EXPIRE key ttl] on a key of the rate-limit family: a time to live that
    is not positive deletes the key. *)
Definition expire (now : Z) (key : string) (ttl : Z) (st : RateStore) : RateStore :=
  match Redis.live now key st with
  | Some (info, _) =>
      if 0 <? ttl then <[key := (info, Some (now + ttl))]> st else delete key st
  | None => st
  end.

(** [KEYS rate_limit:*]: the keys Redis holds at [now] that begin with
    [rate_limit:]. *)
Definition Keys (now : Z) (st : RateStore) : list string :=
  List.filter
    (fun key =>
       Strings.HasPrefix key "rate_limit:"
       && match Redis.live now key st with Some _ => true | None => false end)
    (map fst (map_to_list st)).

(** The body of the loop for one key: a key without expiration ([TTL]
    answers -1) is given the window as time to live; a failing command is
    logged and the key left as it is. *)
Definition repair (cfg : Config) (ttl_fails expire_fails : string -> bool)
    (now : Z) (st : RateStore) (key : string) : RateStore :=
  if ttl_fails key then st
  else if Redis.ttl now key st =? -1
       then if expire_fails key then st
            else expire now key (RateLimit_WindowDuration cfg) st
       else st.

(** [RedisRateLimitRepository.CleanupRateLimits]; its argument [olderThan]
    is not used. *)
Definition CleanupRateLimits (cfg : Config) (keys_err : option string)
    (ttl_fails expire_fails : string -> bool) (now : Z) : M RateStore unit :=
  fun st =>
    match keys_err with
    | Some e => (st, Err (wrap "failed to get rate limit keys" e))
    | None =>
        (fold_left (repair cfg ttl_fails expire_fails now) (Keys now st) st, Ok tt)
    end.

(** [otpService.CleanupExpiredOTPs] *)
Definition CleanupExpiredOTPs (cfg : Config) (io : SqlFaults) (now : Z)
    (keys_err : option string) (ttl_fails expire_fails : string -> bool)
    (now_redis : Z) : M World unit :=
  _ <- or_wrap "failed to delete expired OTPs"
         (on_db (OTPRepository.DeleteExpired io now)) ;;
  or_wrap "failed to cleanup rate limits"
          (on_rate (CleanupRateLimits cfg keys_err ttl_fails expire_fails now_redis)).

End RateLimitCleanup.

(** ** service: listing the sessions of a user *)

Module TokenListing.
Import TokenService.

(** The loop of [GetUserActiveTokens]: each digest is validated, at its own
    clock reading and with its own Redis outcome; a record that validates
    is appended, a failure is skipped. *)
Fixpoint collect (io_of : string -> RedisFaults) (now_of : string -> Z)
    (tokenHashes : list string) (st : TokenStore) (tokens : list TokenInfo.t)
  : TokenStore * list TokenInfo.t :=
  match tokenHashes with
  | [] => (st, tokens)
  | tokenHash :: rest =>
      match ValidateToken (io_of tokenHash) (now_of tokenHash) tokenHash st with
      | (st1, Ok tokenInfo) => collect io_of now_of rest st1 (tokens ++ [tokenInfo])
      | (st1, Err _) => collect io_of now_of rest st1 tokens
      end
  end.

Definition GetUserActiveTokens (io : RedisFaults) (io_of : string -> RedisFaults)
    (now_of : string -> Z) (now : Z) (userID : Z)
  : M TokenStore (list TokenInfo.t) :=
  fun st =>
    match smembers_err io with
    | Some e => (st, Err (wrap "failed to get user tokens" e))
    | None =>
        let tokenHashes := Redis.smembers now (userKey userID) (user_tokens st) in
        let '(st1, tokens) := collect io_of now_of tokenHashes st [] in
        (st1, Ok tokens)
    end.

End TokenListing.

(** ** Vocabulary of the statements about the sessions of a user *)

Module Logins.
Import TokenService Session.

(** The set is kept at least as long as the record. *)
Definition outlives (record set : option Z) : Prop :=
  match record, set with
  | _, None => True
  | Some x, Some y => x <= y
  | None, Some _ => False
  end.

(** At instant [t]: every record expires, and no later than [expiration]
    from [t]; and every record Redis still holds is a member of the set of
    its user, which Redis keeps at least as long. *)
Definition listed (expiration t : Z) (st : TokenStore) : Prop :=
  forall h info e,
    tokens st !! key h = Some (info, e) ->
    exists x,
      e = Some x /\ x <= t + expiration
      /\ (t < x ->
          exists members es,
            user_tokens st !! userKey (TokenInfo.UserID info) = Some (members, es)
            /\ h ∈ members /\ outlives e es).




End Logins.

(** ** config: reading the environment *)

Module ConfigLoad.
Section Environment.

(** [os.Getenv], which answers the empty string for a variable that is not
    set, and [time.ParseDuration] ([None] for a returned error). *)
Variable Getenv : string -> string.
Variable ParseDuration : string -> option Z.

Definition getEnvWithDefault (key defaultValue : string) : string :=
  let value := Getenv key in
  if negb (String.eqb value "") then value else defaultValue.

Definition parseIntWithDefault (key : string) (defaultValue : Z) : Z :=
  let value := Getenv key in
  if negb (String.eqb value "")
  then match Strconv.Atoi value with
       | Some parsed => parsed
       | None => defaultValue
       end
  else defaultValue.

Definition parseDurationWithDefault (key : string) (defaultValue : Z) : Z :=
  let value := Getenv key in
  if negb (String.eqb value "")
  then match ParseDuration value with
       | Some parsed => parsed
       | None => defaultValue
       end
  else defaultValue.

(** The fields of [Load] the services read. *)
Definition Load : Config :=
  mkConfig
    (getEnvWithDefault "JWT_SECRET" "your-super-secret-key-change-in-production")
    (parseDurationWithDefault "JWT_EXPIRATION_TIME" (24 * 60 * Time.Minute))
    (parseIntWithDefault "OTP_LENGTH" 6)
    (parseDurationWithDefault "OTP_EXPIRATION_TIME" (2 * Time.Minute))
    (parseIntWithDefault "RATE_LIMIT_MAX_REQUESTS" 3)
    (parseDurationWithDefault "RATE_LIMIT_WINDOW_DURATION" (10 * Time.Minute)).

End Environment.
End ConfigLoad.

(** ** migrations *)

(** What one [RunMigrations] call takes from its environment: the names
    [ioutil.ReadDir] lists, the content [ioutil.ReadFile] reads of a file,
    and the failures of the statements on [schema_migrations]. *)
Record MigrationEnv : Type := mkMigrationEnv {
  create_table_err : option string;
  ReadDir : result (list string);
  status_err : string -> option string;     (* the count of a version *)
  ReadFile : string -> result string;
  record_err : string -> option string       (* the insert of a version *)
}.

Module Migrations.
Section Run.

(** The database apart from [schema_migrations], and [db.Exec] of the
    content of one migration file on it: the statements of one call run in
    one implicit transaction, so a failure changes nothing. *)
Variable Schema : Type.
Variable Exec : string -> Schema -> result Schema.

(** [applied] is the [version] column of [schema_migrations]; a table that
    does not exist yet is created empty by the first statement. *)
Record State : Type := mkState {
  applied : list string;
  schema : Schema
}.

Definition count (version : string) (st : State) : nat :=
  List.length (List.filter (String.eqb version) (applied st)).

(** The loop over the sorted migration files.  The insert is reached only
    for a version the table does not hold, so the primary key is never
    violated. *)
Fixpoint apply_all (env : MigrationEnv) (upFiles : list string) : M State unit :=
  match upFiles with
  | [] => ret tt
  | filename :: rest =>
      fun st =>
        let version := Strings.TrimSuffix filename ".up.sql" in
        match status_err env version with
        | Some e => (st, Err (wrap "failed to check migration status" e))
        | None =>
            if (0 <? count version st)%nat then apply_all env rest st
            else
              match ReadFile env filename with
              | Err e =>
                  (st, Err (wrap ("failed to read migration file " ++ filename) e))
              | Ok content =>
                  match Exec content (schema st) with
                  | Err e =>
                      (st, Err (wrap ("failed to execute migration " ++ filename) e))
                  | Ok migrated =>
                      match record_err env version with
                      | Some e =>
                          (mkState (applied st) migrated,
                           Err (wrap ("failed to record migration " ++ filename) e))
                      | None =>
                          apply_all env rest
                                    (mkState (applied st ++ [version]) migrated)
                      end
                  end
              end
        end
  end.

Definition upFiles (files : list string) : list string :=
  Strings.sort_Strings
    (List.filter (fun name => Strings.HasSuffix name ".up.sql") files).

Definition RunMigrations (env : MigrationEnv) : M State unit :=
  fun st =>
    match create_table_err env with
    | Some e => (st, Err (wrap "failed to create migrations table" e))
    | None =>
        match ReadDir env with
        | Err e => (st, Err (wrap "failed to read migrations directory" e))
        | Ok files => apply_all env (upFiles files) st
        end
    end.

End Run.
End Migrations.

(** ** Vocabulary of the statements about accounts *)

Module Accounts.

(** The [UNIQUE] constraint on [phone_number], the primary key, and ids
    drawn from a sequence that is ahead of every id in the table. *)
Definition well_formed (d : DB) : Prop :=
  List.NoDup (map User.PhoneNumber (users d))
  /\ List.NoDup (map User.ID (users d))
  /\ forall u, In u (users d) -> User.ID u < user_seq d.

End Accounts.

(** ** Sample stores and requests for the endpoints *)

Module Scenario.

(** The stores when the sample phone number has used up its three requests
    in a window that started at instant 0. *)
Definition limited_world : World :=
  mkWorld (mkDB [] 1 [] 1)
          {[ RedisRateLimitRepository.key Sample.phone
             := (RateLimitInfo.mk Sample.phone 3 0 0, Some (10 * Time.Minute)) ]}
          (mkTokenStore ∅ ∅ []).

(** A request for the profile of user 1 that presents the token [jwt-1]. *)
Definition profile_request : Request :=
  mkRequest "/api/v1/users/1" "Bearer jwt-1".


(** A login at instant 0 with every store at work. *)
Definition login_env : GenEnv := mkGenEnv 0 0 0 0 0 no_redis_faults.

(** An active account that last logged in at instant 5, and a table that
    holds it next to the sample challenge. *)
Definition member : User.t := User.mk 1 Sample.phone 3 (Some 5) true.
Definition db_with_member : DB := mkDB [Sample.challenge] 2 [member] 2.

(** The stores when the sample challenge has been issued. *)
Definition challenged_world : World :=
  mkWorld Sample.fresh_db ∅ (mkTokenStore ∅ ∅ []).

(** A migrations directory, read without failure, and a database that
    keeps the list of the contents it was given to execute. *)
Definition migration_env : MigrationEnv :=
  mkMigrationEnv None
                 (Ok ["005_add_session_token_to_otps.up.sql"; "README.md";
                      "002_create_otps_table.up.sql"])
                 (fun _ => None)
                 (fun name => Ok ("-- " ++ name)%string)
                 (fun _ => None).

Definition execute (content : string) (log : list string) : result (list string) :=
  Ok (log ++ [content])%list.

(** An environment that sets [OTP_LENGTH=-6] and nothing else, and a
    duration parser that is never given text it accepts. *)
Definition environment (key : string) : string :=
  if String.eqb key "OTP_LENGTH" then "-6" else "".

Definition unset (key : string) : string := "".

Definition no_duration (value : string) : option Z := None.

End Scenario.

(** * Properties *)

(** ** The matcher decides the language *)

Section RegexpFacts.
Import Regexp.

Lemma append_nil_inv (s1 s2 : string) :
  (s1 ++ s2)%string = EmptyString -> s1 = EmptyString /\ s2 = EmptyString.
Proof.
  destruct s1; simpl; [auto | discriminate].
Qed.

Lemma append_cons_inv (s1 s2 s : string) (c : ascii) :
  (s1 ++ s2)%string = String c s ->
  (s1 = EmptyString /\ s2 = String c s) \/
  (exists s1', s1 = String c s1' /\ s = (s1' ++ s2)%string).
Proof.
  destruct s1 as [|a s1']; simpl; intros H.
  - left; auto.
  - right. injection H as -> <-. eauto.
Qed.

Lemma nullable_sound (r : re) : nullable r = true -> lang r EmptyString.
Proof.
  induction r; simpl; intros H; try discriminate.
  - constructor.
  - apply andb_true_iff in H as [H1 H2].
    change EmptyString with (EmptyString ++ EmptyString)%string.
    constructor; auto.
  - apply orb_true_iff in H as [H|H]; [apply lang_alt_l | apply lang_alt_r]; auto.
Qed.

Lemma nullable_complete (r : re) (s : string) :
  lang r s -> s = EmptyString -> nullable r = true.
Proof.
  induction 1; simpl; intros E; try discriminate; auto.
  - apply append_nil_inv in E as [-> ->]. rewrite IHlang1, IHlang2; auto.
  - rewrite IHlang; auto.
  - rewrite IHlang; auto using orb_true_r.
Qed.

Lemma deriv_sound (c : ascii) (r : re) :
  forall s, lang (deriv c r) s -> lang r (String c s).
Proof.
  induction r; simpl; intros s H.
  - inversion H.
  - inversion H.
  - destruct (p c) eqn:Hp; inversion H; subst. constructor; auto.
  - destruct (nullable r1) eqn:Hn.
    + inversion H as [| |? ? ? ? ? ?|? ? ? HL|? ? ? HR]; subst.
      * inversion HL; subst.
        change (String c (s1 ++ s2)%string) with (String c s1 ++ s2)%string.
        constructor; auto.
      * change (String c s) with (EmptyString ++ String c s)%string.
        constructor; auto using nullable_sound.
    + inversion H; subst.
      change (String c (s1 ++ s2)%string) with (String c s1 ++ s2)%string.
      constructor; auto.
  - inversion H; subst; [apply lang_alt_l | apply lang_alt_r]; auto.
Qed.

Lemma deriv_complete (r : re) (s0 : string) :
  lang r s0 -> forall c s, s0 = String c s -> lang (deriv c r) s.
Proof.
  induction 1; intros a t E; simpl.
  - discriminate.
  - injection E as -> <-. rewrite H. constructor.
  - apply append_cons_inv in E as [[-> ->] | (s1' & -> & ->)].
    + rewrite (nullable_complete r1 EmptyString) by auto.
      apply lang_alt_r. eauto.
    + destruct (nullable r1).
      * apply lang_alt_l. constructor; eauto.
      * constructor; eauto.
  - apply lang_alt_l; eauto.
  - apply lang_alt_r; eauto.
Qed.

Lemma fullmatch_spec (s : string) :
  forall r, fullmatch r s = true <-> lang r s.
Proof.
  induction s as [|c s IH]; intros r; simpl.
  - split; [apply nullable_sound | intros H; eapply nullable_complete; eauto].
  - rewrite IH. split; [apply deriv_sound | intros H; eapply deriv_complete; eauto].
Qed.

End RegexpFacts.

(** ** Phone-number validator *)

Section ValidatorFacts.
Import Regexp Validator.

Lemma lang_eps_iff (s : string) : lang Eps s <-> s = EmptyString.
Proof.
  split; [inversion 1; auto | intros ->; constructor].
Qed.

Lemma lang_alt_iff (r1 r2 : re) (s : string) :
  lang (Alt r1 r2) s <-> lang r1 s \/ lang r2 s.
Proof.
  split.
  - inversion 1; auto.
  - intros [H|H]; [apply lang_alt_l | apply lang_alt_r]; auto.
Qed.

Lemma lang_class_cat_iff (p : ascii -> bool) (r : re) (s : string) :
  lang (Cat (Class p) r) s <->
  exists c s', s = String c s' /\ p c = true /\ lang r s'.
Proof.
  split.
  - inversion 1 as [| |? ? ? ? H1 H2| |]; subst.
    inversion H1; subst. simpl. eauto.
  - intros (c & s' & -> & Hp & Hr).
    change (String c s') with (String c EmptyString ++ s')%string.
    constructor; [constructor|]; auto.
Qed.

Lemma lang_upto_digit (k : nat) :
  forall s, lang (upto Digit k) s <->
            all_digits s = true /\ (String.length s <= k)%nat.
Proof.
  induction k as [|k IH]; intros s; simpl.
  - rewrite lang_eps_iff. split.
    + intros ->; simpl; auto.
    + intros [_ H]. destruct s; simpl in H; [auto | lia].
  - rewrite lang_alt_iff, lang_eps_iff. unfold Digit at 1.
    rewrite lang_class_cat_iff. split.
    + intros [-> | (c & s' & -> & Hc & Hs)]; simpl; [split; [auto | lia] |].
      apply IH in Hs as [Hd Hl]. rewrite Hc, Hd. split; [auto | lia].
    + intros [Hd Hl]. destruct s as [|c s']; [left; auto | right].
      simpl in Hd, Hl. apply andb_true_iff in Hd as [Hc Hd].
      exists c, s'. repeat split; auto. apply IH. split; [auto | lia].
Qed.

Lemma lang_repeat_digit (n k : nat) :
  forall s, lang (power Digit n (upto Digit k)) s <->
            all_digits s = true /\ (n <= String.length s <= n + k)%nat.
Proof.
  induction n as [|n IH]; intros s; simpl.
  - rewrite lang_upto_digit. intuition lia.
  - unfold Digit at 1. rewrite lang_class_cat_iff. split.
    + intros (c & s' & -> & Hc & Hs). apply IH in Hs as [Hd Hl].
      simpl. rewrite Hc, Hd. split; [auto | lia].
    + intros [Hd Hl]. destruct s as [|c s']; simpl in Hd, Hl; [lia|].
      apply andb_true_iff in Hd as [Hc Hd].
      exists c, s'. repeat split; auto. apply IH. split; [auto | lia].
Qed.

(** C8: the phone-number validator accepts exactly the strings made of a
    leading [+], a first digit 1-9 and 6 to 14 further digits, and returns
    false for every other string. *)
Theorem validatePhoneNumber_exact (s : string) :
  validatePhoneNumber s = phone_format s.
Proof.
  apply eq_true_iff_eq.
  unfold validatePhoneNumber, phoneRegex, Lit, Repeat.
  rewrite fullmatch_spec, lang_class_cat_iff. split.
  - intros (c & s' & -> & Hplus & H).
    apply lang_class_cat_iff in H as (d & rest & -> & Hd & Hrest).
    apply lang_repeat_digit in Hrest as [Hall Hlen]. simpl in Hlen.
    apply Ascii.eqb_eq in Hplus as <-. unfold phone_format.
    rewrite Hd, Hall, !(proj2 (Nat.leb_le _ _)) by lia. reflexivity.
  - destruct s as [|c [|d rest]]; unfold phone_format; try discriminate.
    rewrite !andb_true_iff, !Nat.leb_le, Ascii.eqb_eq.
    intros ((((-> & Hd) & Hall) & H6) & H14).
    exists "+"%char, (String d rest). repeat split; auto.
    apply lang_class_cat_iff. exists d, rest. repeat split; auto.
    apply lang_repeat_digit. simpl. split; [auto | lia].
Qed.

End ValidatorFacts.

(** ** Challenges: single use, retries, and the order of effects *)

Section ChallengeFacts.
Import OTPRepository OTPService Challenge.

Lemma latest_In (rows : list OTP.t) (o : OTP.t) :
  latest rows = Some o -> In o rows.
Proof.
  revert o. induction rows as [|r rows IH]; simpl; intros o H; [discriminate|].
  destruct (latest rows) as [o'|].
  - destruct (OTP.CreatedAt r <? OTP.CreatedAt o'); injection H as <-; auto.
  - injection H as <-; auto.
Qed.

Lemma latest_nil (rows : list OTP.t) : latest rows = None -> rows = [].
Proof.
  destruct rows as [|r rows]; simpl; [auto|].
  destruct (latest rows) as [o'|]; [|discriminate].
  destruct (OTP.CreatedAt r <? OTP.CreatedAt o'); discriminate.
Qed.

Lemma latest_Some (rows : list OTP.t) (r : OTP.t) :
  In r rows -> exists o, latest rows = Some o.
Proof.
  intros H. destruct (latest rows) eqn:E; eauto.
  apply latest_nil in E. subst. destruct H.
Qed.

Lemma active_match_spec now tok code o :
  active_match now tok code o = true <->
  OTP.SessionToken o = tok /\ OTP.Code o = code /\ OTP.IsUsed o = false
  /\ now < OTP.ExpiresAt o.
Proof.
  unfold active_match.
  rewrite !andb_true_iff, !String.eqb_eq, negb_true_iff, Z.ltb_lt. tauto.
Qed.

(** The lookup reads and does not write. *)
Lemma lookup_found io now tok code d d' o :
  GetActiveBySessionTokenAndCode io now tok code d = (d', Ok (Some o)) ->
  d' = d /\ In o (otps d) /\ active_match now tok code o = true.
Proof.
  unfold GetActiveBySessionTokenAndCode.
  destruct (otp_select_err io); intros H; [discriminate|].
  injection H as <- H. apply latest_In, filter_In in H. tauto.
Qed.

Lemma lookup_consumed io now tok code d :
  otp_select_err io = None -> consumed tok d ->
  GetActiveBySessionTokenAndCode io now tok code d = (d, Ok None).
Proof.
  unfold GetActiveBySessionTokenAndCode. intros -> Hc.
  destruct (latest _) as [o|] eqn:E; [|reflexivity].
  apply latest_In, filter_In in E as [Hin Hm].
  apply active_match_spec in Hm as (Ht & _ & Hu & _).
  rewrite (Hc o Hin Ht) in Hu. discriminate.
Qed.

Lemma verify_consumed io now tok code d :
  otp_select_err io = None -> consumed tok d ->
  VerifyOTP io now tok code d = (d, Err "invalid or expired OTP").
Proof.
  intros Hio Hc. unfold VerifyOTP, bind, or_wrap.
  rewrite (lookup_consumed io now tok code d Hio Hc). reflexivity.
Qed.

Lemma mark_rows_tokens now id rows :
  map OTP.SessionToken (mark_rows now id rows) = map OTP.SessionToken rows.
Proof.
  unfold mark_rows. rewrite map_map. apply map_ext.
  intros o. destruct (unused_with_id id o); reflexivity.
Qed.

Lemma In_mark_rows now id rows o' :
  In o' (mark_rows now id rows) ->
  exists o, In o rows /\
            o' = if unused_with_id id o then OTP.set_used now o else o.
Proof.
  unfold mark_rows. rewrite in_map_iff. intros (o & <- & Hin). eauto.
Qed.

Lemma NoDup_map_eq {A B} (f : A -> B) (l : list A) (a b : A) :
  List.NoDup (map f l) -> In a l -> In b l -> f a = f b -> a = b.
Proof.
  induction l as [|x l IH]; simpl; intros Hnd Ha Hb E; [tauto|].
  inversion Hnd as [|? ? Hx Hl]; subst.
  destruct Ha as [->|Ha], Hb as [->|Hb]; auto.
  - exfalso. apply Hx. rewrite E. apply in_map. exact Hb.
  - exfalso. apply Hx. rewrite <- E. apply in_map. exact Ha.
Qed.

Lemma mark_rows_consumes now rows o :
  List.NoDup (map OTP.SessionToken rows) -> In o rows -> OTP.IsUsed o = false ->
  forall o', In o' (mark_rows now (OTP.ID o) rows) ->
             OTP.SessionToken o' = OTP.SessionToken o -> OTP.IsUsed o' = true.
Proof.
  intros Hnd Hin Hu o' Ho' Ht.
  apply In_mark_rows in Ho' as (o'' & Hin'' & ->).
  assert (o'' = o) as ->.
  { apply (NoDup_map_eq OTP.SessionToken rows); auto.
    destruct (unused_with_id (OTP.ID o) o''); exact Ht. }
  unfold unused_with_id. rewrite Z.eqb_refl, Hu. reflexivity.
Qed.

Lemma mark_rows_used now id rows o' :
  In o' (mark_rows now id rows) -> OTP.IsUsed o' = false ->
  In o' rows.
Proof.
  intros Ho' Hu. apply In_mark_rows in Ho' as (o & Hin & ->).
  destruct (unused_with_id id o); [discriminate | exact Hin].
Qed.

Lemma resolve_otps io now phone d d1 r :
  VerifyOTP_resolve io now phone d = (d1, r) -> otps d1 = otps d.
Proof.
  unfold VerifyOTP_resolve, bind, or_wrap, ret,
    UserRepository.GetByPhoneNumber, UserRepository.Create,
    UserRepository.UpdateLastLogin.
  destruct (user_select_err io); simpl; [intros [= <- _]; reflexivity|].
  destruct (find _ _); simpl.
  - destruct (user_update_err io); simpl; [intros [= <- _]; reflexivity|].
    destruct (_ =? _)%nat; simpl; intros [= <- _]; reflexivity.
  - destruct (user_insert_err io); simpl; [intros [= <- _]; reflexivity|].
    destruct (existsb _ _); simpl; intros [= <- _]; reflexivity.
Qed.

Lemma consume_success io now o d d1 u :
  VerifyOTP_consume io now (Some o) d = (d1, Ok u) ->
  otps d1 = mark_rows now (OTP.ID o) (otps d).
Proof.
  unfold VerifyOTP_consume, bind, or_wrap, MarkAsUsed.
  destruct (otp_update_err io); [discriminate|].
  destruct (_ =? _)%nat; [discriminate|].
  intros H. apply resolve_otps in H. exact H.
Qed.

Lemma verify_otps io now tok code d :
  otps (fst (VerifyOTP io now tok code d)) = otps d \/
  exists id, otps (fst (VerifyOTP io now tok code d)) = mark_rows now id (otps d).
Proof.
  unfold VerifyOTP, bind, or_wrap, GetActiveBySessionTokenAndCode.
  destruct (otp_select_err io); simpl; [left; reflexivity|].
  destruct (latest _) as [o|]; simpl; [|left; reflexivity].
  unfold bind, or_wrap, MarkAsUsed.
  destruct (otp_update_err io); simpl; [left; reflexivity|].
  right. exists (OTP.ID o).
  destruct (_ =? _)%nat; simpl; [reflexivity|].
  destruct (VerifyOTP_resolve _ _ _ _) as [d1 r] eqn:E.
  apply resolve_otps in E. exact E.
Qed.

Lemma consumed_ext tok d d' :
  otps d' = otps d -> consumed tok d -> consumed tok d'.
Proof.
  unfold consumed. intros ->. auto.
Qed.

Lemma consumed_mark tok now id d d' :
  otps d' = mark_rows now id (otps d) -> consumed tok d -> consumed tok d'.
Proof.
  unfold consumed. intros -> Hc o' Hin Ht.
  apply In_mark_rows in Hin as (o & Hin & ->).
  destruct (unused_with_id id o); [reflexivity | auto].
Qed.

Lemma run_consumed tok c d :
  reissues tok c = false -> consumed tok d -> consumed tok (run c d).
Proof.
  destruct c as [io now otp | io now tk code | io now id | io now];
    simpl; intros Hr Hc.
  - unfold Create.
    destruct (otp_insert_err io); simpl; [exact Hc|].
    destruct (existsb _ _); simpl; [exact Hc|].
    intros o Hin Ht. simpl in Hin. apply in_app_or in Hin as [Hin | [<- | []]].
    + auto.
    + simpl in Ht. apply String.eqb_neq in Hr. contradiction.
  - destruct (verify_otps io now tk code d) as [E | [id E]].
    + eapply consumed_ext; eauto.
    + eapply consumed_mark; eauto.
  - unfold MarkAsUsed.
    destruct (otp_update_err io); simpl; [exact Hc|].
    destruct (_ =? _)%nat; simpl; eapply consumed_mark; eauto; reflexivity.
  - unfold DeleteExpired.
    destruct (otp_delete_err io); simpl; [exact Hc|].
    intros o Hin Ht. simpl in Hin. apply filter_In in Hin as [Hin _]. auto.
Qed.

Lemma run_all_consumed tok calls :
  forall d, forallb (fun c => negb (reissues tok c)) calls = true ->
            consumed tok d -> consumed tok (run_all calls d).
Proof.
  unfold run_all.
  induction calls as [|c calls IH]; simpl; intros d Hall Hc; [exact Hc|].
  apply andb_true_iff in Hall as [Hr Hall].
  apply IH; [exact Hall|]. apply run_consumed; [|exact Hc].
  apply negb_true_iff. exact Hr.
Qed.

(** The constraint is an invariant of every call. *)
Lemma NoDup_map_filter {A B} (f : A -> B) (p : A -> bool) (l : list A) :
  List.NoDup (map f l) -> List.NoDup (map f (List.filter p l)).
Proof.
  induction l as [|x l IH]; simpl; intros H; [constructor|].
  inversion H as [|? ? Hx Hl]; subst.
  destruct (p x); simpl; auto.
  constructor; auto.
  intros Hin. apply Hx. apply in_map_iff in Hin as (y & E & Hy).
  apply filter_In in Hy as [Hy _]. rewrite <- E. apply in_map. exact Hy.
Qed.

Lemma NoDup_snoc {A} (l : list A) (x : A) :
  List.NoDup l -> ~ In x l -> List.NoDup (l ++ [x]).
Proof.
  induction l as [|y l IH]; simpl; intros Hl Hx.
  - constructor; [tauto | constructor].
  - inversion Hl as [|? ? Hy Hl']; subst. constructor.
    + rewrite in_app_iff. simpl. intuition congruence.
    + apply IH; tauto.
Qed.

Lemma run_unique_tokens c d : unique_tokens d -> unique_tokens (run c d).
Proof.
  unfold unique_tokens.
  destruct c as [io now otp | io now tk code | io now id | io now];
    simpl; intros Hu.
  - unfold Create.
    destruct (otp_insert_err io); simpl; [exact Hu|].
    destruct (existsb _ _) eqn:E; simpl; [exact Hu|].
    rewrite map_app. simpl. apply NoDup_snoc; [exact Hu|].
    { intros Hin. apply in_map_iff in Hin as (o & Ho & Hin).
      assert (existsb (fun o => String.eqb (OTP.SessionToken o) (OTP.SessionToken otp))
                      (otps d) = true) as Hex.
      { apply existsb_exists. exists o. split; [exact Hin|].
        apply String.eqb_eq. exact Ho. }
      rewrite Hex in E. discriminate. }
  - destruct (verify_otps io now tk code d) as [-> | [id ->]];
      [|rewrite mark_rows_tokens]; exact Hu.
  - unfold MarkAsUsed.
    destruct (otp_update_err io); simpl; [exact Hu|].
    destruct (_ =? _)%nat; simpl; rewrite mark_rows_tokens; exact Hu.
  - unfold DeleteExpired.
    destruct (otp_delete_err io); simpl; [exact Hu|].
    apply NoDup_map_filter. exact Hu.
Qed.

Lemma verify_consumed_not_ok io now tok code d :
  consumed tok d -> is_ok (snd (VerifyOTP io now tok code d)) = false.
Proof.
  intros Hc. destruct (otp_select_err io) as [e|] eqn:Hio.
  - unfold VerifyOTP, bind, or_wrap, GetActiveBySessionTokenAndCode.
    rewrite Hio. reflexivity.
  - rewrite verify_consumed by assumption. reflexivity.
Qed.

Lemma verify_success_inv io now tok code d d1 u :
  VerifyOTP io now tok code d = (d1, Ok u) ->
  exists o, In o (otps d) /\ active_match now tok code o = true
            /\ otps d1 = mark_rows now (OTP.ID o) (otps d).
Proof.
  unfold VerifyOTP, bind, or_wrap.
  destruct (GetActiveBySessionTokenAndCode io now tok code d) as [d0 [[o|]|e]] eqn:E;
    try discriminate.
  apply lookup_found in E as (-> & Hin & Hm).
  intros H. apply consume_success in H. eauto.
Qed.

Lemma In_mark_rows_hit now rows o :
  In o rows -> OTP.IsUsed o = false ->
  In (OTP.set_used now o) (mark_rows now (OTP.ID o) rows).
Proof.
  intros Hin Hu. unfold mark_rows. apply in_map_iff. exists o. split; [|exact Hin].
  unfold unused_with_id. rewrite Z.eqb_refl, Hu. reflexivity.
Qed.

(** C1: a challenge is verified at most once.  A successful [VerifyOTP]
    flips the row of the challenge from unused to used and stamps
    [used_at]; from then on, whatever calls reach the store in between
    (other than an issuance drawing the same handle again), every
    [VerifyOTP] with the same handle and code fails, and with the text
    [invalid or expired OTP] whenever its lookup is executed. *)
Theorem verify_succeeds_at_most_once io now tok code d d1 u :
  unique_tokens d ->
  VerifyOTP io now tok code d = (d1, Ok u) ->
  (exists o, In o (otps d) /\ OTP.SessionToken o = tok /\ OTP.Code o = code
             /\ OTP.IsUsed o = false
             /\ In (OTP.set_used now o) (otps d1)) /\
  forall calls io' now',
    forallb (fun c => negb (reissues tok c)) calls = true ->
    is_ok (snd (VerifyOTP io' now' tok code (run_all calls d1))) = false /\
    (otp_select_err io' = None ->
     VerifyOTP io' now' tok code (run_all calls d1)
     = (run_all calls d1, Err "invalid or expired OTP")).
Proof.
  intros Hu Hv. apply verify_success_inv in Hv as (o & Hin & Hm & Hd1).
  apply active_match_spec in Hm as (Ht & Hc & Hused & _).
  split.
  - exists o. rewrite Hd1. repeat split; auto using In_mark_rows_hit.
  - intros calls io' now' Hcalls.
    assert (consumed tok (run_all calls d1)) as Hcons.
    { apply run_all_consumed; [exact Hcalls|].
      intros o' Hin' Ht'. rewrite Hd1 in Hin'. subst tok.
      eapply mark_rows_consumes; eauto. }
    split; [apply verify_consumed_not_ok | intros Hio; apply verify_consumed]; auto.
Qed.

Lemma lookup_unique io now d o :
  unique_tokens d -> In o (otps d) -> OTP.IsUsed o = false ->
  now < OTP.ExpiresAt o -> otp_select_err io = None ->
  GetActiveBySessionTokenAndCode io now (OTP.SessionToken o) (OTP.Code o) d
  = (d, Ok (Some o)).
Proof.
  intros Hu Hin Hused Hexp Hio. unfold GetActiveBySessionTokenAndCode. rewrite Hio.
  assert (In o (List.filter (active_match now (OTP.SessionToken o) (OTP.Code o))
                            (otps d))) as Hf.
  { apply filter_In. split; [exact Hin|]. apply active_match_spec. auto. }
  destruct (latest_Some _ _ Hf) as [o' E]. rewrite E.
  apply latest_In, filter_In in E as [Hin' Hm].
  apply active_match_spec in Hm as (Ht & _).
  rewrite (NoDup_map_eq OTP.SessionToken (otps d) o' o Hu Hin' Hin Ht). reflexivity.
Qed.

Lemma lookup_wrong_code io now d o wrong :
  unique_tokens d -> In o (otps d) -> wrong <> OTP.Code o ->
  otp_select_err io = None ->
  GetActiveBySessionTokenAndCode io now (OTP.SessionToken o) wrong d = (d, Ok None).
Proof.
  intros Hu Hin Hw Hio. unfold GetActiveBySessionTokenAndCode. rewrite Hio.
  destruct (latest _) as [o'|] eqn:E; [|reflexivity].
  apply latest_In, filter_In in E as [Hin' Hm].
  apply active_match_spec in Hm as (Ht & Hc & _).
  rewrite (NoDup_map_eq OTP.SessionToken (otps d) o' o Hu Hin' Hin Ht) in Hc.
  congruence.
Qed.

Lemma rows_affected_hit rows o :
  In o rows -> OTP.IsUsed o = false ->
  (rows_affected (OTP.ID o) rows =? 0)%nat = false.
Proof.
  intros Hin Hu. unfold rows_affected.
  assert (In o (List.filter (unused_with_id (OTP.ID o)) rows)) as Hf.
  { apply filter_In. split; [exact Hin|].
    unfold unused_with_id. rewrite Z.eqb_refl, Hu. reflexivity. }
  destruct (List.filter _ rows); [destruct Hf | reflexivity].
Qed.

Lemma resolve_succeeds now phone d :
  no_inactive_user phone d ->
  exists d' u, VerifyOTP_resolve no_sql_faults now phone d = (d', Ok u)
               /\ User.PhoneNumber u = phone.
Proof.
  intros Hact.
  unfold VerifyOTP_resolve, bind, or_wrap, ret, UserRepository.GetByPhoneNumber,
    UserRepository.Create, UserRepository.UpdateLastLogin. simpl.
  destruct (find _ (users d)) as [u|] eqn:E.
  - apply find_some in E as [Hin Hhit].
    assert (In u (List.filter (UserRepository.active_with_phone phone) (users d))) as Hf.
    { apply filter_In. auto. }
    destruct (List.filter _ (users d)); [destruct Hf|]. simpl.
    eexists _, u. split; [reflexivity|].
    unfold UserRepository.active_with_phone in Hhit.
    apply andb_true_iff in Hhit as [Hp _]. apply String.eqb_eq. exact Hp.
  - destruct (existsb _ (users d)) eqn:Hex.
    + apply existsb_exists in Hex as (u & Hin & Hp). apply String.eqb_eq in Hp.
      pose proof (find_none _ _ E u Hin) as Hn.
      unfold UserRepository.active_with_phone in Hn.
      rewrite (proj2 (String.eqb_eq _ _) Hp), (Hact u Hin Hp) in Hn. discriminate.
    + simpl. eexists _, _. split; reflexivity.
Qed.

(** C5: a wrong code fails with [invalid or expired OTP] and leaves the
    store as it was, so the challenge is still unused; a following
    [VerifyOTP] with the right code before expiry finds the challenge,
    consumes it and returns the user of its phone number (the statements
    being executed and the phone number not held by a deactivated account). *)
Theorem wrong_code_does_not_consume io now d o wrong :
  unique_tokens d -> In o (otps d) -> OTP.IsUsed o = false ->
  wrong <> OTP.Code o -> otp_select_err io = None ->
  VerifyOTP io now (OTP.SessionToken o) wrong d = (d, Err "invalid or expired OTP") /\
  forall now',
    now' < OTP.ExpiresAt o -> no_inactive_user (OTP.PhoneNumber o) d ->
    exists d' u,
      VerifyOTP no_sql_faults now' (OTP.SessionToken o) (OTP.Code o)
                (fst (VerifyOTP io now (OTP.SessionToken o) wrong d))
      = (d', Ok u)
      /\ User.PhoneNumber u = OTP.PhoneNumber o
      /\ In (OTP.set_used now' o) (otps d').
Proof.
  intros Hu Hin Hused Hw Hio.
  assert (VerifyOTP io now (OTP.SessionToken o) wrong d
          = (d, Err "invalid or expired OTP")) as Hfail.
  { unfold VerifyOTP, bind, or_wrap.
    rewrite (lookup_wrong_code io now d o wrong Hu Hin Hw Hio). reflexivity. }
  split; [exact Hfail|]. rewrite Hfail. simpl.
  intros now' Hexp Hact.
  unfold VerifyOTP, bind, or_wrap.
  rewrite (lookup_unique no_sql_faults now' d o Hu Hin Hused Hexp eq_refl).
  unfold VerifyOTP_consume, bind, or_wrap, MarkAsUsed. simpl.
  rewrite (rows_affected_hit (otps d) o Hin Hused).
  destruct (resolve_succeeds now' (OTP.PhoneNumber o)
              (mkDB (mark_rows now' (OTP.ID o) (otps d)) (otp_seq d)
                    (users d) (user_seq d)) Hact) as (d' & u & Hres & Hp).
  exists d', u. rewrite Hres. repeat split; [exact Hp|].
  apply resolve_otps in Hres. rewrite Hres. simpl.
  apply In_mark_rows_hit; assumption.
Qed.

(** C10: [VerifyOTP] marks the challenge used before it resolves the user.
    When the lookup finds the challenge, the update succeeds and the user
    part then fails, [VerifyOTP] returns that error on a store in which
    the challenge is used, and a retry with the same handle and code
    fails with [invalid or expired OTP]. *)
Theorem challenge_consumed_before_user_resolution io now tok code d o dm du e :
  unique_tokens d ->
  GetActiveBySessionTokenAndCode io now tok code d = (d, Ok (Some o)) ->
  MarkAsUsed io now (OTP.ID o) d = (dm, Ok tt) ->
  VerifyOTP_resolve io now (OTP.PhoneNumber o) dm = (du, Err e) ->
  VerifyOTP io now tok code d = (du, Err e) /\
  In (OTP.set_used now o) (otps du) /\
  forall io' now',
    otp_select_err io' = None ->
    VerifyOTP io' now' tok code du = (du, Err "invalid or expired OTP").
Proof.
  intros Hu Hlook Hmark Hres.
  pose proof (lookup_found _ _ _ _ _ _ _ Hlook) as (_ & Hin & Hm).
  apply active_match_spec in Hm as (Ht & Hc & Hused & _).
  assert (otps du = mark_rows now (OTP.ID o) (otps d)) as Hdu.
  { rewrite (resolve_otps _ _ _ _ _ _ Hres).
    revert Hmark. unfold MarkAsUsed.
    destruct (otp_update_err io); [discriminate|].
    destruct (_ =? _)%nat; [discriminate|]. intros [= <-]. reflexivity. }
  split; [|split].
  - unfold VerifyOTP, bind, or_wrap. rewrite Hlook.
    unfold VerifyOTP_consume, bind, or_wrap. rewrite Hmark. exact Hres.
  - rewrite Hdu. apply In_mark_rows_hit; assumption.
  - intros io' now' Hio. apply verify_consumed; [exact Hio|].
    intros o' Hin' Ht'. rewrite Hdu in Hin'. subst tok.
    eapply mark_rows_consumes; eauto.
Qed.

Lemma mark_rows_no_hit now id rows :
  rows_affected id rows = 0%nat -> mark_rows now id rows = rows.
Proof.
  unfold rows_affected, mark_rows.
  induction rows as [|o rows IH]; simpl; [reflexivity|].
  destruct (unused_with_id id o); simpl; [discriminate|].
  intros H. rewrite IH by exact H. reflexivity.
Qed.

(** C4, as the code has it: when the conditional update affects no row,
    the rest of [VerifyOTP] fails without touching the store, with the
    text [failed to mark OTP as used: OTP not found or already used]; the
    handler answers that text with 500 [Failed to verify OTP], and the
    text of a wrong or expired code with 401 [Invalid or expired OTP]. *)
Theorem zero_rows_is_internal_error io now d otp :
  otp_update_err io = None ->
  rows_affected (OTP.ID otp) (otps d) = 0%nat ->
  VerifyOTP_consume io now (Some otp) d
  = (d, Err "failed to mark OTP as used: OTP not found or already used") /\
  OTPController.verify_failure
    "failed to mark OTP as used: OTP not found or already used"
  = JSONError StatusInternalServerError "Failed to verify OTP" "Internal server error" /\
  OTPController.verify_failure "invalid or expired OTP"
  = JSONError StatusUnauthorized "Invalid or expired OTP" "Please request a new OTP".
Proof.
  intros Hio Hz. split; [|split; reflexivity].
  unfold VerifyOTP_consume, bind, or_wrap, MarkAsUsed.
  rewrite Hio, Hz, (mark_rows_no_hit now _ _ Hz). simpl.
  destruct d; reflexivity.
Qed.

Lemma sample_unique_tokens (d : DB) (o : OTP.t) :
  otps d = [o] -> unique_tokens d.
Proof.
  unfold unique_tokens. intros ->. simpl.
  constructor; [simpl; tauto | constructor].
Defined.

Lemma verify_succeeds_at_most_once_witness :
  unique_tokens Sample.fresh_db /\
  VerifyOTP no_sql_faults 10 "5e55104a" "123456" Sample.fresh_db
  = (Sample.verified_db 10, Ok (Sample.new_user 10)) /\
  ((exists o, In o (otps Sample.fresh_db) /\ OTP.SessionToken o = "5e55104a"
              /\ OTP.Code o = "123456" /\ OTP.IsUsed o = false
              /\ In (OTP.set_used 10 o) (otps (Sample.verified_db 10))) /\
   forall calls io' now',
     forallb (fun c => negb (reissues "5e55104a" c)) calls = true ->
     is_ok (snd (VerifyOTP io' now' "5e55104a" "123456"
                           (run_all calls (Sample.verified_db 10)))) = false /\
     (otp_select_err io' = None ->
      VerifyOTP io' now' "5e55104a" "123456" (run_all calls (Sample.verified_db 10))
      = (run_all calls (Sample.verified_db 10), Err "invalid or expired OTP"))).
Proof.
  split; [apply (sample_unique_tokens _ Sample.challenge); reflexivity|].
  split; [reflexivity|].
  apply (verify_succeeds_at_most_once no_sql_faults 10 "5e55104a" "123456"
           Sample.fresh_db (Sample.verified_db 10) (Sample.new_user 10)).
  - apply (sample_unique_tokens _ Sample.challenge); reflexivity.
  - reflexivity.
Defined.

Lemma wrong_code_does_not_consume_witness :
  VerifyOTP no_sql_faults 10 "5e55104a" "000000" Sample.fresh_db
  = (Sample.fresh_db, Err "invalid or expired OTP") /\
  forall now',
    now' < 1000 -> no_inactive_user Sample.phone Sample.fresh_db ->
    exists d' u,
      VerifyOTP no_sql_faults now' "5e55104a" "123456"
                (fst (VerifyOTP no_sql_faults 10 "5e55104a" "000000" Sample.fresh_db))
      = (d', Ok u)
      /\ User.PhoneNumber u = Sample.phone
      /\ In (OTP.set_used now' Sample.challenge) (otps d').
Proof.
  apply (wrong_code_does_not_consume no_sql_faults 10 Sample.fresh_db
           Sample.challenge "000000").
  - apply (sample_unique_tokens _ Sample.challenge); reflexivity.
  - simpl; auto.
  - reflexivity.
  - discriminate.
  - reflexivity.
Defined.

Lemma challenge_consumed_before_user_resolution_witness :
  let marked := mkDB [OTP.set_used 10 Sample.challenge] 2 [Sample.deactivated] 2 in
  let e := "failed to create user: failed to create user: pq: duplicate key value violates unique constraint" in
  VerifyOTP no_sql_faults 10 "5e55104a" "123456" Sample.db_with_deactivated
  = (marked, Err e) /\
  In (OTP.set_used 10 Sample.challenge) (otps marked) /\
  forall io' now',
    otp_select_err io' = None ->
    VerifyOTP io' now' "5e55104a" "123456" marked
    = (marked, Err "invalid or expired OTP").
Proof.
  apply (challenge_consumed_before_user_resolution no_sql_faults 10
           "5e55104a" "123456" Sample.db_with_deactivated Sample.challenge
           (mkDB [OTP.set_used 10 Sample.challenge] 2 [Sample.deactivated] 2)).
  - apply (sample_unique_tokens _ Sample.challenge); reflexivity.
  - reflexivity.
  - reflexivity.
  - reflexivity.
Defined.

Lemma zero_rows_is_internal_error_witness :
  VerifyOTP_consume no_sql_faults 12 (Some Sample.challenge) (Sample.verified_db 11)
  = (Sample.verified_db 11,
     Err "failed to mark OTP as used: OTP not found or already used") /\
  OTPController.verify_failure
    "failed to mark OTP as used: OTP not found or already used"
  = JSONError StatusInternalServerError "Failed to verify OTP" "Internal server error" /\
  OTPController.verify_failure "invalid or expired OTP"
  = JSONError StatusUnauthorized "Invalid or expired OTP" "Please request a new OTP".
Proof.
  apply (zero_rows_is_internal_error no_sql_faults 12 (Sample.verified_db 11)
           Sample.challenge); reflexivity.
Defined.

(** The claim C4 as stated fails: a verification that found the challenge
    unused at instant 10, and whose update at instant 12 comes after a
    second, identical call consumed it at instant 11, does not fail with
    [invalid or expired OTP], and the handler answers 500 where a wrong
    code is answered 401. *)
Lemma lost_race_is_distinguishable :
  GetActiveBySessionTokenAndCode no_sql_faults 10 "5e55104a" "123456" Sample.fresh_db
  = (Sample.fresh_db, Ok (Some Sample.challenge)) /\
  fst (VerifyOTP no_sql_faults 11 "5e55104a" "123456" Sample.fresh_db)
  = Sample.verified_db 11 /\
  rows_affected (OTP.ID Sample.challenge) (otps (Sample.verified_db 11)) = 0%nat /\
  snd (VerifyOTP_consume no_sql_faults 12 (Some Sample.challenge) (Sample.verified_db 11))
  <> Err "invalid or expired OTP" /\
  status_of (OTPController.verify_failure
               "failed to mark OTP as used: OTP not found or already used")
  <> status_of (OTPController.verify_failure "invalid or expired OTP").
Proof.
  repeat split; try reflexivity; vm_compute; discriminate.
Qed.
End ChallengeFacts.

(** ** The rate limiter: windows, the limit, and store failures *)

Section LimiterFacts.
Import RedisRateLimitRepository OTPService Limiter.

Variable cfg : Config.
Variable Duration_String : Z -> string.

Local Abbreviation N := (RateLimit_MaxRequests cfg).
Local Abbreviation W := (RateLimit_WindowDuration cfg).

Lemma GetRateLimit_eval io now phone st :
  get_err io = None ->
  GetRateLimit io now phone st = (st, Ok (Some (seen now phone st))).
Proof.
  intros Hio. unfold GetRateLimit, seen. rewrite Hio.
  destruct (redis_get now phone st); reflexivity.
Qed.

Lemma IsRateLimited_eval io now phone st :
  get_err io = None ->
  IsRateLimited cfg io now phone st
  = (st, Ok (if W <=? Time.Sub now (RateLimitInfo.WindowStartAt (seen now phone st))
             then false
             else N <=? RateLimitInfo.RequestCount (seen now phone st))).
Proof.
  intros Hio. unfold IsRateLimited, bind, or_wrap.
  rewrite (GetRateLimit_eval io now phone st Hio).
  destruct (W <=? _); reflexivity.
Qed.

Lemma seen_open_window phone c ws st now :
  open_window cfg phone c ws st -> now < ws + W ->
  exists last, seen now phone st = RateLimitInfo.mk phone c last ws.
Proof.
  intros (last & e & Hk & He) Hnow. exists last.
  unfold seen, redis_get, Redis.get, Redis.live. rewrite Hk.
  destruct e as [x|]; [|reflexivity].
  specialize (He x eq_refl).
  destruct (now <? x) eqn:E; [reflexivity|]. apply Z.ltb_ge in E. lia.
Qed.

Lemma seen_absent phone st now :
  st !! key phone = None ->
  seen now phone st = RateLimitInfo.mk phone 0 Time.zero Time.zero.
Proof.
  intros Hk. unfold seen, redis_get, Redis.get, Redis.live. rewrite Hk. reflexivity.
Qed.

Lemma Sub_exact t u :
  Time.minDuration <= t - u <= Time.maxDuration -> Time.Sub t u = t - u.
Proof.
  unfold Time.Sub. lia.
Qed.

Lemma Sub_since_zero t : 0 <= t -> Time.Sub t Time.zero = Time.maxDuration.
Proof.
  unfold Time.Sub, Time.zero, Time.maxDuration, Time.minDuration, Time.Second.
  intros H. change (2 ^ 63) with 9223372036854775808. lia.
Qed.


Ltac unfold_time :=
  unfold Time.Sub, Time.Add, Time.IsZero, Time.zero, Time.maxDuration,
    Time.minDuration, Time.Minute, Time.Second in *;
  change (2 ^ 63) with 9223372036854775808 in *.

(** The first request of a window: no key, or a key that Redis dropped. *)
Lemma update_starts_window io now now_store phone st :
  get_err io = None -> set_err io = None ->
  seen now phone st = RateLimitInfo.mk phone 0 Time.zero Time.zero ->
  W <= Time.maxDuration -> 0 <= now -> now <= now_store < now + W ->
  exists st',
    updateRateLimit cfg io now now_store phone st = (st', Ok tt)
    /\ open_window cfg phone 1 now st'.
Proof.
  intros Hget Hset Hseen HW Hnow Hstore.
  unfold updateRateLimit, bind, or_wrap.
  rewrite (GetRateLimit_eval io now phone st Hget), Hseen. simpl.
  rewrite (Sub_since_zero now Hnow).
  rewrite (proj2 (Z.leb_le _ _) HW).
  unfold UpdateRateLimit. simpl. rewrite Hset.
  assert (Time.IsZero now = false) as ->.
  { unfold_time. apply Z.eqb_neq. lia. }
  simpl.
  assert (Time.Sub (Time.Add now W) now_store = now + W - now_store) as ->.
  { unfold_time. lia. }
  destruct ((now + W - now_store) <=? 0) eqn:E1; [apply Z.leb_le in E1; lia|].
  destruct ((now + W - now_store) <? Time.Minute) eqn:E2.
  - eexists. split; [reflexivity|]. unfold open_window, Redis.set. simpl.
    exists now, (Some (now_store + Time.Minute)).
    rewrite lookup_insert_eq. split; [reflexivity|].
    apply Z.ltb_lt in E2. intros e [= <-]. lia.
  - eexists. split; [reflexivity|]. unfold open_window, Redis.set. simpl.
    assert ((0 <? (now + W - now_store)) = true) as -> by (apply Z.ltb_lt; lia).
    exists now, (Some (now_store + (now + W - now_store))).
    rewrite lookup_insert_eq. split; [reflexivity|]. intros e [= <-]. lia.
Qed.

(** A further request inside the window. *)
Lemma update_counts io now now_store phone c ws st :
  get_err io = None -> set_err io = None ->
  open_window cfg phone c ws st ->
  0 < W <= Time.maxDuration -> 0 <= c < 2 ^ 63 - 1 -> 0 <= ws ->
  now < ws + W -> ws <= now_store < ws + W ->
  exists st',
    updateRateLimit cfg io now now_store phone st = (st', Ok tt)
    /\ open_window cfg phone (c + 1) ws st'.
Proof.
  intros Hget Hset Hopen HW Hc Hws Hnow Hstore.
  destruct (seen_open_window phone c ws st now Hopen Hnow) as [last Hseen].
  unfold updateRateLimit, bind, or_wrap.
  rewrite (GetRateLimit_eval io now phone st Hget), Hseen. simpl.
  assert ((W <=? Time.Sub now ws) = false) as ->.
  { apply Z.leb_gt. unfold_time. lia. }
  assert (int_wrap (c + 1) = c + 1) as ->.
  { unfold int_wrap. change (2 ^ 63) with 9223372036854775808 in *.
    change (2 ^ 64) with 18446744073709551616.
    rewrite Z.mod_small by lia. lia. }
  unfold UpdateRateLimit. simpl. rewrite Hset.
  assert (Time.IsZero ws = false) as ->.
  { unfold_time. apply Z.eqb_neq. lia. }
  simpl.
  assert (Time.Sub (Time.Add ws W) now_store
          = Z.min Time.maxDuration (ws + W - now_store)) as ->.
  { unfold_time. lia. }
  set (ttl := Z.min Time.maxDuration (ws + W - now_store)).
  assert (0 < ttl) as Httl by (subst ttl; unfold_time; lia).
  destruct (ttl <=? 0) eqn:E1; [apply Z.leb_le in E1; lia|].
  destruct (ttl <? Time.Minute) eqn:E2.
  - eexists. split; [reflexivity|]. unfold open_window, Redis.set. simpl.
    exists now, (Some (now_store + Time.Minute)).
    rewrite lookup_insert_eq. split; [reflexivity|].
    apply Z.ltb_lt in E2. intros e [= <-]. subst ttl. unfold_time. lia.
  - eexists. split; [reflexivity|]. unfold open_window, Redis.set. simpl.
    assert ((0 <? ttl) = true) as -> by (apply Z.ltb_lt; lia).
    exists now, (Some (now_store + ttl)).
    rewrite lookup_insert_eq. split; [reflexivity|]. intros e [= <-].
    apply Z.ltb_ge in E2. subst ttl. unfold_time. lia.
Qed.


Lemma seen_cases phone c ws st now :
  open_window cfg phone c ws st ->
  (exists last, seen now phone st = RateLimitInfo.mk phone c last ws)
  \/ seen now phone st = RateLimitInfo.mk phone 0 Time.zero Time.zero.
Proof.
  intros (last & e & Hk & _).
  unfold seen, redis_get, Redis.get, Redis.live. rewrite Hk.
  destruct e as [x|]; [destruct (now <? x)|]; simpl; eauto.
Qed.

(** The first request after the window has ended. *)
Lemma update_restarts io now now_store phone c ws st :
  get_err io = None -> set_err io = None ->
  open_window cfg phone c ws st ->
  0 < W <= Time.maxDuration -> 0 <= ws ->
  W <= now - ws -> now <= now_store ->
  exists st' ws',
    updateRateLimit cfg io now now_store phone st = (st', Ok tt)
    /\ now <= ws' <= now_store
    /\ open_window cfg phone 1 ws' st'.
Proof.
  intros Hget Hset Hopen HW Hws Hnow Hstore.
  assert (exists info,
            seen now phone st = info
            /\ RateLimitInfo.PhoneNumber info = phone
            /\ (W <=? Time.Sub now (RateLimitInfo.WindowStartAt info)) = true)
    as (info & Hseen & Hphone & Hover).
  { destruct (seen_cases phone c ws st now Hopen) as [[last E] | E];
      rewrite E; eexists; (split; [reflexivity|]); simpl; (split; [reflexivity|]);
      apply Z.leb_le; unfold_time; lia. }
  unfold updateRateLimit, bind, or_wrap.
  rewrite (GetRateLimit_eval io now phone st Hget), Hseen, Hover, Hphone.
  unfold UpdateRateLimit. simpl. rewrite Hset.
  assert (Time.IsZero now = false) as ->.
  { unfold_time. apply Z.eqb_neq. lia. }
  simpl.
  assert (Time.Sub (Time.Add now W) now_store
          = Z.max Time.minDuration (now + W - now_store)) as ->.
  { unfold_time. lia. }
  set (ttl := Z.max Time.minDuration (now + W - now_store)).
  destruct (ttl <=? 0) eqn:E1; simpl.
  - exists (Redis.set now_store (key phone) (RateLimitInfo.mk phone 1 now now_store)
                      W st), now_store.
    split; [reflexivity|]. split; [lia|].
    unfold open_window, Redis.set.
    assert ((0 <? W) = true) as -> by (apply Z.ltb_lt; lia).
    exists now, (Some (now_store + W)).
    rewrite lookup_insert_eq. split; [reflexivity|]. intros e [= <-]. lia.
  - apply Z.leb_gt in E1.
    assert (ttl = now + W - now_store) as Ettl by (subst ttl; unfold_time; lia).
    destruct (ttl <? Time.Minute) eqn:E2.
    + eexists _, now. split; [reflexivity|]. split; [lia|].
      unfold open_window, Redis.set. simpl.
      exists now, (Some (now_store + Time.Minute)).
      rewrite lookup_insert_eq. split; [reflexivity|].
      apply Z.ltb_lt in E2. intros e [= <-]. lia.
    + eexists _, now. split; [reflexivity|]. split; [lia|].
      unfold open_window, Redis.set. simpl.
      assert ((0 <? ttl) = true) as -> by (apply Z.ltb_lt; lia).
      exists now, (Some (now_store + ttl)).
      rewrite lookup_insert_eq. split; [reflexivity|]. intros e [= <-]. lia.
Qed.

Lemma limited_in_window io now phone c ws st :
  get_err io = None -> open_window cfg phone c ws st ->
  0 < W -> now < ws + W ->
  IsRateLimited cfg io now phone st = (st, Ok (N <=? c)).
Proof.
  intros Hget Hopen HW Hnow.
  destruct (seen_open_window phone c ws st now Hopen Hnow) as [last Hseen].
  rewrite (IsRateLimited_eval io now phone st Hget), Hseen. simpl.
  assert ((W <=? Time.Sub now ws) = false) as ->; [|reflexivity].
  apply Z.leb_gt. unfold_time. lia.
Qed.

Lemma not_limited_after_window io now phone c ws st :
  get_err io = None -> open_window cfg phone c ws st ->
  1 <= N -> 0 < W <= Time.maxDuration -> 0 <= ws -> W <= now - ws ->
  IsRateLimited cfg io now phone st = (st, Ok false).
Proof.
  intros Hget Hopen HN HW Hws Hnow.
  rewrite (IsRateLimited_eval io now phone st Hget).
  destruct (seen_cases phone c ws st now Hopen) as [[last E] | E]; rewrite E; simpl.
  - assert ((W <=? Time.Sub now ws) = true) as ->; [|reflexivity].
    apply Z.leb_le. unfold_time. lia.
  - destruct (W <=? _); [reflexivity|].
    assert ((N <=? 0) = false) as ->; [apply Z.leb_gt; lia | reflexivity].
Qed.

Lemma not_limited_without_record io now phone st :
  get_err io = None -> st !! key phone = None -> 1 <= N ->
  IsRateLimited cfg io now phone st = (st, Ok false).
Proof.
  intros Hget Hk HN.
  rewrite (IsRateLimited_eval io now phone st Hget), (seen_absent phone st now Hk).
  simpl. destruct (W <=? _); [reflexivity|].
  assert ((N <=? 0) = false) as ->; [apply Z.leb_gt; lia | reflexivity].
Qed.


Lemma SendOTP_rejected env phone w :
  IsRateLimited cfg (check_io env) (t_check env) phone (rate w) = (rate w, Ok true) ->
  SendOTP cfg Duration_String env phone w
  = (w, Err (rate_limit_exceeded cfg Duration_String)).
Proof.
  intros H. unfold SendOTP, bind, or_wrap, on_rate, fail. rewrite H.
  destruct w; reflexivity.
Qed.

Lemma SendOTP_allowed env phone w st' :
  IsRateLimited cfg (check_io env) (t_check env) phone (rate w) = (rate w, Ok false) ->
  issues env -> ~ In (handle env) (tokens_of w) ->
  updateRateLimit cfg (update_io env) (t_update env) (t_store env) phone (rate w)
  = (st', Ok tt) ->
  exists w' resp,
    SendOTP cfg Duration_String env phone w = (w', Ok resp)
    /\ rate w' = st'
    /\ tokens_of w' = (tokens_of w ++ [handle env])%list.
Proof.
  intros Hlim (Hint & Hbytes & Hins) Hfresh Hupd.
  unfold SendOTP, bind, or_wrap, on_rate, on_db, lift, fail. rewrite Hlim. simpl.
  unfold generateOTPCode, generateSessionToken, handle in *.
  destruct (rand_int env) as [r|]; [|discriminate].
  destruct (rand_bytes env) as [bytes|]; [|discriminate]. simpl.
  unfold OTPRepository.Create. rewrite Hins. simpl.
  destruct (existsb _ _) eqn:Hex.
  { exfalso. apply Hfresh. apply existsb_exists in Hex as (o & Hin & Ho).
    apply String.eqb_eq in Ho. simpl in Ho. rewrite <- Ho.
    unfold tokens_of. apply in_map. exact Hin. }
  simpl. rewrite Hupd. eexists _, _. split; [reflexivity|]. simpl.
  split; [reflexivity|]. unfold tokens_of. simpl. rewrite map_app. reflexivity.
Qed.

(** Requests within an open window, up to the limit. *)
Lemma sends_within_window phone ws (envs : list SendEnv) :
  0 < W <= Time.maxDuration -> N < 2 ^ 63 -> 0 <= ws ->
  forall w c,
    open_window cfg phone c ws (rate w) ->
    1 <= c -> c + Z.of_nat (List.length envs) <= N ->
    Forall healthy envs -> Forall issues envs ->
    Forall (fun env => t_check env < ws + W /\ t_update env < ws + W
                       /\ ws <= t_store env < ws + W) envs ->
    List.NoDup (map handle envs ++ tokens_of w)%list ->
    Forall (fun r => is_ok r = true)
           (snd (send_all cfg Duration_String envs phone w))
    /\ open_window cfg phone (c + Z.of_nat (List.length envs)) ws
                   (rate (fst (send_all cfg Duration_String envs phone w)))
    /\ forall h, In h (tokens_of (fst (send_all cfg Duration_String envs phone w)))
                 -> In h (map handle envs ++ tokens_of w)%list.
Proof.
  intros HW HN Hws.
  induction envs as [|env envs IH]; intros w c Hopen Hc Hlen Hh Hi Ht Hnd.
  - simpl. rewrite Z.add_0_r. repeat split; auto.
  - change (List.length (env :: envs)) with (S (List.length envs)) in *.
    rewrite Nat2Z.inj_succ in *.
    apply Forall_cons_iff in Hh as [(Hg1 & Hg2 & Hs) Hh].
    apply Forall_cons_iff in Hi as [Hi1 Hi].
    apply Forall_cons_iff in Ht as [(Ht1 & Ht2 & Ht3) Ht].
    simpl in Hnd. apply NoDup_cons_iff in Hnd as [Hfresh Hnd].
    assert (IsRateLimited cfg (check_io env) (t_check env) phone (rate w)
            = (rate w, Ok false)) as Hlim.
    { rewrite (limited_in_window _ _ _ c ws) by (auto; lia).
      assert ((N <=? c) = false) as ->; [apply Z.leb_gt; lia | reflexivity]. }
    destruct (update_counts (update_io env) (t_update env) (t_store env) phone c ws
                (rate w) Hg2 Hs Hopen HW) as (st' & Hupd & Hopen'); try lia.
    destruct (SendOTP_allowed env phone w st' Hlim Hi1) as (w' & resp & Hsend & Hr & Htok);
      [rewrite in_app_iff in Hfresh; tauto | exact Hupd |].
    simpl. rewrite Hsend.
    destruct (send_all cfg Duration_String envs phone w') as [w2 rs] eqn:Hrest.
    specialize (IH w' (c + 1)). rewrite Hrest, Hr in IH. simpl in IH |- *.
    destruct IH as (Hok & Hopen2 & Hsub); auto; try lia.
    { rewrite Htok. rewrite app_assoc. apply NoDup_snoc. exact Hnd. exact Hfresh. }
    split; [constructor; auto|]. split.
    + replace (c + Z.succ (Z.of_nat (List.length envs)))
        with (c + 1 + Z.of_nat (List.length envs)) by lia. exact Hopen2.
    + intros h Hin. apply Hsub in Hin. rewrite Htok in Hin.
      rewrite !in_app_iff in *. simpl in *. tauto.
Qed.


Lemma open_window_stored phone c ws w :
  open_window cfg phone c ws (rate w) ->
  exists last, stored phone w = Some (RateLimitInfo.mk phone c last ws).
Proof.
  intros (last & e & Hk & _). exists last. unfold stored. rewrite Hk. reflexivity.
Qed.

(** C3: with [N] the configured maximum (at least 1) and [W] the window,
    take [N] sends for a phone number without a record, the first of which
    opens the window at its reading [t_update], all with clock readings
    inside that window, and all issuing their challenge.  Then every one of
    them succeeds and the stored count is [N]; a further send inside the
    window is rejected with the rate-limit error and leaves every store as
    it was, so the count is not incremented; and a send whose first reading
    is [W] or more after the window start succeeds and stores a count of 1
    with a window start read from its own clock. *)
Theorem rate_limit_window phone first rest over next w :
  1 <= N < 2 ^ 63 -> 0 < W <= Time.maxDuration ->
  Z.of_nat (List.length (first :: rest)) = N ->
  rate w !! key phone = None ->
  Forall healthy (first :: rest) -> Forall issues (first :: rest) ->
  List.NoDup (map handle (first :: rest) ++ tokens_of w)%list ->
  0 <= t_update first -> t_update first <= t_store first < t_update first + W ->
  Forall (fun env => t_check env < t_update first + W
                     /\ t_update env < t_update first + W
                     /\ t_update first <= t_store env < t_update first + W) rest ->
  let run := send_all cfg Duration_String (first :: rest) phone w in
  Forall (fun r => is_ok r = true) (snd run)
  /\ (exists last,
        stored phone (fst run)
        = Some (RateLimitInfo.mk phone N last (t_update first)))
  /\ (get_err (check_io over) = None -> t_check over < t_update first + W ->
      SendOTP cfg Duration_String over phone (fst run)
      = (fst run, Err (rate_limit_exceeded cfg Duration_String)))
  /\ (healthy next -> issues next -> monotone next ->
      ~ In (handle next) (tokens_of (fst run)) ->
      W <= t_check next - t_update first ->
      exists w2 resp last start,
        SendOTP cfg Duration_String next phone (fst run) = (w2, Ok resp)
        /\ stored phone w2 = Some (RateLimitInfo.mk phone 1 last start)
        /\ t_update next <= start <= t_store next).
Proof.
  intros HN HW Hlen Hnone Hh Hi Hnd H0 Hfirst Hrest run.
  apply Forall_cons_iff in Hh as [(Hg1 & Hg2 & Hs) Hh].
  apply Forall_cons_iff in Hi as [Hi1 Hi].
  simpl in Hnd. apply NoDup_cons_iff in Hnd as [Hfresh Hnd].
  change (List.length (first :: rest)) with (S (List.length rest)) in Hlen.
  rewrite Nat2Z.inj_succ in Hlen.
  (* the first send opens the window *)
  pose proof (not_limited_without_record (check_io first) (t_check first) phone
                (rate w) Hg1 Hnone ltac:(lia)) as Hlim.
  destruct (update_starts_window (update_io first) (t_update first) (t_store first)
              phone (rate w) Hg2 Hs (seen_absent phone (rate w) _ Hnone))
    as (st1 & Hupd & Hopen1); try lia.
  destruct (SendOTP_allowed first phone w st1 Hlim Hi1) as (w1 & resp & Hsend & Hr & Htok);
    [rewrite in_app_iff in Hfresh; tauto | exact Hupd |].
  (* the others count up to the limit *)
  rewrite <- Hr in Hopen1.
  destruct (sends_within_window phone (t_update first) rest HW ltac:(lia) H0
              w1 1 Hopen1 ltac:(lia) ltac:(lia) Hh Hi Hrest)
    as (Hok & HopenN & Hsub).
  { rewrite Htok, app_assoc. apply NoDup_snoc; assumption. }
  assert (fst run = fst (send_all cfg Duration_String rest phone w1)) as Hrun1.
  { unfold run. simpl. rewrite Hsend.
    destruct (send_all cfg Duration_String rest phone w1); reflexivity. }
  assert (snd run = Ok resp :: snd (send_all cfg Duration_String rest phone w1)) as Hrun2.
  { unfold run. simpl. rewrite Hsend.
    destruct (send_all cfg Duration_String rest phone w1); reflexivity. }
  rewrite Hrun1, Hrun2.
  replace (1 + Z.of_nat (List.length rest)) with N in HopenN by lia.
  split; [constructor; auto|]. split; [apply open_window_stored; exact HopenN|]. split.
  - intros Hget Hcheck. apply SendOTP_rejected.
    rewrite (limited_in_window _ _ _ N (t_update first)) by (auto; lia).
    rewrite Z.leb_refl. reflexivity.
  - intros (Hn1 & Hn2 & Hn3) Hni (Hm1 & Hm2) Hnf Hover.
    set (wN := fst (send_all cfg Duration_String rest phone w1)) in *.
    pose proof (not_limited_after_window (check_io next) (t_check next) phone N
                  (t_update first) (rate wN) Hn1 HopenN ltac:(lia) HW H0 Hover) as Hl.
    destruct (update_restarts (update_io next) (t_update next) (t_store next) phone N
                (t_update first) (rate wN) Hn2 Hn3 HopenN HW H0)
      as (st2 & start & Hupd2 & Hstart & Hopen2); try lia.
    destruct (SendOTP_allowed next phone wN st2 Hl Hni Hnf Hupd2)
      as (w2 & resp2 & Hsend2 & Hr2 & _).
    rewrite <- Hr2 in Hopen2.
    destruct (open_window_stored phone 1 start w2 Hopen2) as [last Hst].
    exists w2, resp2, last, start. auto.
Qed.


(** C6, as the code has it: a failure of the rate-limit read that precedes
    issuance makes [SendOTP] return an error and leaves every store as it
    was; a failure of the rate-limit update that follows the creation of the
    challenge is dropped: the send succeeds and the rate-limit store is as
    it was, so the send is not counted. *)
Theorem rate_limit_failure env phone w :
  (forall e, get_err (check_io env) = Some e ->
     SendOTP cfg Duration_String env phone w
     = (w, Err (wrap "failed to check rate limit"
                  (wrap "failed to get rate limit info"
                     (wrap "failed to get rate limit info" e)))))
  /\ (IsRateLimited cfg (check_io env) (t_check env) phone (rate w)
      = (rate w, Ok false) ->
      issues env -> ~ In (handle env) (tokens_of w) ->
      get_err (update_io env) <> None \/ set_err (update_io env) <> None ->
      exists w' resp,
        SendOTP cfg Duration_String env phone w = (w', Ok resp)
        /\ rate w' = rate w
        /\ tokens_of w' = (tokens_of w ++ [handle env])%list).
Proof.
  split.
  - intros e He. unfold SendOTP, bind, or_wrap, on_rate, IsRateLimited, GetRateLimit.
    rewrite He. simpl. destruct w; reflexivity.
  - intros Hlim (Hint & Hbytes & Hins) Hfresh Hfault.
    assert (exists e, updateRateLimit cfg (update_io env) (t_update env) (t_store env)
                        phone (rate w) = (rate w, Err e)) as [e Hupd].
    { unfold updateRateLimit, bind, or_wrap, GetRateLimit, UpdateRateLimit.
      destruct (get_err (update_io env)) as [e1|]; [eexists; reflexivity|].
      destruct (redis_get _ _ _); simpl;
        repeat match goal with
               | |- context [if ?b then _ else _] => destruct b
               end; simpl;
        (destruct (set_err (update_io env)) as [e2|];
         [eexists; reflexivity | exfalso; destruct Hfault; congruence]). }
    unfold SendOTP, bind, or_wrap, on_rate, on_db, lift, fail. rewrite Hlim. simpl.
    unfold generateOTPCode, generateSessionToken, handle in *.
    destruct (rand_int env) as [r|]; [|discriminate].
    destruct (rand_bytes env) as [bytes|]; [|discriminate]. simpl.
    unfold OTPRepository.Create. rewrite Hins. simpl.
    destruct (existsb _ _) eqn:Hex.
    { exfalso. apply Hfresh. apply existsb_exists in Hex as (o & Hin & Ho).
      apply String.eqb_eq in Ho. simpl in Ho. rewrite <- Ho.
      unfold tokens_of. apply in_map. exact Hin. }
    simpl. rewrite Hupd. eexists _, _. split; [reflexivity|]. simpl.
    split; [reflexivity|]. unfold tokens_of. simpl. rewrite map_app. reflexivity.
Qed.

End LimiterFacts.

Section LimiterExamples.
Import RedisRateLimitRepository OTPService Limiter.

Lemma rate_limit_window_witness :
  let first := Sample.send_at Time.Second "001" in
  let rest := [Sample.send_at (10 * Time.Second) "002";
               Sample.send_at (20 * Time.Second) "003"] in
  let over := Sample.send_at (30 * Time.Second) "004" in
  let next := Sample.send_at (700 * Time.Second) "005" in
  let run := send_all default_config Sample.Duration_String (first :: rest)
                      Sample.phone Sample.empty_world in
  Forall (fun r => is_ok r = true) (snd run)
  /\ (exists last,
        stored Sample.phone (fst run)
        = Some (RateLimitInfo.mk Sample.phone 3 last (t_update first)))
  /\ (get_err (check_io over) = None ->
      t_check over < t_update first + 10 * Time.Minute ->
      SendOTP default_config Sample.Duration_String over Sample.phone (fst run)
      = (fst run, Err (rate_limit_exceeded default_config Sample.Duration_String)))
  /\ (healthy next -> issues next -> monotone next ->
      ~ In (handle next) (tokens_of (fst run)) ->
      10 * Time.Minute <= t_check next - t_update first ->
      exists w2 resp last start,
        SendOTP default_config Sample.Duration_String next Sample.phone (fst run)
        = (w2, Ok resp)
        /\ stored Sample.phone w2 = Some (RateLimitInfo.mk Sample.phone 1 last start)
        /\ t_update next <= start <= t_store next).
Proof.
  apply (rate_limit_window default_config Sample.Duration_String Sample.phone
           (Sample.send_at Time.Second "001")
           [Sample.send_at (10 * Time.Second) "002";
            Sample.send_at (20 * Time.Second) "003"]
           (Sample.send_at (30 * Time.Second) "004")
           (Sample.send_at (700 * Time.Second) "005")
           Sample.empty_world).
  - vm_compute. split; [discriminate | reflexivity].
  - vm_compute. split; [reflexivity | discriminate].
  - reflexivity.
  - apply lookup_empty.
  - repeat constructor.
  - repeat constructor.
  - simpl. repeat constructor; simpl; intuition discriminate.
  - vm_compute. discriminate.
  - vm_compute. split; [discriminate | reflexivity].
  - repeat constructor; vm_compute; try reflexivity; discriminate.
Defined.

(** The claim C6 as stated fails: when the [SET] of the rate-limit update
    fails, the send succeeds, the challenge is stored, and no record counts
    the send. *)
Lemma unmetered_send_succeeds :
  let env := Sample.send_unmetered Time.Second "001" in
  let out := SendOTP default_config Sample.Duration_String env Sample.phone
                     Sample.empty_world in
  set_err (update_io env) = Some "connection refused"
  /\ is_ok (snd out) = true
  /\ tokens_of (fst out) = [handle env]
  /\ stored Sample.phone (fst out) = None.
Proof.
  repeat split; vm_compute; reflexivity.
Qed.

Lemma rate_limit_failure_witness :
  (forall e, get_err (check_io (Sample.send_unchecked Time.Second "001")) = Some e ->
     SendOTP default_config Sample.Duration_String
             (Sample.send_unchecked Time.Second "001") Sample.phone Sample.empty_world
     = (Sample.empty_world,
        Err (wrap "failed to check rate limit"
               (wrap "failed to get rate limit info"
                  (wrap "failed to get rate limit info" e)))))
  /\ exists w' resp,
       SendOTP default_config Sample.Duration_String
               (Sample.send_unmetered Time.Second "001") Sample.phone Sample.empty_world
       = (w', Ok resp)
       /\ rate w' = rate Sample.empty_world
       /\ tokens_of w'
          = (tokens_of Sample.empty_world
             ++ [handle (Sample.send_unmetered Time.Second "001")])%list.
Proof.
  split.
  - apply (rate_limit_failure default_config Sample.Duration_String
             (Sample.send_unchecked Time.Second "001") Sample.phone Sample.empty_world).
  - apply (rate_limit_failure default_config Sample.Duration_String
             (Sample.send_unmetered Time.Second "001") Sample.phone Sample.empty_world).
    + reflexivity.
    + repeat split.
    + simpl. tauto.
    + right. discriminate.
Defined.

End LimiterExamples.

(** ** Sessions: issuance, validation and revocation *)

Section SessionFacts.
Import Session.

Variable cfg : Config.
Variable SignedString : JWTClaims.t -> string -> result string.
Variable ParseWithClaims : string -> string -> Z -> result JWTClaims.t.
Variable sha256_hex : string -> string.

(** C7: whenever signing succeeds, [GenerateToken] returns the signed token
    and no error, with or without a token service and whatever the Redis
    commands of [StoreToken] do; when the write of the record fails, the
    session store is left as it was and the token is returned all the same. *)
Theorem GenerateToken_survives_store_failure tokenService env user st tokenString :
  SignedString (JWTService.claims_of cfg env user) (JWT_Secret cfg) = Ok tokenString ->
  exists st' response,
    JWTService.GenerateToken cfg tokenService SignedString sha256_hex env user st
    = (st', Ok response)
    /\ AuthResponse.Token response = tokenString
    /\ AuthResponse.ExpiresAt response
       = Time.Add (now_expires env) (JWT_ExpirationTime cfg)
    /\ (set_err (store_io env) <> None -> st' = st).
Proof.
  intros Hsign. unfold JWTService.GenerateToken. rewrite Hsign.
  eexists _, _. split; [reflexivity|]. simpl. repeat split.
  intros Hset. destruct tokenService; [|reflexivity].
  unfold TokenService.StoreToken.
  destruct (set_err (store_io env)); [reflexivity | congruence].
Qed.

Lemma append_inj_r (p a b : string) : (p ++ a)%string = (p ++ b)%string -> a = b.
Proof.
  induction p as [|c p IH]; simpl; intros H; [exact H|].
  injection H as H. auto.
Qed.

Lemma key_inj h1 h2 : TokenService.key h1 = TokenService.key h2 -> h1 = h2.
Proof.
  apply append_inj_r.
Qed.



Lemma del_absent {V} key key' (m : gmap string (V * option Z)) :
  m !! key = None -> Redis.del key' m !! key = None.
Proof.
  intros H. unfold Redis.del.
  destruct (decide (key' = key)) as [->|Hne].
  - apply lookup_delete_eq.
  - rewrite lookup_delete_ne by exact Hne. exact H.
Qed.














End SessionFacts.

Section SessionExamples.
Import Session.

Lemma GenerateToken_survives_store_failure_witness :
  exists st' response,
    JWTService.GenerateToken default_config true Sample.sign Sample.digest
                             Sample.login_without_redis (Sample.new_user 0)
                             (sessions Sample.empty_world)
    = (st', Ok response)
    /\ AuthResponse.Token response = "jwt-1"
    /\ AuthResponse.ExpiresAt response
       = Time.Add (now_expires Sample.login_without_redis)
                  (JWT_ExpirationTime default_config)
    /\ (set_err (store_io Sample.login_without_redis) <> None ->
        st' = sessions Sample.empty_world).
Proof.
  apply (GenerateToken_survives_store_failure default_config Sample.sign Sample.digest
           true Sample.login_without_redis (Sample.new_user 0)
           (sessions Sample.empty_world) "jwt-1").
  reflexivity.
Defined.



(** What the statement above leaves out.  [ValidateToken] hands the write
    of [LastUsed] to a goroutine that reads the time to live and then sets
    the key; when the read comes before a revocation and the write after
    it, the write puts the record back and the revoked token is accepted
    again. *)
Lemma pending_refresh_restores_revoked_session :
  let validate now :=
    JWTService.ValidateToken default_config true Sample.parse Sample.digest
                             no_redis_faults now "jwt-1" in
  let st1 := fst (validate 10 Sample.logged_in) in
  let st2 := TokenService.refresh_step no_redis_faults 11 0 st1 in
  let revoke := JWTService.RevokeToken true Sample.digest no_redis_faults 12
                                       "jwt-1" st2 in
  let st3 := fst revoke in
  let st4 := TokenService.refresh_step no_redis_faults 13 0 st3 in
  pending st2 = [Armed "jwt-1" (Sample.session 10) (1000 * Time.Second - 11)]
  /\ snd revoke = Ok tt
  /\ tokens st3 !! TokenService.key "jwt-1" = None
  /\ snd (validate 14 st4) = Ok Sample.token_claims.
Proof.
  cbv zeta. split; [|split; [|split]]; vm_compute; reflexivity.
Qed.

End SessionExamples.

Section DecimalFacts.
Import Fmt Strconv.

Lemma length_app (a b : string) :
  String.length (a ++ b) = (String.length a + String.length b)%nat.
Proof.
  induction a as [|c a IH]; simpl; [reflexivity|]. rewrite IH. reflexivity.
Qed.

Lemma append_assoc (a b c : string) : ((a ++ b) ++ c = a ++ (b ++ c))%string.
Proof.
  induction a as [|x a IH]; [reflexivity|].
  change (String x ((a ++ b) ++ c) = String x (a ++ (b ++ c)))%string.
  f_equal. exact IH.
Qed.

Lemma length_replicate k c : String.length (replicate k c) = k.
Proof.
  induction k as [|k IH]; simpl; [reflexivity|]. rewrite IH. reflexivity.
Qed.

Lemma is_digit_digit d : 0 <= d < 10 -> is_digit (digit d) = true.
Proof.
  intros Hd. unfold is_digit, digit. rewrite N_ascii_embedding by lia.
  apply andb_true_iff. split; apply N.leb_le; lia.
Qed.

Lemma digit_value d : 0 <= d < 10 -> Z.of_N (N_of_ascii (digit d)) - 48 = d.
Proof.
  intros Hd. unfold digit. rewrite N_ascii_embedding by lia. lia.
Qed.

Lemma decimal_aux_app fuel :
  forall n acc, decimal_aux fuel n acc = (decimal_aux fuel n EmptyString ++ acc)%string.
Proof.
  induction fuel as [|fuel IH]; intros n acc; [reflexivity|].
  change (decimal_aux (S fuel) n acc)
    with (if n / 10 =? 0 then String (digit (n mod 10)) acc
          else decimal_aux fuel (n / 10) (String (digit (n mod 10)) acc)).
  change (decimal_aux (S fuel) n EmptyString)
    with (if n / 10 =? 0 then String (digit (n mod 10)) EmptyString
          else decimal_aux fuel (n / 10) (String (digit (n mod 10)) EmptyString)).
  destruct (n / 10 =? 0); [reflexivity|].
  rewrite (IH (n / 10) (String _ acc)), (IH (n / 10) (String _ EmptyString)).
  rewrite append_assoc. reflexivity.
Qed.

Lemma digits_value_app (s t : string) :
  forall n, digits_value (s ++ t) n
            = match digits_value s n with
              | Some m => digits_value t m
              | None => None
              end.
Proof.
  induction s as [|c s IH]; intros n; simpl; [reflexivity|].
  destruct (is_digit c); [apply IH | reflexivity].
Qed.

(** Reading the digits [decimal_aux] writes gives the number back, after
    the digits read before. *)
Lemma digits_value_decimal_aux fuel :
  forall n, 0 <= n < 2 ^ Z.of_nat fuel ->
    exists k : nat,
      String.length (decimal_aux fuel n EmptyString) = k /\
      forall a, digits_value (decimal_aux fuel n EmptyString) a
                = Some (a * 10 ^ Z.of_nat k + n).
Proof.
  induction fuel as [|fuel IH]; intros n Hn.
  - change (2 ^ Z.of_nat 0) with 1 in Hn. assert (n = 0) as -> by lia.
    exists 0%nat. split; [reflexivity|]. intros a. simpl. f_equal. lia.
  - change (decimal_aux (S fuel) n EmptyString)
      with (if n / 10 =? 0 then String (digit (n mod 10)) EmptyString
            else decimal_aux fuel (n / 10) (String (digit (n mod 10)) EmptyString)).
    assert (0 <= n mod 10 < 10) as Hd by (apply Z.mod_pos_bound; lia).
    destruct (n / 10 =? 0) eqn:E.
    + apply Z.eqb_eq in E. exists 1%nat. split; [reflexivity|]. intros a.
      simpl. rewrite is_digit_digit, digit_value by exact Hd.
      f_equal. pose proof (Z.div_mod n 10 ltac:(lia)). lia.
    + rewrite decimal_aux_app.
      assert (0 <= n / 10 < 2 ^ Z.of_nat fuel) as Hq.
      { split; [apply Z.div_pos; lia|].
        apply Z.div_lt_upper_bound; [lia|].
        rewrite Nat2Z.inj_succ, Z.pow_succ_r in Hn by lia. lia. }
      destruct (IH (n / 10) Hq) as [k [Hlen Hval]].
      exists (S k). split; [rewrite length_app, Hlen; simpl; lia|].
      intros a. rewrite digits_value_app, Hval. simpl.
      rewrite is_digit_digit, digit_value by exact Hd. f_equal.
      rewrite Nat2Z.inj_succ, Z.pow_succ_r by lia.
      pose proof (Z.div_mod n 10 ltac:(lia)). lia.
Qed.

Lemma digits_value_decimal n :
  0 <= n -> digits_value (decimal n) 0 = Some n.
Proof.
  intros Hn. unfold decimal.
  destruct (digits_value_decimal_aux (S (Z.to_nat (Z.log2 n))) n) as [k [_ H]].
  { split; [exact Hn|].
    rewrite Nat2Z.inj_succ, Z2Nat.id by apply Z.log2_nonneg.
    destruct (Z.eq_dec n 0) as [->|Hne]; [reflexivity|].
    apply Z.log2_spec. lia. }
  rewrite H. f_equal.
Qed.

Lemma digits_value_zeros k s :
  digits_value (replicate k "0" ++ s) 0 = digits_value s 0.
Proof.
  induction k as [|k IH]; [reflexivity|].
  change (replicate (S k) "0" ++ s)%string
    with (String "0" (replicate k "0" ++ s))%string.
  simpl. exact IH.
Qed.

Lemma length_decimal_aux fuel :
  forall (k : nat) n acc,
    (1 <= k)%nat -> 0 <= n < 10 ^ Z.of_nat k ->
    (String.length acc + 1 <= String.length (decimal_aux (S fuel) n acc)
     <= String.length acc + k)%nat.
Proof.
  induction fuel as [|fuel IH]; intros k n acc Hk Hn.
  - simpl. destruct (n / 10 =? 0); simpl; lia.
  - change (decimal_aux (S (S fuel)) n acc)
      with (let acc' := String (digit (n mod 10)) acc in
            if n / 10 =? 0 then acc' else decimal_aux (S fuel) (n / 10) acc').
    cbv zeta. destruct (n / 10 =? 0) eqn:E; [simpl; lia|].
    apply Z.eqb_neq in E.
    destruct k as [|[|k]]; [lia | |].
    + exfalso. apply E. apply Z.div_small. simpl in Hn. lia.
    + assert (0 <= n / 10 < 10 ^ Z.of_nat (S k)) as Hq.
      { split; [apply Z.div_pos; lia|].
        apply Z.div_lt_upper_bound; [lia|].
        rewrite (Nat2Z.inj_succ (S k)), Z.pow_succ_r in Hn by lia. apply Hn. }
      pose proof (IH (S k) (n / 10) (String (digit (n mod 10)) acc) ltac:(lia) Hq) as H.
      change (String.length (String (digit (n mod 10)) acc))
        with (S (String.length acc)) in H.
      lia.
Qed.

Lemma length_decimal (k : nat) n :
  (1 <= k)%nat -> 0 <= n < 10 ^ Z.of_nat k ->
  (1 <= String.length (decimal n) <= k)%nat.
Proof.
  intros Hk Hn. unfold decimal.
  pose proof (length_decimal_aux (Z.to_nat (Z.log2 n)) k n EmptyString Hk Hn) as H.
  change (String.length EmptyString) with 0%nat in H. lia.
Qed.

(** X1: for a configured length between 1 and 10000009 (the widest the
    format parser of [fmt] reads), the code generated from a random number
    below [maxValue] has exactly that many characters, every one a decimal
    digit, and read as a number it is the random number: distinct draws give
    distinct codes. *)
Theorem generateOTPCode_digits cfg randomNumber :
  1 <= OTP_Length cfg <= 10000009 ->
  0 <= randomNumber < OTPService.maxValue cfg ->
  exists code,
    OTPService.generateOTPCode cfg (Ok randomNumber) = Ok code
    /\ String.length code = Z.to_nat (OTP_Length cfg)
    /\ digits_value code 0 = Some randomNumber.
Proof.
  intros HL Hr. unfold OTPService.maxValue in Hr. rewrite Z.max_r in Hr by lia.
  unfold OTPService.generateOTPCode, Sprintf_0Nd.
  assert ((1000000 <? Z.abs (OTP_Length cfg) / 10) = false) as ->.
  { apply Z.ltb_ge. rewrite Z.abs_eq by lia.
    apply Z.lt_succ_r. apply Z.div_lt_upper_bound; lia. }
  assert ((OTP_Length cfg =? 0) = false) as -> by (apply Z.eqb_neq; lia).
  assert ((0 <? OTP_Length cfg) = true) as -> by (apply Z.ltb_lt; lia).
  eexists. split; [reflexivity|].
  rewrite <- (Z2Nat.id (OTP_Length cfg)) in Hr by lia.
  pose proof (length_decimal (Z.to_nat (OTP_Length cfg)) randomNumber
                ltac:(lia) Hr) as Hlen.
  unfold pad_left. split.
  - rewrite length_app, length_replicate. lia.
  - rewrite digits_value_zeros. apply digits_value_decimal. lia.
Qed.

(** What [%d] writes, [strconv.Atoi] reads back. *)
Lemma decimal_first n :
  0 <= n -> exists c rest, decimal n = String c rest /\ is_digit c = true.
Proof.
  intros Hn. pose proof (digits_value_decimal n Hn) as H.
  pose proof (length_decimal 64 n ltac:(lia)) as _.
  destruct (decimal n) as [|c rest] eqn:E.
  - exfalso. revert E. unfold decimal.
    change (decimal_aux (S (Z.to_nat (Z.log2 n))) n EmptyString)
      with (if n / 10 =? 0 then String (digit (n mod 10)) EmptyString
            else decimal_aux (Z.to_nat (Z.log2 n)) (n / 10)
                             (String (digit (n mod 10)) EmptyString)).
    destruct (n / 10 =? 0); [discriminate|].
    rewrite decimal_aux_app.
    destruct (decimal_aux _ _ EmptyString); discriminate.
  - exists c, rest. split; [reflexivity|].
    simpl in H. destruct (is_digit c); [reflexivity | discriminate].
Qed.

Lemma Atoi_digits c rest n :
  is_digit c = true -> digits_value (String c rest) 0 = Some n ->
  n <= 2 ^ 63 - 1 -> 0 <= n ->
  Atoi (String c rest) = Some n.
Proof.
  intros Hc Hv Hmax Hmin. unfold Atoi.
  destruct (Ascii.eqb c "-") eqn:E1.
  { apply Ascii.eqb_eq in E1. subst c. discriminate. }
  destruct (Ascii.eqb c "+") eqn:E2.
  { apply Ascii.eqb_eq in E2. subst c. discriminate. }
  rewrite Hv.
  assert ((- 2 ^ 63 <=? n) && (n <=? 2 ^ 63 - 1) = true) as ->; [|reflexivity].
  apply andb_true_iff. split; apply Z.leb_le; lia.
Qed.

Lemma Atoi_int_text z :
  - 2 ^ 63 <= z <= 2 ^ 63 - 1 -> Atoi (int_text z) = Some z.
Proof.
  intros Hz. unfold int_text. destruct (z <? 0) eqn:Eneg.
  - apply Z.ltb_lt in Eneg.
    destruct (decimal_first (- z) ltac:(lia)) as [c [rest [E Hc]]].
    pose proof (digits_value_decimal (- z) ltac:(lia)) as Hv.
    rewrite E in *. unfold Atoi.
    change (Ascii.eqb "-" "-") with true. cbv iota beta. rewrite Hv.
    rewrite Z.opp_involutive.
    assert ((- 2 ^ 63 <=? z) && (z <=? 2 ^ 63 - 1) = true) as ->; [|reflexivity].
    apply andb_true_iff. split; apply Z.leb_le; lia.
  - apply Z.ltb_ge in Eneg.
    destruct (decimal_first z Eneg) as [c [rest [E Hc]]].
    pose proof (digits_value_decimal z Eneg) as Hv.
    rewrite E in *. apply Atoi_digits; [exact Hc | exact Hv | lia | lia].
Qed.

Lemma int_text_inj z1 z2 : int_text z1 = int_text z2 -> z1 = z2.
Proof.
  unfold int_text. intros H.
  destruct (z1 <? 0) eqn:E1; destruct (z2 <? 0) eqn:E2;
    try apply Z.ltb_lt in E1; try apply Z.ltb_lt in E2;
    try apply Z.ltb_ge in E1; try apply Z.ltb_ge in E2.
  - injection H as H.
    pose proof (digits_value_decimal (- z1) ltac:(lia)) as H1.
    pose proof (digits_value_decimal (- z2) ltac:(lia)) as H2.
    rewrite H in H1. rewrite H1 in H2. injection H2 as H2. lia.
  - destruct (decimal_first z2 E2) as [c [rest [E Hc]]].
    rewrite E in H. injection H as <- _. discriminate.
  - destruct (decimal_first z1 E1) as [c [rest [E Hc]]].
    rewrite E in H. injection H as -> _. discriminate.
  - pose proof (digits_value_decimal z1 E1) as H1.
    pose proof (digits_value_decimal z2 E2) as H2.
    rewrite H in H1. rewrite H1 in H2. injection H2 as H2. lia.
Qed.

End DecimalFacts.

Section HexFacts.
Import Fmt Strings.

Lemma hex_digit_inj d1 d2 :
  (d1 < 16)%N -> (d2 < 16)%N -> hex_digit d1 = hex_digit d2 -> d1 = d2.
Proof.
  intros H1 H2 H. apply (f_equal N_of_ascii) in H. revert H. unfold hex_digit.
  destruct (d1 <? 10)%N eqn:E1; destruct (d2 <? 10)%N eqn:E2;
    try apply N.ltb_lt in E1; try apply N.ltb_lt in E2;
    try apply N.ltb_ge in E1; try apply N.ltb_ge in E2;
    rewrite !N_ascii_embedding by lia; lia.
Qed.

Lemma hex_digit_lower d : (d < 16)%N -> is_lower_hex (hex_digit d) = true.
Proof.
  intros H. unfold is_lower_hex, Strconv.is_digit, hex_digit.
  destruct (d <? 10)%N eqn:E;
    [apply N.ltb_lt in E | apply N.ltb_ge in E];
    rewrite N_ascii_embedding by lia.
  - apply orb_true_iff. left. apply andb_true_iff. split; apply N.leb_le; lia.
  - apply orb_true_iff. right. apply andb_true_iff. split; apply N.leb_le; lia.
Qed.

Lemma byte_bound (b : ascii) : (N_of_ascii b < 256)%N.
Proof.
  apply N_ascii_bounded.
Qed.

(** X2: the session handle has two characters a random byte, each one of
    [0-9a-f] (64 characters for the 32 bytes the service draws), and
    distinct byte strings give distinct handles. *)
Theorem generateSessionToken_faithful :
  (forall bytes,
     exists sessionToken,
       OTPService.generateSessionToken (Ok bytes) = Ok sessionToken
       /\ String.length sessionToken = (2 * List.length bytes)%nat
       /\ all_lower_hex sessionToken = true)
  /\ (forall bytes1 bytes2,
        OTPService.generateSessionToken (Ok bytes1)
        = OTPService.generateSessionToken (Ok bytes2) ->
        bytes1 = bytes2).
Proof.
  split.
  - intros bytes. eexists. split; [reflexivity|].
    induction bytes as [|b bytes [IHlen IHhex]]; [split; reflexivity|].
    pose proof (byte_bound b) as Hb.
    split.
    + simpl String.length. rewrite IHlen. simpl. lia.
    + simpl. rewrite !hex_digit_lower, IHhex; [reflexivity | |].
      * apply N.mod_lt. lia.
      * apply N.Div0.div_lt_upper_bound. lia.
  - unfold OTPService.generateSessionToken. intros b1.
    induction b1 as [|x b1 IH]; intros [|y b2] H; simpl in H;
      try reflexivity; try discriminate.
    injection H as Hhi Hlo Hrest.
    pose proof (byte_bound x) as Hx. pose proof (byte_bound y) as Hy.
    apply hex_digit_inj in Hhi;
      [| apply N.Div0.div_lt_upper_bound; lia | apply N.Div0.div_lt_upper_bound; lia].
    apply hex_digit_inj in Hlo; [| apply N.mod_lt; lia | apply N.mod_lt; lia].
    f_equal.
    + rewrite <- (ascii_N_embedding x), <- (ascii_N_embedding y). f_equal.
      rewrite (N.div_mod (N_of_ascii x) 16), (N.div_mod (N_of_ascii y) 16) by lia.
      rewrite Hhi, Hlo. reflexivity.
    + apply IH. f_equal. exact Hrest.
Qed.

End HexFacts.

Section CodeLengthFacts.
Import Fmt Utf8 StructValidator.

Lemma count_ascii (s : string) :
  ascii_only s = true -> RuneCountInString s = String.length s.
Proof.
  unfold RuneCountInString.
  induction s as [|c s IH]; simpl; [reflexivity|].
  intros H. apply andb_true_iff in H as [Hc Hs].
  unfold rune_size. rewrite Hc. simpl. rewrite IH by exact Hs. reflexivity.
Qed.

Lemma ascii_only_app (a b : string) :
  ascii_only (a ++ b) = ascii_only a && ascii_only b.
Proof.
  induction a as [|c a IH]; simpl; [reflexivity|].
  rewrite IH, andb_assoc. reflexivity.
Qed.

Lemma ascii_only_replicate k c :
  (N_of_ascii c <? 128)%N = true -> ascii_only (replicate k c) = true.
Proof.
  intros Hc. induction k as [|k IH]; simpl; [reflexivity|]. rewrite Hc, IH. reflexivity.
Qed.

Lemma digit_ascii d : 0 <= d < 10 -> (N_of_ascii (digit d) <? 128)%N = true.
Proof.
  intros Hd. unfold digit. rewrite N_ascii_embedding by lia. apply N.ltb_lt. lia.
Qed.

Lemma ascii_only_decimal_aux fuel :
  forall n acc, ascii_only acc = true -> ascii_only (decimal_aux fuel n acc) = true.
Proof.
  induction fuel as [|fuel IH]; simpl; intros n acc Hacc; [exact Hacc|].
  assert (ascii_only (String (digit (n mod 10)) acc) = true) as Hacc'.
  { simpl. rewrite digit_ascii, Hacc; [reflexivity|]. apply Z.mod_pos_bound. lia. }
  destruct (n / 10 =? 0); [exact Hacc' | apply IH; exact Hacc'].
Qed.

Lemma ascii_only_decimal n : ascii_only (decimal n) = true.
Proof.
  apply ascii_only_decimal_aux. reflexivity.
Qed.

Lemma Sprintf_0Nd_ascii width n : ascii_only (Sprintf_0Nd width n) = true.
Proof.
  unfold Sprintf_0Nd, pad_left, pad_right.
  repeat match goal with
         | |- context [if ?b then _ else _] => destruct b
         end;
    rewrite ?ascii_only_app, ?ascii_only_decimal, ?ascii_only_replicate;
    reflexivity.
Qed.

(** The number of characters of a generated code. *)
Lemma Sprintf_0Nd_length width n :
  0 <= n < 10 ^ Z.max 0 width ->
  width <> 6 -> width <> -6 ->
  String.length (Sprintf_0Nd width n) <> 6%nat.
Proof.
  intros Hn H6 Hm6. unfold Sprintf_0Nd.
  destruct (1000000 <? Z.abs width / 10) eqn:Ebig.
  { rewrite !length_app. generalize (String.length (decimal n)). intros m. simpl. lia. }
  destruct (width =? 0) eqn:E0.
  { apply Z.eqb_eq in E0. subst width. change (10 ^ Z.max 0 0) with 1 in Hn.
    assert (n = 0) as -> by lia. discriminate. }
  apply Z.eqb_neq in E0.
  destruct (0 <? width) eqn:Epos.
  - apply Z.ltb_lt in Epos. rewrite Z.max_r in Hn by lia.
    rewrite <- (Z2Nat.id width) in Hn by lia.
    pose proof (length_decimal (Z.to_nat width) n ltac:(lia) Hn) as Hlen.
    unfold pad_left. rewrite length_app, length_replicate. lia.
  - apply Z.ltb_ge in Epos. rewrite Z.max_l in Hn by lia.
    change (10 ^ 0) with 1 in Hn. assert (n = 0) as -> by lia.
    unfold pad_right. rewrite length_app, length_replicate.
    change (String.length (decimal 0)) with 1%nat. lia.
Qed.

Lemma validation_checks_length req :
  ValidateStruct_VerifyOTPRequest req = None ->
  RuneCountInString (Code req) = 6%nat.
Proof.
  unfold ValidateStruct_VerifyOTPRequest, report, first_failure, required, len.
  destruct (String.eqb (Token req) ""); destruct (String.eqb (Code req) "");
    destruct (RuneCountInString (Code req) =? 6)%nat eqn:E; simpl;
    try discriminate.
  intros _. apply Nat.eqb_eq. exact E.
Qed.

Lemma validation_rejects_length req :
  RuneCountInString (Code req) <> 6%nat ->
  exists details, ValidateStruct_VerifyOTPRequest req = Some details.
Proof.
  intros H. destruct (ValidateStruct_VerifyOTPRequest req) as [details|] eqn:E; [eauto|].
  apply validation_checks_length in E. contradiction.
Qed.

Section Endpoint.
Variable cfg : Config.
Variable tokenService : bool.
Variable SignedString : JWTClaims.t -> string -> result string.
Variable sha256_hex : string -> string.

(** X3: the verify endpoint answers 400 unless the code of the request has
    exactly 6 characters, whatever length is configured; and for every
    configured length other than 6 and -6, a request carrying a code that
    [generateOTPCode] produced is answered 400 [Validation failed] with
    every store untouched, the OTP service not being called. *)
Theorem verify_endpoint_code_length env req w :
  (status_of (snd (OTPController.VerifyOTP cfg tokenService SignedString sha256_hex
                                           env req w)) <> StatusBadRequest ->
   RuneCountInString (Code req) = 6%nat)
  /\ (forall randomNumber,
        OTP_Length cfg <> 6 -> OTP_Length cfg <> -6 ->
        0 <= randomNumber < OTPService.maxValue cfg ->
        OTPService.generateOTPCode cfg (Ok randomNumber) = Ok (Code req) ->
        exists details,
          OTPController.VerifyOTP cfg tokenService SignedString sha256_hex env req w
          = (w, JSONError StatusBadRequest "Validation failed" details)).
Proof.
  split.
  - unfold OTPController.VerifyOTP.
    destruct (ValidateStruct_VerifyOTPRequest req) as [details|] eqn:E.
    + simpl. intros H. contradiction.
    + intros _. apply validation_checks_length. exact E.
  - intros r H6 Hm6 Hr Hgen.
    unfold OTPService.generateOTPCode in Hgen. injection Hgen as Hcode.
    destruct (validation_rejects_length req) as [details Hd].
    { rewrite <- Hcode, count_ascii by apply Sprintf_0Nd_ascii.
      apply Sprintf_0Nd_length; assumption. }
    exists details. unfold OTPController.VerifyOTP. rewrite Hd. reflexivity.
Qed.

End Endpoint.
End CodeLengthFacts.

Section SendEndpointFacts.
Import StructValidator Validator.

Variable cfg : Config.
Variable Duration_String : Z -> string.

Lemma validatePhoneNumber_nonempty : validatePhoneNumber "" = false.
Proof.
  reflexivity.
Qed.

(** The request passes validation exactly when the validator accepts the
    phone number; an empty one is reported as missing. *)
Lemma ValidateStruct_SendOTPRequest_spec req :
  ValidateStruct_SendOTPRequest req
  = if validatePhoneNumber (send_PhoneNumber req) then None
    else if String.eqb (send_PhoneNumber req) ""
         then Some "validation failed: phone_number is required"
         else Some "validation failed: phone_number must be a valid phone number (format: +1234567890)".
Proof.
  unfold ValidateStruct_SendOTPRequest, report, first_failure, required, phone_number.
  destruct (String.eqb (send_PhoneNumber req) "") eqn:E.
  - apply String.eqb_eq in E. rewrite E. reflexivity.
  - destruct (validatePhoneNumber (send_PhoneNumber req)); reflexivity.
Qed.

(** X4: the send endpoint answers a phone number the validator rejects
    with 400 [Validation failed] before the service is called: whatever the
    clock, the random source and the stores do, no store is changed, so no
    challenge is created and no request is counted. *)
Theorem send_endpoint_rejects_invalid_phone env req w :
  validatePhoneNumber (send_PhoneNumber req) = false ->
  exists details,
    OTPSendController.SendOTP cfg Duration_String env req w
    = (w, SendError StatusBadRequest "Validation failed" details).
Proof.
  intros H. unfold OTPSendController.SendOTP.
  rewrite ValidateStruct_SendOTPRequest_spec, H.
  destruct (String.eqb _ ""); eauto.
Qed.

Lemma Contains_rate_limit_exceeded :
  Strings.Contains (OTPService.rate_limit_exceeded cfg Duration_String)
                   "rate limit exceeded" = true.
Proof.
  reflexivity.
Qed.

(** X5: a valid request for a phone number whose window is open and whose
    count has reached the limit is answered 429 [Rate limit exceeded], and
    leaves every store as it was. *)
Theorem send_endpoint_rate_limited env req w count start :
  validatePhoneNumber (send_PhoneNumber req) = true ->
  get_err (check_io env) = None ->
  Limiter.open_window cfg (send_PhoneNumber req) count start (rate w) ->
  0 < RateLimit_WindowDuration cfg ->
  t_check env < start + RateLimit_WindowDuration cfg ->
  RateLimit_MaxRequests cfg <= count ->
  OTPSendController.SendOTP cfg Duration_String env req w
  = (w, SendError StatusTooManyRequests "Rate limit exceeded"
          "Maximum 3 OTP requests per phone number within 10 minutes. Please try again later.").
Proof.
  intros Hvalid Hget Hopen HW Hnow Hcount.
  unfold OTPSendController.SendOTP.
  rewrite ValidateStruct_SendOTPRequest_spec, Hvalid.
  rewrite (SendOTP_rejected cfg Duration_String env (send_PhoneNumber req) w).
  - unfold OTPSendController.send_failure.
    rewrite Contains_rate_limit_exceeded. reflexivity.
  - rewrite (limited_in_window cfg (check_io env) (t_check env)
               (send_PhoneNumber req) count start (rate w) Hget Hopen HW Hnow).
    do 2 f_equal. apply Z.leb_le. exact Hcount.
Qed.

End SendEndpointFacts.

Section RoundTripFacts.
Import OTPRepository OTPService Challenge.

Variable cfg : Config.
Variable Duration_String : Z -> string.

(** The right code before expiry, on a table that keeps the handles apart. *)
Lemma verify_right_code now d o :
  unique_tokens d -> In o (otps d) -> OTP.IsUsed o = false ->
  now < OTP.ExpiresAt o -> no_inactive_user (OTP.PhoneNumber o) d ->
  exists d' u,
    VerifyOTP no_sql_faults now (OTP.SessionToken o) (OTP.Code o) d = (d', Ok u)
    /\ User.PhoneNumber u = OTP.PhoneNumber o
    /\ In (OTP.set_used now o) (otps d').
Proof.
  intros Hu Hin Hused Hexp Hact.
  unfold VerifyOTP, bind, or_wrap.
  rewrite (lookup_unique no_sql_faults now d o Hu Hin Hused Hexp eq_refl).
  unfold VerifyOTP_consume, bind, or_wrap, MarkAsUsed. simpl.
  rewrite (rows_affected_hit (otps d) o Hin Hused).
  destruct (resolve_succeeds now (OTP.PhoneNumber o)
              (mkDB (mark_rows now (OTP.ID o) (otps d)) (otp_seq d)
                    (users d) (user_seq d)) Hact) as (d' & u & Hres & Hp).
  exists d', u. rewrite Hres. repeat split; [exact Hp|].
  apply resolve_otps in Hres. rewrite Hres. simpl.
  apply In_mark_rows_hit; assumption.
Qed.

(** What a successful [SendOTP] has drawn, stored and returned. *)
Lemma SendOTP_success_inv env phone w w1 response :
  SendOTP cfg Duration_String env phone w = (w1, Ok response) ->
  exists randomNumber bytes code,
    rand_int env = Ok randomNumber
    /\ rand_bytes env = Ok bytes
    /\ generateOTPCode cfg (Ok randomNumber) = Ok code
    /\ ~ In (Fmt.hex bytes) (map OTP.SessionToken (otps (db w)))
    /\ db w1
       = mkDB (otps (db w)
               ++ [OTP.mk (otp_seq (db w)) phone code (Fmt.hex bytes)
                          (Time.Add (t_issue env) (OTP_ExpirationTime cfg))
                          false (t_issue env) None])
              (otp_seq (db w) + 1) (users (db w)) (user_seq (db w))
    /\ response
       = OTPResponse.mk "OTP sent successfully" (Fmt.hex bytes) phone
                        (Time.Add (t_issue env) (OTP_ExpirationTime cfg)).
Proof.
  unfold SendOTP, bind, or_wrap, on_rate, on_db, lift, fail.
  destruct (IsRateLimited _ _ _ _ _) as [st [[|]|e]]; try discriminate.
  unfold generateOTPCode, generateSessionToken.
  destruct (rand_int env) as [r|]; [|discriminate].
  destruct (rand_bytes env) as [bytes|]; [|discriminate]. simpl.
  unfold OTPRepository.Create.
  destruct (otp_insert_err (sql_io env)); [discriminate|].
  destruct (existsb _ _) eqn:Hex; [discriminate|]. simpl.
  destruct (updateRateLimit _ _ _ _ _ _) as [st' r'].
  intros [= <- <-]. exists r, bytes, (Fmt.Sprintf_0Nd (OTP_Length cfg) r).
  repeat split.
  intros Hin. apply in_map_iff in Hin as (o & Ho & Hin).
  assert (existsb (fun o => String.eqb (OTP.SessionToken o) (Fmt.hex bytes)) (otps (db w))
          = true) as E.
  { apply existsb_exists. exists o. split; [exact Hin|]. apply String.eqb_eq. exact Ho. }
  simpl in Hex. congruence.
Qed.

(** X6: the handle a successful [SendOTP] returns and the code it
    generated are accepted by [VerifyOTP] at every instant before the
    returned expiry, and the user returned has the phone number the code
    was sent to (the statements being executed, the table keeping the
    handles apart, and no deactivated account holding the number). *)
Theorem send_then_verify env phone w w1 response :
  SendOTP cfg Duration_String env phone w = (w1, Ok response) ->
  unique_tokens (db w) -> no_inactive_user phone (db w) ->
  exists randomNumber code,
    rand_int env = Ok randomNumber
    /\ generateOTPCode cfg (Ok randomNumber) = Ok code
    /\ OTPResponse.PhoneNumber response = phone
    /\ OTPResponse.ExpiresAt response
       = Time.Add (t_issue env) (OTP_ExpirationTime cfg)
    /\ forall now,
         now < OTPResponse.ExpiresAt response ->
         exists d' user,
           VerifyOTP no_sql_faults now (OTPResponse.Token response) code (db w1)
           = (d', Ok user)
           /\ User.PhoneNumber user = phone.
Proof.
  intros Hsend Hu Hact.
  destruct (SendOTP_success_inv env phone w w1 response Hsend)
    as (r & bytes & code & Hr & Hb & Hcode & Hfresh & Hdb & ->).
  exists r, code. repeat split; [exact Hr | exact Hcode |].
  simpl. intros now Hnow.
  set (o := OTP.mk (otp_seq (db w)) phone code (Fmt.hex bytes)
                   (Time.Add (t_issue env) (OTP_ExpirationTime cfg))
                   false (t_issue env) None) in *.
  destruct (verify_right_code now (db w1) o) as (d' & u & Hv & Hp & _).
  - unfold unique_tokens. rewrite Hdb. simpl. rewrite map_app. simpl.
    apply NoDup_snoc; [exact Hu | exact Hfresh].
  - rewrite Hdb. simpl. apply in_or_app. right. left. reflexivity.
  - reflexivity.
  - exact Hnow.
  - rewrite Hdb. exact Hact.
  - exists d', u. split; [exact Hv | exact Hp].
Qed.

(** X7: a challenge is never verified at or after its expiry instant:
    when every row under the handle has expired, [VerifyOTP] fails with
    [invalid or expired OTP] and leaves the store as it was. *)
Theorem expired_challenge_is_rejected io now sessionToken code d :
  otp_select_err io = None ->
  (forall o, In o (otps d) -> OTP.SessionToken o = sessionToken ->
             OTP.ExpiresAt o <= now) ->
  VerifyOTP io now sessionToken code d = (d, Err "invalid or expired OTP").
Proof.
  intros Hio Hexp. unfold VerifyOTP, bind, or_wrap, GetActiveBySessionTokenAndCode.
  rewrite Hio.
  destruct (latest _) as [o|] eqn:E; [|reflexivity].
  apply latest_In, filter_In in E as [Hin Hm].
  apply active_match_spec in Hm as (Ht & _ & _ & Hlive).
  specialize (Hexp o Hin Ht). lia.
Qed.

(** X8: whom [VerifyOTP] returns.  For a phone number with an active
    account it returns the account as read before this login, with its
    previous [last_login_at], and stamps the new one in the store only; for
    a phone number no account holds it inserts an account registered and
    last logged in at the current instant, under the next id, and returns
    it. *)
Theorem VerifyOTP_user now d o :
  unique_tokens d -> In o (otps d) -> OTP.IsUsed o = false ->
  now < OTP.ExpiresAt o ->
  (forall u,
     List.find (UserRepository.active_with_phone (OTP.PhoneNumber o)) (users d)
     = Some u ->
     exists d',
       VerifyOTP no_sql_faults now (OTP.SessionToken o) (OTP.Code o) d = (d', Ok u)
       /\ users d'
          = map (fun x => if UserRepository.active_with_phone (OTP.PhoneNumber o) x
                          then User.set_last_login now x else x) (users d))
  /\ ((forall u, In u (users d) -> User.PhoneNumber u <> OTP.PhoneNumber o) ->
      let created := User.mk (user_seq d) (OTP.PhoneNumber o) now (Some now) true in
      exists d',
        VerifyOTP no_sql_faults now (OTP.SessionToken o) (OTP.Code o) d
        = (d', Ok created)
        /\ users d' = (users d ++ [created])%list).
Proof.
  intros Hu Hin Hused Hexp.
  assert (forall r,
            VerifyOTP_resolve no_sql_faults now (OTP.PhoneNumber o)
              (mkDB (mark_rows now (OTP.ID o) (otps d)) (otp_seq d)
                    (users d) (user_seq d)) = r ->
            VerifyOTP no_sql_faults now (OTP.SessionToken o) (OTP.Code o) d = r) as Hstep.
  { intros r <-. unfold VerifyOTP, bind, or_wrap.
    rewrite (lookup_unique no_sql_faults now d o Hu Hin Hused Hexp eq_refl).
    unfold VerifyOTP_consume, bind, or_wrap, MarkAsUsed. simpl.
    rewrite (rows_affected_hit (otps d) o Hin Hused).
    destruct (VerifyOTP_resolve _ _ _ _) as [d' [u|e]]; reflexivity. }
  split.
  - intros u Hfind. eexists. split.
    + apply Hstep.
      unfold VerifyOTP_resolve, bind, or_wrap, ret, UserRepository.GetByPhoneNumber,
        UserRepository.UpdateLastLogin. simpl. rewrite Hfind.
      apply find_some in Hfind as [Hinu Hhit].
      assert (In u (List.filter (UserRepository.active_with_phone (OTP.PhoneNumber o))
                                (users d))) as Hf.
      { apply filter_In. auto. }
      simpl.
      assert ((List.length (List.filter (UserRepository.active_with_phone
                                           (OTP.PhoneNumber o)) (users d)) =? 0)%nat
              = false) as ->.
      { destruct (List.filter _ (users d)); [destruct Hf | reflexivity]. }
      reflexivity.
    + reflexivity.
  - intros Hnone created. eexists. split.
    + apply Hstep.
      unfold VerifyOTP_resolve, bind, or_wrap, ret, UserRepository.GetByPhoneNumber,
        UserRepository.Create. simpl.
      destruct (find _ (users d)) as [u|] eqn:E.
      { apply find_some in E as [Hinu Hhit].
        unfold UserRepository.active_with_phone in Hhit.
        apply andb_true_iff in Hhit as [Hp _]. apply String.eqb_eq in Hp.
        exfalso. exact (Hnone u Hinu Hp). }
      simpl.
      destruct (existsb _ (users d)) eqn:Hex.
      { apply existsb_exists in Hex as (u & Hinu & Hp). apply String.eqb_eq in Hp.
        exfalso. exact (Hnone u Hinu Hp). }
      simpl. reflexivity.
    + reflexivity.
Qed.

Lemma filter_filter_implies {A} (p q : A -> bool) (l : list A) :
  (forall x, p x = true -> q x = true) ->
  List.filter p (List.filter q l) = List.filter p l.
Proof.
  intros H. induction l as [|x l IH]; simpl; [reflexivity|].
  destruct (q x) eqn:Eq; simpl.
  - rewrite IH. reflexivity.
  - destruct (p x) eqn:Ep; [|exact IH].
    rewrite (H x Ep) in Eq. discriminate.
Qed.

Lemma filter_map_commute {A} (p : A -> bool) (f : A -> A) (l : list A) :
  (forall x, p (f x) = p x) ->
  List.filter p (map f l) = map f (List.filter p l).
Proof.
  intros H. induction l as [|x l IH]; simpl; [reflexivity|].
  rewrite H. destruct (p x); simpl; rewrite IH; reflexivity.
Qed.

(** X9: deleting the expired challenges never changes the outcome of a
    later verification: on the cleaned table [VerifyOTP] returns what it
    returns on the table as it was, and leaves the cleaned version of the
    table it would have left. *)
Theorem cleanup_is_invisible io_c now_c io now sessionToken code d :
  otp_delete_err io_c = None -> now_c <= now ->
  let clean d := fst (DeleteExpired io_c now_c d) in
  VerifyOTP io now sessionToken code (clean d)
  = (clean (fst (VerifyOTP io now sessionToken code d)),
     snd (VerifyOTP io now sessionToken code d)).
Proof.
  intros Hc Hnow clean. subst clean. unfold DeleteExpired. rewrite Hc. simpl.
  set (kept := fun now (o : OTP.t) => negb (OTP.ExpiresAt o <? now)).
  change (fun o : OTP.t => negb (OTP.ExpiresAt o <? now_c)) with (kept now_c).
  assert (forall x, active_match now sessionToken code x = true -> kept now_c x = true)
    as Hkeep.
  { intros x Hx. apply active_match_spec in Hx as (_ & _ & _ & Hlive).
    unfold kept. apply negb_true_iff. apply Z.ltb_ge. lia. }
  unfold VerifyOTP, bind, or_wrap, GetActiveBySessionTokenAndCode. simpl.
  destruct (otp_select_err io); [reflexivity|].
  rewrite (filter_filter_implies _ _ _ Hkeep).
  destruct (latest _) as [o|] eqn:E; [|reflexivity].
  apply latest_In, filter_In in E as [Hin Hm].
  pose proof (Hkeep o Hm) as Hko.
  apply active_match_spec in Hm as (_ & _ & Hused & _).
  unfold VerifyOTP_consume, bind, or_wrap, MarkAsUsed. simpl.
  destruct (otp_update_err io); [reflexivity|].
  rewrite (rows_affected_hit (otps d) o Hin Hused).
  rewrite (rows_affected_hit (List.filter (kept now_c) (otps d)) o)
    by (try apply filter_In; auto).
  assert (List.filter (kept now_c) (mark_rows now (OTP.ID o) (otps d))
          = mark_rows now (OTP.ID o) (List.filter (kept now_c) (otps d))) as Hmark.
  { unfold mark_rows. apply filter_map_commute.
    intros x. destruct (unused_with_id (OTP.ID o) x); reflexivity. }
  unfold VerifyOTP_resolve, bind, or_wrap, ret, UserRepository.GetByPhoneNumber,
    UserRepository.Create, UserRepository.UpdateLastLogin. simpl.
  destruct (user_select_err io); [simpl; rewrite Hmark; reflexivity|].
  destruct (find _ (users d)) as [u|].
  - destruct (user_update_err io); [simpl; rewrite Hmark; reflexivity|].
    destruct (_ =? 0)%nat; simpl; rewrite Hmark; reflexivity.
  - destruct (user_insert_err io); [simpl; rewrite Hmark; reflexivity|].
    destruct (existsb _ _); simpl; rewrite Hmark; reflexivity.
Qed.

End RoundTripFacts.

Section AccountFacts.
Import OTPRepository OTPService Accounts.

Lemma map_login_phone now (hit : User.t -> bool) (l : list User.t) :
  map User.PhoneNumber (map (fun u => if hit u then User.set_last_login now u else u) l)
  = map User.PhoneNumber l.
Proof.
  induction l as [|u l IH]; simpl; [reflexivity|].
  rewrite IH. destruct (hit u); reflexivity.
Qed.

Lemma map_login_id now (hit : User.t -> bool) (l : list User.t) :
  map User.ID (map (fun u => if hit u then User.set_last_login now u else u) l)
  = map User.ID l.
Proof.
  induction l as [|u l IH]; simpl; [reflexivity|].
  rewrite IH. destruct (hit u); reflexivity.
Qed.

Lemma well_formed_otps d rows seq :
  well_formed d -> well_formed (mkDB rows seq (users d) (user_seq d)).
Proof.
  intros H. exact H.
Qed.

Lemma resolve_well_formed io now phone d :
  well_formed d -> well_formed (fst (VerifyOTP_resolve io now phone d)).
Proof.
  intros (Hp & Hi & Hs).
  unfold VerifyOTP_resolve, bind, or_wrap, ret, UserRepository.GetByPhoneNumber,
    UserRepository.Create, UserRepository.UpdateLastLogin.
  destruct (user_select_err io); [repeat split; assumption|].
  destruct (find _ (users d)) as [u|].
  - destruct (user_update_err io); [repeat split; assumption|].
    assert (well_formed
              (mkDB (otps d) (otp_seq d)
                    (map (fun u0 => if UserRepository.active_with_phone phone u0
                                    then User.set_last_login now u0 else u0) (users d))
                    (user_seq d))) as Hwf.
    { unfold well_formed. simpl. rewrite map_login_phone, map_login_id.
      repeat split; try assumption.
      intros x Hx. apply in_map_iff in Hx as (y & <- & Hy).
      specialize (Hs y Hy). destruct (UserRepository.active_with_phone phone y); exact Hs. }
    destruct (_ =? 0)%nat; simpl; exact Hwf.
  - destruct (user_insert_err io); [repeat split; assumption|].
    destruct (existsb _ (users d)) eqn:Hex; [repeat split; assumption|].
    simpl. unfold well_formed. simpl. rewrite !map_app. simpl. repeat split.
    + apply NoDup_snoc; [exact Hp|]. intros Hin.
      apply in_map_iff in Hin as (u & Hu & Hin).
      assert (existsb (fun u => String.eqb (User.PhoneNumber u) phone) (users d) = true)
        as E.
      { apply existsb_exists. exists u. split; [exact Hin|]. apply String.eqb_eq.
        exact Hu. }
      congruence.
    + apply NoDup_snoc; [exact Hi|]. intros Hin.
      apply in_map_iff in Hin as (u & Hu & Hin). specialize (Hs u Hin). lia.
    + intros u Hin. apply in_app_or in Hin as [Hin | [<- | []]].
      * specialize (Hs u Hin). lia.
      * simpl. lia.
Qed.

(** X10: whatever its outcome, [VerifyOTP] keeps the accounts well formed:
    no two accounts share a phone number or an id, and the id sequence stays
    ahead of every id in the table. *)
Theorem VerifyOTP_keeps_accounts io now sessionToken code d :
  well_formed d -> well_formed (fst (VerifyOTP io now sessionToken code d)).
Proof.
  intros Hwf. unfold VerifyOTP, bind, or_wrap, GetActiveBySessionTokenAndCode.
  destruct (otp_select_err io); [exact Hwf|].
  destruct (latest _) as [o|]; [|exact Hwf].
  unfold VerifyOTP_consume, bind, or_wrap, MarkAsUsed.
  destruct (otp_update_err io); [exact Hwf|].
  destruct (_ =? 0)%nat; [exact Hwf|].
  pose proof (resolve_well_formed io now (OTP.PhoneNumber o)
                (mkDB (mark_rows now (OTP.ID o) (otps d)) (otp_seq d)
                      (users d) (user_seq d))
                (well_formed_otps d _ _ Hwf)) as H.
  destruct (VerifyOTP_resolve _ _ _ _) as [d' r]. exact H.
Qed.

End AccountFacts.

Section AccountExamples.

Lemma VerifyOTP_keeps_accounts_witness :
  Accounts.well_formed
    (fst (OTPService.VerifyOTP no_sql_faults 10 "5e55104a" "123456"
                               Scenario.db_with_member)).
Proof.
  apply (VerifyOTP_keeps_accounts no_sql_faults 10 "5e55104a" "123456"
           Scenario.db_with_member).
  unfold Accounts.well_formed. simpl. repeat split.
  - constructor; [intros [] | constructor].
  - constructor; [intros [] | constructor].
  - intros u [<- | []]. simpl. lia.
Defined.

End AccountExamples.

Section RateRecordFacts.
Import RedisRateLimitRepository OTPService RateRecords.

Variable cfg : Config.
Variable Duration_String : Z -> string.

Lemma rate_key_inj p q : key p = key q -> p = q.
Proof.
  apply append_inj_r.
Qed.

Lemma set_is_insert {V} now k (v : V) ttl (m : gmap string (V * option Z)) :
  exists e, Redis.set now k v ttl m = <[k := (v, e)]> m.
Proof.
  unfold Redis.set. eexists. reflexivity.
Qed.

Lemma UpdateRateLimit_frame io now info st :
  fst (UpdateRateLimit cfg io now info st) = st
  \/ exists written e,
       RateLimitInfo.PhoneNumber written = RateLimitInfo.PhoneNumber info
       /\ fst (UpdateRateLimit cfg io now info st)
          = <[key (RateLimitInfo.PhoneNumber info) := (written, e)]> st.
Proof.
  unfold UpdateRateLimit.
  destruct (Time.IsZero (RateLimitInfo.WindowStartAt info));
    cbv zeta; simpl RateLimitInfo.PhoneNumber; simpl RateLimitInfo.WindowStartAt;
    repeat match goal with
           | |- context [if ?b then _ else _] => destruct b
           end;
    destruct (set_err io); simpl; auto; right;
    match goal with
    | |- context [Redis.set ?n ?k ?v ?t ?m] =>
        destruct (set_is_insert n k v t m) as [e ->]
    end;
    eexists _, e; (split; [|reflexivity]); reflexivity.
Qed.

Lemma well_keyed_insert st info e :
  well_keyed st ->
  well_keyed (<[key (RateLimitInfo.PhoneNumber info) := (info, e)]> st).
Proof.
  intros Hwk k info' e' Hk.
  destruct (decide (key (RateLimitInfo.PhoneNumber info) = k)) as [<-|Hne].
  - rewrite lookup_insert_eq in Hk. injection Hk as <- _. reflexivity.
  - rewrite lookup_insert_ne in Hk by exact Hne. eapply Hwk. exact Hk.
Qed.

Lemma seen_phone now phone st :
  well_keyed st ->
  RateLimitInfo.PhoneNumber (Limiter.seen now phone st) = phone.
Proof.
  intros Hwk. unfold Limiter.seen, redis_get, Redis.get, Redis.live.
  destruct (st !! key phone) as [[info [e|]]|] eqn:Hk; simpl; try reflexivity.
  - destruct (now <? e); simpl; [|reflexivity].
    apply Hwk in Hk. symmetry. apply rate_key_inj. exact Hk.
  - apply Hwk in Hk. symmetry. apply rate_key_inj. exact Hk.
Qed.

Lemma updateRateLimit_frame io now now_store phone st :
  well_keyed st ->
  well_keyed (fst (updateRateLimit cfg io now now_store phone st))
  /\ forall other, other <> phone ->
       fst (updateRateLimit cfg io now now_store phone st) !! key other
       = st !! key other.
Proof.
  intros Hwk. unfold updateRateLimit, bind, or_wrap, GetRateLimit.
  destruct (get_err io); [split; [exact Hwk | reflexivity]|].
  fold (Limiter.seen now phone st).
  assert (forall info,
            RateLimitInfo.PhoneNumber info = phone ->
            well_keyed (fst (UpdateRateLimit cfg io now_store info st))
            /\ forall other, other <> phone ->
                 fst (UpdateRateLimit cfg io now_store info st) !! key other
                 = st !! key other) as Hupd.
  { intros info Hp.
    destruct (UpdateRateLimit_frame io now_store info st)
      as [-> | (written & e & Hw & ->)]; [split; [exact Hwk | reflexivity]|].
    split.
    - rewrite <- Hw. apply well_keyed_insert. exact Hwk.
    - intros other Hne. apply lookup_insert_ne. rewrite Hp.
      intros E. apply rate_key_inj in E. congruence. }
  pose proof (seen_phone now phone st Hwk) as Hseen.
  unfold Limiter.seen in *.
  destruct (redis_get now phone st) as [info|]; simpl.
  - destruct (_ <=? _); apply Hupd; simpl; exact Hseen.
  - destruct (_ <=? _); apply Hupd; reflexivity.
Qed.

Lemma IsRateLimited_reads io now phone st st' :
  st' !! key phone = st !! key phone ->
  snd (IsRateLimited cfg io now phone st') = snd (IsRateLimited cfg io now phone st).
Proof.
  intros Hk. unfold IsRateLimited, bind, or_wrap, GetRateLimit.
  destruct (get_err io); [reflexivity|].
  unfold redis_get, Redis.get, Redis.live. rewrite Hk.
  destruct (st !! key phone) as [[info [e|]]|]; simpl;
    repeat match goal with
           | |- context [if ?b then _ else _] => destruct b; simpl
           end; reflexivity.
Qed.

(** X11: rate limiting is per phone number.  Provided every record sits
    under the key of the phone number it names, which every send
    preserves, a send for one phone number leaves the record of every
    other number as it was, and with it the answer of [IsRateLimited] for
    that number. *)
Theorem rate_limit_is_per_phone_number env phone w :
  well_keyed (rate w) ->
  let w1 := fst (SendOTP cfg Duration_String env phone w) in
  well_keyed (rate w1)
  /\ forall other,
       other <> phone ->
       rate w1 !! key other = rate w !! key other
       /\ forall io now,
            snd (IsRateLimited cfg io now other (rate w1))
            = snd (IsRateLimited cfg io now other (rate w)).
Proof.
  intros Hwk w1.
  assert (well_keyed (rate w1)
          /\ forall other, other <> phone ->
               rate w1 !! key other = rate w !! key other) as [Hwk1 Hframe].
  { subst w1. unfold SendOTP, bind, or_wrap, on_rate, on_db, lift, fail.
    assert (fst (IsRateLimited cfg (check_io env) (t_check env) phone (rate w))
            = rate w) as Hread.
    { unfold IsRateLimited, bind, or_wrap, GetRateLimit, ret.
      destruct (get_err _); [reflexivity|].
      destruct (redis_get _ _ _); simpl; destruct (_ <=? _); reflexivity. }
    destruct (IsRateLimited _ _ _ _ _) as [st [[|]|e]]; simpl in Hread; subst st;
      simpl; try (split; [exact Hwk | reflexivity]).
    destruct (generateOTPCode cfg (rand_int env)); simpl;
      [|split; [exact Hwk | reflexivity]].
    destruct (generateSessionToken (rand_bytes env)); simpl;
      [|split; [exact Hwk | reflexivity]].
    destruct (OTPRepository.Create _ _ _ _) as [d [created|e]]; simpl;
      [|split; [exact Hwk | reflexivity]].
    pose proof (updateRateLimit_frame (update_io env) (t_update env) (t_store env)
                  phone (rate w) Hwk) as H.
    destruct (updateRateLimit _ _ _ _ _ _) as [st' r']. simpl in *. exact H. }
  split; [exact Hwk1|].
  intros other Hne. split; [apply Hframe; exact Hne|].
  intros io now. apply IsRateLimited_reads. apply Hframe. exact Hne.
Qed.

End RateRecordFacts.

Section CleanupFacts.
Import RedisRateLimitRepository OTPService RateRecords RateLimitCleanup.

Variable cfg : Config.
Variable Duration_String : Z -> string.

Lemma UpdateRateLimit_expiring io now info st :
  0 < RateLimit_WindowDuration cfg ->
  fst (UpdateRateLimit cfg io now info st) = st
  \/ exists k written e,
       fst (UpdateRateLimit cfg io now info st) = <[k := (written, Some e)]> st.
Proof.
  intros HW. unfold UpdateRateLimit.
  set (W := RateLimit_WindowDuration cfg) in *.
  destruct (Time.IsZero _); cbv zeta;
    match goal with
    | |- context [Time.Sub ?a ?b] => generalize (Time.Sub a b); intros ttl
    end;
    destruct (ttl <=? 0) eqn:E1;
    [| destruct (ttl <? Time.Minute) eqn:E2 | | destruct (ttl <? Time.Minute) eqn:E2];
    destruct (set_err io); simpl; auto; right; unfold Redis.set;
    try (assert ((0 <? W) = true) as -> by (apply Z.ltb_lt; exact HW));
    try (assert ((0 <? ttl) = true) as -> by (apply Z.ltb_lt; apply Z.leb_gt in E1; lia));
    try (change (0 <? Time.Minute) with true; cbv iota);
    eexists _, _, _; reflexivity.
Qed.

Lemma all_expiring_insert st k info e :
  all_expiring st -> all_expiring (<[k := (info, Some e)]> st).
Proof.
  intros H k' info' Hk.
  destruct (decide (k = k')) as [<-|Hne].
  - rewrite lookup_insert_eq in Hk. discriminate.
  - rewrite lookup_insert_ne in Hk by exact Hne. exact (H k' info' Hk).
Qed.

Lemma updateRateLimit_expiring io now now_store phone st :
  0 < RateLimit_WindowDuration cfg ->
  all_expiring st ->
  all_expiring (fst (updateRateLimit cfg io now now_store phone st)).
Proof.
  intros HW Hall. unfold updateRateLimit, bind, or_wrap, GetRateLimit.
  destruct (get_err io); [exact Hall|].
  assert (forall info, all_expiring (fst (UpdateRateLimit cfg io now_store info st)))
    as Hupd.
  { intros info.
    destruct (UpdateRateLimit_expiring io now_store info st HW)
      as [-> | (k & written & e & ->)]; [exact Hall|].
    apply all_expiring_insert. exact Hall. }
  destruct (redis_get now phone st); simpl; destruct (_ <=? _); apply Hupd.
Qed.

Lemma repair_nothing ttl_fails expire_fails now st key :
  all_expiring st -> repair cfg ttl_fails expire_fails now st key = st.
Proof.
  intros Hall. unfold repair. destruct (ttl_fails key); [reflexivity|].
  assert ((Redis.ttl now key st =? -1) = false) as ->; [|reflexivity].
  apply Z.eqb_neq. unfold Redis.ttl, Redis.live.
  destruct (st !! key) as [[info [e|]]|] eqn:Hk.
  - destruct (now <? e) eqn:E; [apply Z.ltb_lt in E; lia | lia].
  - exfalso. exact (Hall key info Hk).
  - lia.
Qed.

Lemma fold_repair_nothing ttl_fails expire_fails now keys st :
  all_expiring st ->
  fold_left (repair cfg ttl_fails expire_fails now) keys st = st.
Proof.
  intros Hall. induction keys as [|k keys IH]; simpl; [reflexivity|].
  rewrite repair_nothing by exact Hall. exact IH.
Qed.

(** X12: with a positive window every rate-limit record a send writes has
    an expiration, so Redis forgets it by itself; and on a store in which
    every record has one, the periodic cleanup only deletes the expired
    challenges: it leaves the rate-limit records and the sessions as they
    were (the delete and the key scan being executed). *)
Theorem cleanup_leaves_rate_limits :
  (0 < RateLimit_WindowDuration cfg ->
   forall env phone w,
     all_expiring (rate w) ->
     all_expiring (rate (fst (SendOTP cfg Duration_String env phone w))))
  /\ (forall io now ttl_fails expire_fails now_redis w,
        all_expiring (rate w) ->
        otp_delete_err io = None ->
        CleanupExpiredOTPs cfg io now None ttl_fails expire_fails now_redis w
        = (mkWorld (fst (OTPRepository.DeleteExpired io now (db w)))
                   (rate w) (sessions w),
           Ok tt)).
Proof.
  split.
  - intros HW env phone w Hall.
    unfold SendOTP, bind, or_wrap, on_rate, on_db, lift, fail.
    assert (fst (IsRateLimited cfg (check_io env) (t_check env) phone (rate w))
            = rate w) as Hread.
    { unfold IsRateLimited, bind, or_wrap, GetRateLimit, ret.
      destruct (get_err _); [reflexivity|].
      destruct (redis_get _ _ _); simpl; destruct (_ <=? _); reflexivity. }
    destruct (IsRateLimited _ _ _ _ _) as [st [[|]|e]]; simpl in Hread; subst st;
      simpl; try exact Hall.
    destruct (generateOTPCode cfg (rand_int env)); simpl; [|exact Hall].
    destruct (generateSessionToken (rand_bytes env)); simpl; [|exact Hall].
    destruct (OTPRepository.Create _ _ _ _) as [d [created|e]]; simpl; [|exact Hall].
    pose proof (updateRateLimit_expiring (update_io env) (t_update env) (t_store env)
                  phone (rate w) HW Hall) as H.
    destruct (updateRateLimit _ _ _ _ _ _) as [st' r']. simpl in *. exact H.
  - intros io now ttl_fails expire_fails now_redis w Hall Hdel.
    unfold CleanupExpiredOTPs, bind, or_wrap, on_db, on_rate, CleanupRateLimits,
      OTPRepository.DeleteExpired.
    rewrite Hdel. simpl. rewrite fold_repair_nothing by exact Hall. reflexivity.
Qed.

End CleanupFacts.

Section CleanupExamples.

Lemma cleanup_leaves_rate_limits_witness :
  RateRecords.all_expiring
    (rate (fst (OTPService.SendOTP default_config Sample.Duration_String
                                   (Sample.send_at 0 "a") Sample.phone
                                   Sample.empty_world)))
  /\ RateLimitCleanup.CleanupExpiredOTPs default_config no_sql_faults 5 None
       (fun _ => false) (fun _ => false) 5 Scenario.limited_world
     = (mkWorld (fst (OTPRepository.DeleteExpired no_sql_faults 5
                                                  (db Scenario.limited_world)))
                (rate Scenario.limited_world) (sessions Scenario.limited_world),
        Ok tt).
Proof.
  destruct (cleanup_leaves_rate_limits default_config Sample.Duration_String)
    as [Hsend Hclean].
  split.
  - apply Hsend; [reflexivity|].
    intros k info H. simpl in H. rewrite lookup_empty in H. discriminate.
  - apply Hclean; [|reflexivity].
    intros k info H. unfold Scenario.limited_world in H. simpl in H.
    apply lookup_singleton_Some in H as [_ H]. discriminate.
Defined.

End CleanupExamples.

Section TokenStoreFacts.
Import TokenService TokenListing.

Lemma userKey_inj u1 u2 : userKey u1 = userKey u2 -> u1 = u2.
Proof.
  intros H. apply append_inj_r in H. apply int_text_inj. exact H.
Qed.

Lemma get_set_same {V} now now' k (v : V) ttl (m : gmap string (V * option Z)) :
  0 < ttl ->
  Redis.get now' k (Redis.set now k v ttl m)
  = if now' <? now + ttl then Some v else None.
Proof.
  intros Httl. unfold Redis.get, Redis.live, Redis.set.
  rewrite lookup_insert_eq.
  assert ((0 <? ttl) = true) as -> by (apply Z.ltb_lt; exact Httl).
  destruct (now' <? now + ttl); reflexivity.
Qed.

(** X13: a record [StoreToken] has stored with a positive expiration is
    what [ValidateToken] reads under the same digest, with [LastUsed] set to
    the instant of the read, at every instant before the expiration has
    passed; from then on the read answers [token not found or expired]. *)
Theorem stored_token_validates io now tokenHash tokenInfo expiration st st1 :
  StoreToken io now tokenHash tokenInfo expiration st = (st1, Ok tt) ->
  0 < expiration ->
  forall io' now',
    get_err io' = None ->
    ValidateToken io' now' tokenHash st1
    = if now' <? now + expiration
      then (spawn (Spawned tokenHash (TokenInfo.set_last_used now' tokenInfo)) st1,
            Ok (TokenInfo.set_last_used now' tokenInfo))
      else (st1, Err "token not found or expired").
Proof.
  intros Hstore Hexp io' now' Hget.
  assert (tokens st1 = Redis.set now (key tokenHash) tokenInfo expiration (tokens st))
    as Htok.
  { revert Hstore. unfold StoreToken.
    destruct (set_err io); [discriminate|]. intros [= <-].
    unfold unless. destruct (sadd_err io); destruct (expire_err io); reflexivity. }
  unfold ValidateToken. rewrite Hget, Htok, get_set_same by exact Hexp.
  destruct (now' <? now + expiration); reflexivity.
Qed.

Lemma fold_del_other {V} h (hs : list string) (m : gmap string (V * option Z)) :
  ~ In h hs ->
  foldr (fun h => Redis.del (key h)) m hs !! key h = m !! key h.
Proof.
  induction hs as [|x hs IH]; simpl; [reflexivity|].
  intros Hnot. unfold Redis.del at 1.
  rewrite lookup_delete_ne.
  - apply IH. tauto.
  - intros E. apply key_inj in E. tauto.
Qed.

Lemma fold_del_in {V} h (hs : list string) (m : gmap string (V * option Z)) :
  In h hs -> foldr (fun h => Redis.del (key h)) m hs !! key h = None.
Proof.
  induction hs as [|x hs IH]; simpl; [intros []|].
  intros [->|Hin].
  - unfold Redis.del. apply lookup_delete_eq.
  - apply del_absent. apply IH. exact Hin.
Qed.

(** X14: revocation is targeted.  [RevokeToken] leaves the record of every
    other digest as it was; [RevokeAllUserTokens], when it returns without
    error, has deleted the records of exactly the digests in the user's
    set and the set itself, and has left every other record and the set
    of every other user as they were. *)
Theorem revocation_is_targeted io now st :
  (forall tokenHash other,
     other <> tokenHash ->
     tokens (fst (RevokeToken io now tokenHash st)) !! key other
     = tokens st !! key other)
  /\ (forall userID st1,
        RevokeAllUserTokens io now userID st = (st1, Ok tt) ->
        let tokenHashes := Redis.smembers now (userKey userID) (user_tokens st) in
        (forall h, In h tokenHashes -> tokens st1 !! key h = None)
        /\ (forall h, ~ In h tokenHashes -> tokens st1 !! key h = tokens st !! key h)
        /\ user_tokens st1 !! userKey userID = None
        /\ (forall other, other <> userID ->
                          user_tokens st1 !! userKey other
                          = user_tokens st !! userKey other)).
Proof.
  split.
  - intros h other Hne. unfold RevokeToken.
    assert (tokens (fst (ValidateToken io now h st)) = tokens st) as Hv.
    { unfold ValidateToken. destruct (get_err io); [reflexivity|].
      destruct (Redis.get _ _ _); reflexivity. }
    destruct (ValidateToken io now h st) as [sta [info|e]]; simpl in Hv.
    + assert (tokens (unless (srem_err io)
                        (with_user_tokens
                           (Redis.srem now (userKey (TokenInfo.UserID info)) h)) sta)
              = tokens st) as Hu.
      { unfold unless. destruct (srem_err io); exact Hv. }
      destruct (del_err io); simpl; [rewrite Hu; reflexivity|].
      rewrite Hu. unfold Redis.del. apply lookup_delete_ne.
      intros E. apply key_inj in E. congruence.
    + destruct (del_err io); simpl; [rewrite Hv; reflexivity|].
      rewrite Hv. unfold Redis.del. apply lookup_delete_ne.
      intros E. apply key_inj in E. congruence.
  - intros userID st1. unfold RevokeAllUserTokens.
    destruct (smembers_err io); [discriminate|].
    destruct (pipeline_err io); [discriminate|].
    intros H. injection H as <-. cbv zeta. simpl. repeat split.
    + intros h Hin. apply fold_del_in. exact Hin.
    + intros h Hnot. apply fold_del_other. exact Hnot.
    + apply lookup_delete_eq.
    + intros other Hne. apply lookup_delete_ne.
      intros E. apply userKey_inj in E. congruence.
Qed.

Lemma validate_keeps_keys io now h st :
  tokens (fst (ValidateToken io now h st)) = tokens st
  /\ user_tokens (fst (ValidateToken io now h st)) = user_tokens st.
Proof.
  unfold ValidateToken. destruct (get_err io); [auto|].
  destruct (Redis.get _ _ _); auto.
Qed.

Lemma collect_spec io_of now_of (hs : list string) :
  (forall h, get_err (io_of h) = None) ->
  forall st acc,
    tokens (fst (collect io_of now_of hs st acc)) = tokens st
    /\ user_tokens (fst (collect io_of now_of hs st acc)) = user_tokens st
    /\ forall tokenInfo,
         In tokenInfo (snd (collect io_of now_of hs st acc)) <->
         In tokenInfo acc
         \/ exists h stored,
              In h hs
              /\ Redis.get (now_of h) (key h) (tokens st) = Some stored
              /\ tokenInfo = TokenInfo.set_last_used (now_of h) stored.
Proof.
  intros Hio. induction hs as [|h hs IH]; intros st acc.
  - simpl. repeat split; [tauto|]. intros [H | (h & s & [] & _)]. exact H.
  - simpl collect.
    destruct (validate_keeps_keys (io_of h) (now_of h) h st) as [Hk Hu].
    assert (ValidateToken (io_of h) (now_of h) h st
            = match Redis.get (now_of h) (key h) (tokens st) with
              | Some stored =>
                  (spawn (Spawned h (TokenInfo.set_last_used (now_of h) stored)) st,
                   Ok (TokenInfo.set_last_used (now_of h) stored))
              | None => (st, Err "token not found or expired")
              end) as Hv.
    { unfold ValidateToken. rewrite Hio. reflexivity. }
    destruct (ValidateToken (io_of h) (now_of h) h st) as [sta [info|e]];
      simpl in Hk, Hu.
    + destruct (IH sta (acc ++ [info])%list) as (Hk1 & Hu1 & Hin).
      rewrite Hk1, Hu1, Hk, Hu. repeat split.
      * intros H. apply Hin in H as [H | (h' & s & Hh & Hg & ->)].
        -- apply in_app_or in H as [H | [<- | []]]; [left; exact H|].
           right. destruct (Redis.get (now_of h) (key h) (tokens st)) as [s|] eqn:Hg;
             [|discriminate].
           injection Hv as _ ->. exists h, s. simpl. auto.
        -- right. exists h', s. rewrite Hk in Hg. simpl. auto.
      * intros H. apply Hin. destruct H as [H | (h' & s & [<- | Hh] & Hg & ->)].
        -- left. apply in_or_app. left. exact H.
        -- left. apply in_or_app. right. left. rewrite Hg in Hv.
           injection Hv as _ ->. reflexivity.
        -- right. exists h', s. rewrite Hk. auto.
    + destruct (IH sta acc) as (Hk1 & Hu1 & Hin).
      rewrite Hk1, Hu1, Hk, Hu. repeat split.
      * intros H. apply Hin in H as [H | (h' & s & Hh & Hg & ->)]; [left; exact H|].
        right. exists h', s. rewrite Hk in Hg. simpl. auto.
      * intros H. apply Hin. destruct H as [H | (h' & s & [<- | Hh] & Hg & ->)].
        -- left. exact H.
        -- rewrite Hg in Hv. discriminate.
        -- right. exists h', s. rewrite Hk. auto.
Qed.

(** X15: when its Redis commands are executed, [GetUserActiveTokens]
    returns the records read under the digests of the user's set, each with
    [LastUsed] set to the instant of its read, and skips the digests whose
    record is gone or has expired; the records and the sets in the store
    are left as they were. *)
Theorem GetUserActiveTokens_lists io io_of now_of now userID st :
  smembers_err io = None ->
  (forall h, get_err (io_of h) = None) ->
  exists st1 listed,
    GetUserActiveTokens io io_of now_of now userID st = (st1, Ok listed)
    /\ tokens st1 = tokens st
    /\ user_tokens st1 = user_tokens st
    /\ forall tokenInfo,
         In tokenInfo listed <->
         exists h stored,
           In h (Redis.smembers now (userKey userID) (user_tokens st))
           /\ Redis.get (now_of h) (key h) (tokens st) = Some stored
           /\ tokenInfo = TokenInfo.set_last_used (now_of h) stored.
Proof.
  intros Hs Hio. unfold GetUserActiveTokens. rewrite Hs.
  destruct (collect_spec io_of now_of
              (Redis.smembers now (userKey userID) (user_tokens st)) Hio st [])
    as (Hk & Hu & Hin).
  destruct (collect _ _ _ _ _) as [st1 listed]. simpl in *.
  exists st1, listed. repeat split; try assumption.
  - intros H. apply Hin in H as [[] | H]. exact H.
  - intros H. apply Hin. right. exact H.
Qed.

End TokenStoreFacts.

Section LoginFacts.
Import TokenService Session Logins.

Variable expiration : Z.
Hypothesis expiration_pos : 0 < expiration.













End LoginFacts.

Section LoginExamples.
Import Session Logins.


End LoginExamples.

Section MiddlewareFacts.
Import Session Strings Middleware.

Variable cfg : Config.
Variable ParseWithClaims : string -> string -> Z -> result JWTClaims.t.
Variable sha256_hex : string -> string.

Lemma append_cons (c : ascii) (a b : string) :
  (String c a ++ b)%string = String c (a ++ b)%string.
Proof.
  reflexivity.
Qed.

Lemma HasPrefix_from (prefix : string) :
  forall s, HasPrefix s prefix = true ->
            s = (prefix ++ from (String.length prefix) s)%string.
Proof.
  unfold HasPrefix.
  induction prefix as [|c prefix IH]; intros s H; [reflexivity|].
  destruct s as [|d s]; [discriminate|]. simpl in H.
  destruct (ascii_dec c d) as [->|]; [|discriminate].
  rewrite append_cons. simpl String.length. simpl from.
  f_equal. apply IH. exact H.
Qed.

Lemma protected_not_public path :
  HasPrefix path "/api/v1/users" = true \/ HasPrefix path "/api/v1/auth/" = true ->
  public_path path = false.
Proof.
  intros [H | H]; apply HasPrefix_from in H; rewrite H; reflexivity.
Qed.

(** X17: on the routes registered under [/api/v1/users] and [/api/v1/auth/]
    the middleware hands a request on only if its [Authorization] header is
    [Bearer ] followed by a token that [ValidateToken] accepted, and the user
    it puts in the context carries the id and phone number of that token's
    claims. *)
Theorem middleware_guards_protected_routes tokenService io now req st st1 user :
  HasPrefix (Path req) "/api/v1/users" = true
  \/ HasPrefix (Path req) "/api/v1/auth/" = true ->
  JWTMiddleware cfg tokenService ParseWithClaims sha256_hex io now req st
  = (st1, Next user) ->
  exists tokenString claims,
    Authorization req = ("Bearer " ++ tokenString)%string
    /\ JWTService.ValidateToken cfg tokenService ParseWithClaims sha256_hex
                                io now tokenString st = (st1, Ok claims)
    /\ user = Some (User.mk (JWTClaims.UserID claims) (JWTClaims.PhoneNumber claims)
                            Time.zero None true).
Proof.
  intros Hpath. unfold JWTMiddleware.
  rewrite (protected_not_public _ Hpath).
  destruct (String.eqb (Authorization req) ""); [discriminate|].
  destruct (HasPrefix (Authorization req) "Bearer ") eqn:Hp; [|discriminate].
  simpl negb. cbv iota.
  apply HasPrefix_from in Hp. simpl String.length in Hp.
  destruct (JWTService.ValidateToken _ _ _ _ _ _ _ _) as [st' [claims|e]] eqn:Hv;
    [|discriminate].
  unfold GetUserFromToken. intros [= <- <-].
  exists (from 7 (Authorization req)), claims. auto.
Qed.

Lemma bearer_nonempty tok : String.eqb ("Bearer " ++ tok) "" = false.
Proof.
  reflexivity.
Qed.

Lemma bearer_prefix tok : HasPrefix ("Bearer " ++ tok) "Bearer " = true.
Proof.
  destruct tok; reflexivity.
Qed.



Lemma bearer_from tok : from 7 ("Bearer " ++ tok) = tok.
Proof.
  reflexivity.
Qed.










(** A request that presents the token [GenerateToken] has just issued. *)
Lemma login_then_request SignedString env user st st1 response :
  JWTService.GenerateToken cfg true SignedString sha256_hex env user st
  = (st1, Ok response) ->
  set_err (store_io env) = None ->
  0 < JWT_ExpirationTime cfg ->
  forall io now req claims,
    get_err io = None ->
    Authorization req = ("Bearer " ++ AuthResponse.Token response)%string ->
    ParseWithClaims (AuthResponse.Token response) (JWT_Secret cfg) now = Ok claims ->
    now < now_last_used env + JWT_ExpirationTime cfg ->
    exists st2,
      JWTMiddleware cfg true ParseWithClaims sha256_hex io now req st1
      = (st2, Next (if public_path (Path req) then None
                    else Some (User.mk (JWTClaims.UserID claims)
                                       (JWTClaims.PhoneNumber claims)
                                       Time.zero None true)))
      /\ tokens st2 = tokens st1.
Proof.
  unfold JWTService.GenerateToken.
  destruct (SignedString _ _) as [tokenString|]; [|discriminate].
  intros Hgen Hset Hexp io now req claims Hget Hauth Hparse Hnow.
  injection Hgen as <- <-. simpl in Hauth, Hparse.
  unfold JWTMiddleware. destruct (public_path (Path req)); [eauto|].
  rewrite Hauth, bearer_nonempty, bearer_prefix, bearer_from. simpl negb. cbv iota.
  unfold JWTService.ValidateToken. rewrite Hparse.
  match goal with
  | |- context [TokenService.StoreToken ?i ?n ?h ?info ?e ?s] =>
      pose proof (stored_token_validates i n h info e s) as Hv;
      destruct (TokenService.StoreToken i n h info e s) as [sta [[]|err]] eqn:Hstore
  end.
  - specialize (Hv sta eq_refl Hexp io now Hget).
    unfold JWTService.hashToken in *. simpl fst. rewrite Hv.
    assert ((now <? now_last_used env + JWT_ExpirationTime cfg) = true) as ->
      by (apply Z.ltb_lt; exact Hnow).
    unfold GetUserFromToken. eexists. split; reflexivity.
  - exfalso. revert Hstore. unfold TokenService.StoreToken. rewrite Hset. discriminate.
Qed.

Lemma verify_endpoint_login SignedString env req w w2 status response :
  OTPController.VerifyOTP cfg true SignedString sha256_hex env req w
  = (w2, JSONAuth status response) ->
  exists user st,
    JWTService.GenerateToken cfg true SignedString sha256_hex (verify_gen env) user st
    = (sessions w2, Ok response).
Proof.
  unfold OTPController.VerifyOTP.
  destruct (StructValidator.ValidateStruct_VerifyOTPRequest req); [discriminate|].
  unfold on_db, on_sessions.
  destruct (OTPService.VerifyOTP _ _ _ _ _) as [d [user|e]];
    [|unfold OTPController.verify_failure; destruct (String.eqb _ _); discriminate].
  simpl.
  destruct (JWTService.GenerateToken _ _ _ _ _ _ _) as [st' [r|e]] eqn:Hgen;
    [|discriminate].
  intros [= <- _ <-]. simpl. eauto.
Qed.

(** X20: the token the verify endpoint returns with its 200 answer is
    accepted afterwards: a request that presents it as [Bearer] token is
    handed on by the middleware with the user of the token's claims, as long
    as the library parses the token and the expiration of the session record
    has not passed (the record having been written and the read being
    executed). *)
Theorem verified_login_is_authenticated SignedString env req w w2 status response :
  OTPController.VerifyOTP cfg true SignedString sha256_hex env req w
  = (w2, JSONAuth status response) ->
  set_err (store_io (verify_gen env)) = None ->
  0 < JWT_ExpirationTime cfg ->
  forall io now request claims,
    get_err io = None ->
    Authorization request = ("Bearer " ++ AuthResponse.Token response)%string ->
    ParseWithClaims (AuthResponse.Token response) (JWT_Secret cfg) now = Ok claims ->
    now < now_last_used (verify_gen env) + JWT_ExpirationTime cfg ->
    exists st2,
      JWTMiddleware cfg true ParseWithClaims sha256_hex io now request (sessions w2)
      = (st2, Next (if public_path (Path request) then None
                    else Some (User.mk (JWTClaims.UserID claims)
                                       (JWTClaims.PhoneNumber claims)
                                       Time.zero None true)))
      /\ tokens st2 = tokens (sessions w2).
Proof.
  intros Hverify Hset Hexp io now request claims Hget Hauth Hparse Hnow.
  destruct (verify_endpoint_login SignedString env req w w2 status response Hverify)
    as (user & st & Hgen).
  exact (login_then_request SignedString (verify_gen env) user st (sessions w2)
           response Hgen Hset Hexp io now request claims Hget Hauth Hparse Hnow).
Qed.

(** X21: what [GenerateToken] signs and what it announces.  The claims of
    the token it returns carry the id and the phone number of the account,
    an issue instant and a not-before instant no later than the clock
    readings they were taken from, and an expiry within the last second
    before the expiry the response announces. *)
Theorem announced_expiry_bounds_token tokenService SignedString env user st st1 response :
  JWTService.GenerateToken cfg tokenService SignedString sha256_hex env user st
  = (st1, Ok response) ->
  let claims := JWTService.claims_of cfg env user in
  SignedString claims (JWT_Secret cfg) = Ok (AuthResponse.Token response)
  /\ JWTClaims.UserID claims = User.ID user
  /\ JWTClaims.PhoneNumber claims = User.PhoneNumber user
  /\ JWTClaims.IssuedAt claims <= now_issued env
  /\ JWTClaims.NotBefore claims <= now_not_before env
  /\ JWTClaims.ExpiresAt claims <= AuthResponse.ExpiresAt response
     < JWTClaims.ExpiresAt claims + Time.Second.
Proof.
  unfold JWTService.GenerateToken.
  destruct (SignedString _ _) as [tokenString|] eqn:Hsign; [|discriminate].
  intros [= _ <-]. cbv zeta. simpl.
  assert (forall t, t / Time.Second * Time.Second <= t
                    < t / Time.Second * Time.Second + Time.Second) as Htrunc.
  { intros t. unfold Time.Second.
    pose proof (Z.div_mod t 1000000000 ltac:(lia)).
    pose proof (Z.mod_pos_bound t 1000000000 ltac:(lia)). lia. }
  unfold JWTService.NewNumericDate.
  repeat split; try reflexivity; try apply Htrunc.
Qed.

End MiddlewareFacts.

Section UserEndpointFacts.
Import UserReads UserService UserController.

Lemma GetUser_found io db id :
  user_select_err io = None ->
  Strconv.Atoi (Fmt.int_text id) = Some id ->
  GetUser io (Fmt.int_text id) db
  = (db, match List.find (active_with_id id) (users db) with
         | Some user => UserFound StatusOK (toUserResponse user)
         | None => UserError StatusNotFound "User not found"
                             "The requested user does not exist"
         end).
Proof.
  intros Hio Hid. unfold GetUser, UserService.GetByID, UserReads.GetByID,
                    bind, or_wrap, ret, fail.
  rewrite Hid, Hio. destruct (find _ _); reflexivity.
Qed.

(** X22: the user endpoint never writes; it answers 400 to an id that is
    not an integer, 200 with the account's fields to the id of an active
    account, and 404 both to the id of a deactivated account and to an id
    no account has (the select being executed and ids being unique). *)
Theorem GetUser_answers io db :
  (forall idParam, fst (GetUser io idParam db) = db)
  /\ (forall idParam,
        Strconv.Atoi idParam = None ->
        snd (GetUser io idParam db)
        = UserError StatusBadRequest "Invalid user ID"
                    "User ID must be a valid integer")
  /\ (user_select_err io = None ->
      List.NoDup (map User.ID (users db)) ->
      forall id,
        - 2 ^ 63 <= id <= 2 ^ 63 - 1 ->
        (forall user,
           In user (users db) -> User.ID user = id ->
           snd (GetUser io (Fmt.int_text id) db)
           = if User.IsActive user
             then UserFound StatusOK (toUserResponse user)
             else UserError StatusNotFound "User not found"
                            "The requested user does not exist")
        /\ ((forall user, In user (users db) -> User.ID user <> id) ->
            snd (GetUser io (Fmt.int_text id) db)
            = UserError StatusNotFound "User not found"
                        "The requested user does not exist")).
Proof.
  split; [|split].
  - intros idParam. unfold GetUser, UserService.GetByID, UserReads.GetByID,
                      bind, or_wrap, ret, fail.
    destruct (Strconv.Atoi idParam); [|reflexivity].
    destruct (user_select_err io); simpl; [reflexivity|].
    destruct (find _ _); reflexivity.
  - intros idParam H. unfold GetUser. rewrite H. reflexivity.
  - intros Hio Hnd id Hid.
    pose proof (Atoi_int_text id Hid) as Hatoi.
    rewrite (GetUser_found io db id Hio Hatoi). simpl. split.
    + intros user Hin Huid.
      destruct (find (active_with_id id) (users db)) as [u|] eqn:E.
      * apply find_some in E as [Hinu Hhit].
        unfold active_with_id in Hhit. apply andb_true_iff in Hhit as [Hu Ha].
        apply Z.eqb_eq in Hu.
        assert (u = user) as ->.
        { apply (NoDup_map_eq User.ID (users db)); [exact Hnd | exact Hinu | exact Hin|].
          congruence. }
        rewrite Ha. reflexivity.
      * pose proof (find_none _ _ E user Hin) as Hn.
        unfold active_with_id in Hn. rewrite Huid, Z.eqb_refl in Hn. simpl in Hn.
        rewrite Hn. reflexivity.
    + intros Hnone.
      destruct (find (active_with_id id) (users db)) as [u|] eqn:E; [|reflexivity].
      apply find_some in E as [Hinu Hhit].
      unfold active_with_id in Hhit. apply andb_true_iff in Hhit as [Hu _].
      apply Z.eqb_eq in Hu. exfalso. exact (Hnone u Hinu Hu).
Qed.

End UserEndpointFacts.

Section MigrationFacts.
Import Strings Migrations.

Variable Schema : Type.
Variable Exec : string -> Schema -> result Schema.

Local Abbreviation version name := (TrimSuffix name ".up.sql").

Lemma In_insert_sorted x s l : In x (insert_sorted s l) <-> x = s \/ In x l.
Proof.
  induction l as [|y l IH]; simpl; [intuition|].
  destruct (String.leb s y); simpl; [intuition|].
  rewrite IH. intuition.
Qed.

Lemma In_sort_Strings x l : In x (sort_Strings l) <-> In x l.
Proof.
  unfold sort_Strings. induction l as [|y l IH]; simpl; [tauto|].
  rewrite In_insert_sorted, IH. intuition.
Qed.

Lemma count_applied v (st : State Schema) :
  (0 <? count Schema v st)%nat = true <-> In v (applied Schema st).
Proof.
  unfold count. split.
  - intros H. destruct (List.filter _ _) as [|x l] eqn:E; [discriminate|].
    assert (In x (List.filter (String.eqb v) (applied Schema st))) as Hin
        by (rewrite E; left; reflexivity).
    apply filter_In in Hin as [Hin Hx]. apply String.eqb_eq in Hx. subst x. exact Hin.
  - intros Hin.
    assert (In v (List.filter (String.eqb v) (applied Schema st))) as Hf.
    { apply filter_In. split; [exact Hin | apply String.eqb_refl]. }
    destruct (List.filter _ _); [destruct Hf | reflexivity].
Qed.

(** Nothing is left to do once every version is recorded. *)
Lemma apply_all_done env files :
  forall st,
    (forall name, In name files -> In (version name) (applied Schema st)) ->
    (forall v, status_err env v = None) ->
    apply_all Schema Exec env files st = (st, Ok tt).
Proof.
  induction files as [|name files IH]; intros st Hall Hio; [reflexivity|].
  simpl. rewrite Hio.
  rewrite (proj2 (count_applied (version name) st)) by (apply Hall; left; reflexivity).
  apply IH; [|exact Hio]. intros n Hn. apply Hall. right. exact Hn.
Qed.

(** A run that succeeds keeps what was recorded and records every file. *)
Lemma apply_all_ok env files :
  forall st st1,
    apply_all Schema Exec env files st = (st1, Ok tt) ->
    (forall v, In v (applied Schema st) -> In v (applied Schema st1))
    /\ forall name, In name files -> In (version name) (applied Schema st1).
Proof.
  induction files as [|name files IH]; intros st st1.
  - intros [= <-]. split; [auto | intros n []].
  - simpl. destruct (status_err env (version name)); [discriminate|].
    destruct (0 <? count Schema (version name) st)%nat eqn:Ec.
    + intros H. destruct (IH st st1 H) as [Hmono Hall]. split; [exact Hmono|].
      intros n [<- | Hn]; [|apply Hall; exact Hn].
      apply Hmono. apply count_applied. exact Ec.
    + destruct (ReadFile env name); [|discriminate].
      destruct (Exec _ _); [|discriminate].
      destruct (record_err env (version name)); [discriminate|].
      intros H. destruct (IH _ st1 H) as [Hmono Hall]. simpl in Hmono. split.
      * intros v Hv. apply Hmono. apply in_or_app. left. exact Hv.
      * intros n [<- | Hn]; [|apply Hall; exact Hn].
        apply Hmono. apply in_or_app. right. left. reflexivity.
Qed.

(** X23: a run of the migrations that returns without error has kept
    every recorded version and recorded the version of every [.up.sql]
    file of the directory; run again on the same directory it executes
    nothing, changes nothing and returns without error (the statements on
    [schema_migrations] being executed). *)
Theorem RunMigrations_idempotent env st st1 :
  RunMigrations Schema Exec env st = (st1, Ok tt) ->
  (forall v, In v (applied Schema st) -> In v (applied Schema st1))
  /\ (forall files name,
        ReadDir env = Ok files -> In name files ->
        HasSuffix name ".up.sql" = true ->
        In (version name) (applied Schema st1))
  /\ forall env',
       ReadDir env' = ReadDir env -> create_table_err env' = None ->
       (forall v, status_err env' v = None) ->
       RunMigrations Schema Exec env' st1 = (st1, Ok tt).
Proof.
  unfold RunMigrations.
  destruct (create_table_err env); [discriminate|].
  destruct (ReadDir env) as [files|]; [|discriminate].
  intros H. destruct (apply_all_ok env (upFiles files) st st1 H) as [Hmono Hall].
  split; [exact Hmono|]. split.
  - intros files' name [= <-] Hin Hsuffix. apply Hall.
    unfold upFiles. apply In_sort_Strings. apply filter_In. auto.
  - intros env' -> -> Hio. apply apply_all_done; [exact Hall | exact Hio].
Qed.

End MigrationFacts.

Section ConfigFacts.
Import ConfigLoad.

Variable Getenv : string -> string.
Variable ParseDuration : string -> option Z.

(** X24: [Load] on an environment that sets nothing gives the default
    configuration; a variable read as an integer takes the value of any
    decimal text of an [int], negative and zero included, so [OTP_LENGTH]
    is not confined to positive lengths; and text [strconv.Atoi] rejects
    leaves the default in place. *)
Theorem Load_reads_environment :
  ((forall key, Getenv key = "") -> Load Getenv ParseDuration = default_config)
  /\ (forall z,
        - 2 ^ 63 <= z <= 2 ^ 63 - 1 ->
        Getenv "OTP_LENGTH" = Fmt.int_text z ->
        OTP_Length (Load Getenv ParseDuration) = z)
  /\ (Strconv.Atoi (Getenv "OTP_LENGTH") = None ->
      OTP_Length (Load Getenv ParseDuration) = 6).
Proof.
  split; [|split].
  - intros Hunset. unfold Load, getEnvWithDefault, parseIntWithDefault,
                     parseDurationWithDefault.
    rewrite !Hunset. reflexivity.
  - intros z Hz Henv. simpl. unfold parseIntWithDefault. rewrite Henv.
    pose proof (Atoi_int_text z Hz) as Ha. rewrite Ha.
    destruct (Fmt.int_text z); [discriminate | reflexivity].
  - intros Ha. simpl. unfold parseIntWithDefault. rewrite Ha.
    destruct (negb _); reflexivity.
Qed.

End ConfigFacts.

Section EndpointExamples.
Import StructValidator.

Lemma generateOTPCode_digits_witness :
  exists code,
    OTPService.generateOTPCode default_config (Ok 42) = Ok code
    /\ String.length code = Z.to_nat (OTP_Length default_config)
    /\ Strconv.digits_value code 0 = Some 42.
Proof.
  apply (generateOTPCode_digits default_config 42).
  - simpl. lia.
  - vm_compute. split; [discriminate | reflexivity].
Defined.

Lemma generateSessionToken_faithful_witness :
  (exists sessionToken,
     OTPService.generateSessionToken (Ok ["a"; "b"]%char) = Ok sessionToken
     /\ String.length sessionToken = 4%nat
     /\ Strings.all_lower_hex sessionToken = true)
  /\ ["a"%char] = ["a"%char].
Proof.
  split.
  - apply (proj1 generateSessionToken_faithful ["a"; "b"]%char).
  - apply (proj2 generateSessionToken_faithful ["a"%char] ["a"%char]). reflexivity.
Defined.

(** For a configured length of -6 the format is [%0-6d]: the only code is
    a zero followed by five spaces, it has six characters, the request
    passes validation and the challenge is verified. *)
Lemma padded_code_passes_validation :
  let cfg := Sample.config_with_length (-6) in
  let req := mkVerifyOTPRequest "5e55104a" Sample.padded_code in
  OTP_Length cfg <> 6
  /\ OTPService.maxValue cfg = 1
  /\ OTPService.generateOTPCode cfg (Ok 0) = Ok Sample.padded_code
  /\ ValidateStruct_VerifyOTPRequest req = None
  /\ status_of (snd (OTPController.VerifyOTP cfg true Sample.sign Sample.digest
                                             Sample.verify_env req Sample.padded_world))
     = StatusOK.
Proof.
  cbv zeta. split; [discriminate|]. split; [|split; [|split]]; vm_compute; reflexivity.
Qed.

Lemma verify_endpoint_code_length_witness :
  let cfg := Sample.config_with_length 4 in
  let ok := mkVerifyOTPRequest "5e55104a" "123456" in
  let short := mkVerifyOTPRequest "5e55104a" "0042" in
  Utf8.RuneCountInString (Code ok) = 6%nat
  /\ exists details,
       OTPController.VerifyOTP cfg true Sample.sign Sample.digest Sample.verify_env
                               short Sample.empty_world
       = (Sample.empty_world,
          JSONError StatusBadRequest "Validation failed" details).
Proof.
  cbv zeta. split.
  - apply (proj1 (verify_endpoint_code_length
                    (Sample.config_with_length 4) true Sample.sign Sample.digest
                    Sample.verify_env (mkVerifyOTPRequest "5e55104a" "123456")
                    Sample.empty_world)).
    vm_compute. discriminate.
  - apply (proj2 (verify_endpoint_code_length
                    (Sample.config_with_length 4) true Sample.sign Sample.digest
                    Sample.verify_env (mkVerifyOTPRequest "5e55104a" "0042")
                    Sample.empty_world) 42).
    + discriminate.
    + discriminate.
    + vm_compute. split; [discriminate | reflexivity].
    + reflexivity.
Defined.

Lemma send_endpoint_rejects_invalid_phone_witness :
  exists details,
    OTPSendController.SendOTP default_config Sample.Duration_String
                              (Sample.send_at 0 "a") (mkSendOTPRequest "salamsalam")
                              Sample.empty_world
    = (Sample.empty_world, SendError StatusBadRequest "Validation failed" details).
Proof.
  apply (send_endpoint_rejects_invalid_phone default_config Sample.Duration_String).
  reflexivity.
Defined.

Lemma send_endpoint_rate_limited_witness :
  OTPSendController.SendOTP default_config Sample.Duration_String
                            (Sample.send_at Time.Second "a")
                            (mkSendOTPRequest Sample.phone) Scenario.limited_world
  = (Scenario.limited_world,
     SendError StatusTooManyRequests "Rate limit exceeded"
       "Maximum 3 OTP requests per phone number within 10 minutes. Please try again later.").
Proof.
  apply (send_endpoint_rate_limited default_config Sample.Duration_String
           (Sample.send_at Time.Second "a") (mkSendOTPRequest Sample.phone)
           Scenario.limited_world 3 0).
  - reflexivity.
  - reflexivity.
  - exists 0, (Some (10 * Time.Minute)). split; [reflexivity|].
    intros e H. injection H as <-. vm_compute. discriminate.
  - reflexivity.
  - reflexivity.
  - vm_compute. discriminate.
Defined.

Lemma GetUser_answers_witness :
  snd (UserController.GetUser no_sql_faults "abc" Scenario.db_with_member)
  = UserError StatusBadRequest "Invalid user ID" "User ID must be a valid integer"
  /\ snd (UserController.GetUser no_sql_faults (Fmt.int_text 1) Scenario.db_with_member)
     = UserFound StatusOK (UserService.toUserResponse Scenario.member)
  /\ snd (UserController.GetUser no_sql_faults (Fmt.int_text 7) Scenario.db_with_member)
     = UserError StatusNotFound "User not found" "The requested user does not exist".
Proof.
  destruct (GetUser_answers no_sql_faults Scenario.db_with_member)
    as (_ & Hbad & Hfind).
  split; [apply Hbad; reflexivity|].
  assert (List.NoDup (map User.ID (users Scenario.db_with_member))) as Hnd.
  { simpl. constructor; [intros [] | constructor]. }
  split.
  - destruct (Hfind eq_refl Hnd 1 ltac:(lia)) as [Hone _].
    apply (Hone Scenario.member); [left; reflexivity | reflexivity].
  - destruct (Hfind eq_refl Hnd 7 ltac:(lia)) as [_ Hnone].
    apply Hnone. intros user [<- | []]. discriminate.
Defined.

End EndpointExamples.

Section SessionEndpointExamples.
Import Session Middleware.

Lemma middleware_guards_protected_routes_witness :
  exists tokenString claims,
    Authorization Scenario.profile_request = ("Bearer " ++ tokenString)%string
    /\ JWTService.ValidateToken default_config true Sample.parse Sample.digest
                                no_redis_faults 10 tokenString Sample.logged_in
       = (TokenService.spawn (Spawned "jwt-1" (Sample.session 10)) Sample.logged_in,
          Ok claims)
    /\ Some (User.mk 1 Sample.phone Time.zero None true)
       = Some (User.mk (JWTClaims.UserID claims) (JWTClaims.PhoneNumber claims)
                       Time.zero None true).
Proof.
  apply (middleware_guards_protected_routes default_config Sample.parse Sample.digest
           true no_redis_faults 10 Scenario.profile_request Sample.logged_in).
  - left. reflexivity.
  - vm_compute. reflexivity.
Defined.



Lemma verified_login_is_authenticated_witness :
  let login := OTPController.VerifyOTP default_config true Sample.sign Sample.digest
                                       Sample.verify_env
                                       (StructValidator.mkVerifyOTPRequest
                                          "5e55104a" "123456")
                                       Scenario.challenged_world in
  exists st2,
    JWTMiddleware default_config true Sample.parse Sample.digest no_redis_faults 20
                  Scenario.profile_request (sessions (fst login))
    = (st2, Next (Some (User.mk 1 Sample.phone Time.zero None true)))
    /\ tokens st2 = tokens (sessions (fst login)).
Proof.
  intros login.
  apply (verified_login_is_authenticated default_config Sample.parse Sample.digest
           Sample.sign Sample.verify_env
           (StructValidator.mkVerifyOTPRequest "5e55104a" "123456")
           Scenario.challenged_world (fst login) StatusOK
           (AuthResponse.mk "jwt-1"
              (UserResponse.mk 1 Sample.phone 10 (Some 10) true)
              (10 + JWT_ExpirationTime default_config) "Authentication successful")
           ltac:(vm_compute; reflexivity) eq_refl ltac:(vm_compute; reflexivity)
           no_redis_faults 20 Scenario.profile_request Sample.token_claims).
  - reflexivity.
  - reflexivity.
  - reflexivity.
  - vm_compute. reflexivity.
Defined.

Lemma announced_expiry_bounds_token_witness :
  let claims := JWTService.claims_of default_config Scenario.login_env
                                     (Sample.new_user 0) in
  Sample.sign claims (JWT_Secret default_config) = Ok "jwt-1"
  /\ JWTClaims.UserID claims = 1
  /\ JWTClaims.PhoneNumber claims = Sample.phone
  /\ JWTClaims.IssuedAt claims <= 0
  /\ JWTClaims.NotBefore claims <= 0
  /\ JWTClaims.ExpiresAt claims <= JWT_ExpirationTime default_config
     < JWTClaims.ExpiresAt claims + Time.Second.
Proof.
  apply (announced_expiry_bounds_token default_config Sample.digest true Sample.sign
           Scenario.login_env (Sample.new_user 0) (sessions Sample.empty_world)
           (fst (JWTService.GenerateToken default_config true Sample.sign Sample.digest
                                          Scenario.login_env (Sample.new_user 0)
                                          (sessions Sample.empty_world)))
           (AuthResponse.mk "jwt-1"
              (UserResponse.mk 1 Sample.phone 0 (Some 0) true)
              (JWT_ExpirationTime default_config) "Authentication successful")).
  vm_compute. reflexivity.
Defined.

Lemma stored_token_validates_witness :
  let st1 := fst (TokenService.StoreToken no_redis_faults 0 "jwt-1" (Sample.session 0)
                                          (1000 * Time.Second)
                                          (sessions Sample.empty_world)) in
  TokenService.ValidateToken no_redis_faults 10 "jwt-1" st1
  = (TokenService.spawn (Spawned "jwt-1" (Sample.session 10)) st1,
     Ok (Sample.session 10))
  /\ TokenService.ValidateToken no_redis_faults (1000 * Time.Second) "jwt-1" st1
     = (st1, Err "token not found or expired").
Proof.
  intros st1.
  pose proof (stored_token_validates no_redis_faults 0 "jwt-1" (Sample.session 0)
                (1000 * Time.Second) (sessions Sample.empty_world) st1
                ltac:(vm_compute; reflexivity) ltac:(vm_compute; reflexivity)) as H.
  split.
  - exact (H no_redis_faults 10 eq_refl).
  - exact (H no_redis_faults (1000 * Time.Second) eq_refl).
Defined.

Lemma revocation_is_targeted_witness :
  tokens (fst (TokenService.RevokeToken no_redis_faults 12 "jwt-2" Sample.logged_in))
  !! TokenService.key "jwt-1"
  = tokens Sample.logged_in !! TokenService.key "jwt-1"
  /\ tokens (fst (TokenService.RevokeAllUserTokens no_redis_faults 12 1 Sample.logged_in))
     !! TokenService.key "jwt-1" = None.
Proof.
  destruct (revocation_is_targeted no_redis_faults 12 Sample.logged_in)
    as [Hone Hall].
  split.
  - apply Hone. discriminate.
  - destruct (Hall 1 (fst (TokenService.RevokeAllUserTokens no_redis_faults 12 1
                                                           Sample.logged_in)))
      as [Hin _]; [vm_compute; reflexivity|].
    apply Hin. vm_compute. left. reflexivity.
Defined.

Lemma GetUserActiveTokens_lists_witness :
  exists st1 listed,
    TokenListing.GetUserActiveTokens no_redis_faults (fun _ => no_redis_faults)
                                     (fun _ => 10) 10 1 Sample.logged_in
    = (st1, Ok listed)
    /\ tokens st1 = tokens Sample.logged_in
    /\ user_tokens st1 = user_tokens Sample.logged_in
    /\ forall tokenInfo,
         In tokenInfo listed <->
         exists h stored,
           In h (Redis.smembers 10 (TokenService.userKey 1)
                                (user_tokens Sample.logged_in))
           /\ Redis.get 10 (TokenService.key h) (tokens Sample.logged_in) = Some stored
           /\ tokenInfo = TokenInfo.set_last_used 10 stored.
Proof.
  apply (GetUserActiveTokens_lists no_redis_faults (fun _ => no_redis_faults)
           (fun _ => 10) 10 1 Sample.logged_in).
  - reflexivity.
  - intros h. reflexivity.
Defined.

End SessionEndpointExamples.

Section ChallengeExamples.
Import Challenge.

Lemma send_then_verify_witness :
  let sent := OTPService.SendOTP default_config Sample.Duration_String
                                 (Sample.send_at 0 "a") Sample.phone
                                 Sample.empty_world in
  exists randomNumber code,
    rand_int (Sample.send_at 0 "a") = Ok randomNumber
    /\ OTPService.generateOTPCode default_config (Ok randomNumber) = Ok code
    /\ Sample.phone = Sample.phone
    /\ Time.Add (t_issue (Sample.send_at 0 "a")) (OTP_ExpirationTime default_config)
       = Time.Add (t_issue (Sample.send_at 0 "a")) (OTP_ExpirationTime default_config)
    /\ forall now,
         now < Time.Add (t_issue (Sample.send_at 0 "a"))
                        (OTP_ExpirationTime default_config) ->
         exists d' user,
           OTPService.VerifyOTP no_sql_faults now "61" code (db (fst sent))
           = (d', Ok user)
           /\ User.PhoneNumber user = Sample.phone.
Proof.
  intros sent.
  apply (send_then_verify default_config Sample.Duration_String
           (Sample.send_at 0 "a") Sample.phone Sample.empty_world (fst sent)
           (OTPResponse.mk "OTP sent successfully" "61" Sample.phone
              (Time.Add (t_issue (Sample.send_at 0 "a"))
                        (OTP_ExpirationTime default_config)))).
  - vm_compute. reflexivity.
  - constructor.
  - intros u [].
Defined.

Lemma expired_challenge_is_rejected_witness :
  OTPService.VerifyOTP no_sql_faults 1000 "5e55104a" "123456" Sample.fresh_db
  = (Sample.fresh_db, Err "invalid or expired OTP").
Proof.
  apply (expired_challenge_is_rejected no_sql_faults 1000 "5e55104a" "123456"
           Sample.fresh_db).
  - reflexivity.
  - intros o [<- | []] _. simpl. lia.
Defined.

Lemma VerifyOTP_user_witness :
  (exists d',
     OTPService.VerifyOTP no_sql_faults 10 "5e55104a" "123456" Scenario.db_with_member
     = (d', Ok Scenario.member)
     /\ users d' = [User.set_last_login 10 Scenario.member])
  /\ (exists d',
        OTPService.VerifyOTP no_sql_faults 10 "5e55104a" "123456" Sample.fresh_db
        = (d', Ok (User.mk 1 Sample.phone 10 (Some 10) true))
        /\ users d' = [User.mk 1 Sample.phone 10 (Some 10) true]).
Proof.
  split.
  - destruct (VerifyOTP_user 10 Scenario.db_with_member Sample.challenge)
      as [Hmember _].
    + apply (sample_unique_tokens _ Sample.challenge). reflexivity.
    + left. reflexivity.
    + reflexivity.
    + simpl. lia.
    + apply (Hmember Scenario.member). reflexivity.
  - destruct (VerifyOTP_user 10 Sample.fresh_db Sample.challenge) as [_ Hnew].
    + apply (sample_unique_tokens _ Sample.challenge). reflexivity.
    + left. reflexivity.
    + reflexivity.
    + simpl. lia.
    + apply Hnew. intros u [].
Defined.

Lemma cleanup_is_invisible_witness :
  let clean d := fst (OTPRepository.DeleteExpired no_sql_faults 5 d) in
  OTPService.VerifyOTP no_sql_faults 10 "5e55104a" "123456" (clean Sample.fresh_db)
  = (clean (fst (OTPService.VerifyOTP no_sql_faults 10 "5e55104a" "123456"
                                      Sample.fresh_db)),
     snd (OTPService.VerifyOTP no_sql_faults 10 "5e55104a" "123456" Sample.fresh_db)).
Proof.
  apply (cleanup_is_invisible no_sql_faults 5 no_sql_faults 10 "5e55104a" "123456"
           Sample.fresh_db).
  - reflexivity.
  - lia.
Defined.

Lemma rate_limit_is_per_phone_number_witness :
  let w1 := fst (OTPService.SendOTP default_config Sample.Duration_String
                                    (Sample.send_at 0 "a") Sample.phone
                                    Sample.empty_world) in
  RateRecords.well_keyed (rate w1)
  /\ forall other,
       other <> Sample.phone ->
       rate w1 !! RedisRateLimitRepository.key other
       = rate Sample.empty_world !! RedisRateLimitRepository.key other
       /\ forall io now,
            snd (OTPService.IsRateLimited default_config io now other (rate w1))
            = snd (OTPService.IsRateLimited default_config io now other
                                            (rate Sample.empty_world)).
Proof.
  apply (rate_limit_is_per_phone_number default_config Sample.Duration_String
           (Sample.send_at 0 "a") Sample.phone Sample.empty_world).
  intros k info e H. simpl in H. rewrite lookup_empty in H. discriminate.
Defined.

End ChallengeExamples.

Section SetupExamples.

Lemma RunMigrations_idempotent_witness :
  let first := Migrations.RunMigrations (list string) Scenario.execute
                                        Scenario.migration_env
                                        (Migrations.mkState (list string) [] []) in
  snd first = Ok tt
  /\ Migrations.applied (list string) (fst first)
     = ["002_create_otps_table"; "005_add_session_token_to_otps"]
  /\ Migrations.schema (list string) (fst first)
     = ["-- 002_create_otps_table.up.sql"; "-- 005_add_session_token_to_otps.up.sql"]
  /\ Migrations.RunMigrations (list string) Scenario.execute Scenario.migration_env
                              (fst first)
     = (fst first, Ok tt).
Proof.
  intros first.
  split; [reflexivity|]. split; [reflexivity|]. split; [reflexivity|].
  destruct (RunMigrations_idempotent (list string) Scenario.execute
              Scenario.migration_env (Migrations.mkState (list string) [] [])
              (fst first) ltac:(reflexivity)) as (_ & _ & Hagain).
  apply Hagain; reflexivity.
Defined.

Lemma Load_reads_environment_witness :
  ConfigLoad.Load Scenario.unset Scenario.no_duration = default_config
  /\ OTP_Length (ConfigLoad.Load Scenario.environment Scenario.no_duration) = -6
  /\ OTP_Length (ConfigLoad.Load (fun _ => "six") Scenario.no_duration) = 6.
Proof.
  split; [|split].
  - apply (proj1 (Load_reads_environment Scenario.unset Scenario.no_duration)).
    reflexivity.
  - apply (proj1 (proj2 (Load_reads_environment Scenario.environment
                                                 Scenario.no_duration)) (-6)).
    + lia.
    + reflexivity.
  - apply (proj2 (proj2 (Load_reads_environment (fun _ => "six")
                                                 Scenario.no_duration))).
    reflexivity.
Defined.

End SetupExamples.
